(** * RNN-TuneSmith: the preprocessing pipeline of [preprocess.py]

    A shallow embedding of the data-preparation pipeline (duration filter,
    time-series encoder, corpus assembler, vocabulary builder, integer
    encoding and sliding-window sequence generator) together with the
    properties stated about it.

    Conventions of the embedding.
    - Python [int] is [Z]; [len], [range], slices and indexing follow
      Python (negative [range] bounds give the empty range, negative
      indices count from the end, slices clamp, indexing raises).
    - A number (a quarter length, the time step) is given by its value, a
      rational [Q], and compared with [==] the way Python compares a
      [float] and a [Fraction]. Its Python type follows from the value: a
      value that an IEEE 754 binary64 float holds exactly is a [float],
      any other is a [Fraction]. This is how music21 holds a quarter
      length (a float for a binary fraction, a [Fraction] for a tuplet),
      and the time step is a float by its documentation. The division of
      line 106 is Python's: in binary64, rounded to nearest, as soon as
      one operand is a float; exact between two Fractions.
    - [str] is [string] (ASCII); a [dict] with [str] keys is a
      [gmap string _]; an exception is a value of [error] carried by
      [result].
    - The file system is a finite map from paths to file contents.
    - What the pipeline delegates (directory enumeration, the iteration
      order of a [set], the JSON codec) is the interface [Collaborators];
      the one-hot expansion of Keras is modelled from its definition.
    - The key normaliser [transpose] consists of music21 calls only (key
      metadata, key analysis, interval, transposition of the stream) and
      is taken through the interface [Music21], with the directory walk
      and the parser.
    - A score is a sequence of notes and rests, music21's two kinds of
      event of a monophonic melody; the time step is a finite number. *)

From Stdlib Require Import ZArith QArith Qround Qabs Qpower List String Ascii.
From Stdlib Require Import DecimalString DecimalZ Lia.
From Stdlib Require PrimFloat FloatOps SpecFloat.
From stdpp Require Import gmap strings list fin_maps.

Local Open Scope string_scope.
Local Open Scope list_scope.
Local Open Scope Z_scope.

(* ===================================================================== *)
(** * IEEE 754 binary64, the arithmetic of a Python float                 *)
(* ===================================================================== *)

(** A finite float is given by the rational it holds. [round q] is the
    float nearest to [q], ties going to the even mantissa: 53 significant
    bits, the exponent of the last bit not below -1074 (subnormal numbers
    keep that exponent), and no result when the rounded magnitude reaches
    [2 ^ 1024], where the float arithmetic gives an infinity. *)
Module Binary64.

Definition pow2 (k : Z) : Q := (2 ^ k)%Q.

(** [floor (log2 q)] for a positive [q]. *)
Definition ilog2 (q : Q) : Z :=
  let l := Z.log2 (Qnum q) - Z.log2 (Zpos (Qden q)) in
  if Qle_bool (pow2 l) q then l else l - 1.

(** The nearest integer, a half going to the even neighbour. *)
Definition round_half_even (x : Q) : Z :=
  let f := Qfloor x in
  match (x - inject_Z f ?= 1 # 2)%Q with
  | Lt => f
  | Gt => f + 1
  | Eq => if Z.even f then f else f + 1
  end.

(** The exponent of the last bit of the mantissa. *)
Definition exponent (q : Q) : Z := Z.max (ilog2 (Qabs q) - 52) (-1074).

Definition round (q : Q) : option Q :=
  let q := Qred q in
  if Qeq_bool q 0 then Some 0%Q
  else
    let e := exponent q in
    let v := (inject_Z (round_half_even (q / pow2 e)) * pow2 e)%Q in
    if Qle_bool (pow2 1024) (Qabs v) then None else Some (Qred v).

(** The values that a float holds exactly. *)
Definition representable (q : Q) : bool :=
  match round q with
  | Some f => Qeq_bool f q
  | None => false
  end.

End Binary64.

(** The value of a float of the kernel of Rocq, which computes in
    binary64: the examples that compare [Binary64.round] with it use
    this. *)
Module KernelFloat.
Import PrimFloat FloatOps SpecFloat.

Definition value (f : float) : option Q :=
  match Prim2SF f with
  | S754_zero _ => Some 0%Q
  | S754_finite s m e =>
      Some (Qred ((if s then -1 else 1) * inject_Z (Zpos m) * 2 ^ e))%Q
  | _ => None
  end.

(** The float of a whole number below [2 ^ 53], which is exact. *)
Fixpoint of_positive (p : positive) : float :=
  match p with
  | xH => 1
  | xO p' => 2 * of_positive p'
  | xI p' => 2 * of_positive p' + 1
  end%float.

(** [float(Fraction(n, d))], the quotient of two such floats. *)
Definition nearest (n d : positive) : float := (of_positive n / of_positive d)%float.

(** [5e-324], the smallest positive float. *)
Definition smallest : float := 0x1p-1074%float.

Definition div (a b : float) : float := (a / b)%float.

End KernelFloat.

(* ===================================================================== *)
(** * Python primitives used by the pipeline                              *)
(* ===================================================================== *)

Module Py.

(** The exceptions the pipeline can raise. *)
Inductive error : Type :=
| ZeroDivisionError
| OverflowError
| ValueError
| KeyError (key : string)
| IndexError
| FileNotFoundError (path : string)
| JSONDecodeError (path : string).

Inductive result (A : Type) : Type :=
| Ok (a : A)
| Raise (e : error).
Arguments Ok {A} a.
Arguments Raise {A} e.

Definition bind {A B : Type} (c : result A) (k : A -> result B) : result B :=
  match c with
  | Ok a => k a
  | Raise e => Raise e
  end.

(** [str.isspace] on ASCII: tab, LF, VT, FF, CR, the four separators
    FS GS RS US, and space. *)
Definition is_space (c : ascii) : bool :=
  let n := nat_of_ascii c in
  ((9 <=? n)%nat && (n <=? 13)%nat) || ((28 <=? n)%nat && (n <=? 32)%nat).

Definition flush (cur : string) : list string :=
  match cur with
  | EmptyString => []
  | _ => [cur]
  end.

(** [s.split()] without argument: maximal runs of non-whitespace. *)
Fixpoint split_go (cur : string) (s : string) : list string :=
  match s with
  | EmptyString => flush cur
  | String c s' =>
      if is_space c then flush cur ++ split_go EmptyString s'
      else split_go (cur +:+ String c EmptyString) s'
  end.

Definition split (s : string) : list string := split_go EmptyString s.

(** [sep.join(l)]. *)
Fixpoint join (sep : string) (l : list string) : string :=
  match l with
  | [] => EmptyString
  | [x] => x
  | x :: rest => x +:+ sep +:+ join sep rest
  end.

(** [s * n] for a string [s] and an int [n]. *)
Fixpoint repeat_string (s : string) (n : nat) : string :=
  match n with
  | O => EmptyString
  | S n' => s +:+ repeat_string s n'
  end.

Definition mul_str (s : string) (n : Z) : string :=
  repeat_string s (Z.to_nat n).

(** [s[:-1]]: all but the last character; the empty string stays empty. *)
Fixpoint drop_last (s : string) : string :=
  match s with
  | EmptyString => EmptyString
  | String c EmptyString => EmptyString
  | String c s' => String c (drop_last s')
  end.

(** [str(n)] for an int: decimal digits with a leading minus sign. *)
Definition str_int (n : Z) : string :=
  NilZero.string_of_int (Z.to_int n).

(** [int(s)] for a string holding a decimal numeral. *)
Definition int_of_str (s : string) : option Z :=
  option_map Z.of_int (NilZero.int_of_string s).

(** Truncation towards zero, which is what [int] does to a finite number. *)
Definition trunc (q : Q) : Z := Z.quot (Qnum q) (Zpos (Qden q)).

(** A number is a float when a float holds its value, a [Fraction]
    otherwise. *)
Definition is_float (q : Q) : bool := Binary64.representable q.

(** [float(q)]: the nearest float; a [Fraction] too large for a float
    raises. A float is left as it is. *)
Definition float (q : Q) : result Q :=
  match Binary64.round q with
  | Some f => Ok f
  | None => Raise OverflowError
  end.

(** What a division returns: a finite number, or a float infinity when
    the quotient of two floats overflows. *)
Inductive quotient : Type :=
| Finite (q : Q)
| Infinity.

(** [a / b]. With a float among the operands the other one is converted
    to float first ([Fraction.__truediv__] and [__rtruediv__] call
    [float()] on a [Fraction]), a zero divisor raises, and the quotient
    of the two floats is rounded to the nearest float. Two Fractions are
    divided exactly. *)
Definition truediv (a b : Q) : result quotient :=
  if is_float a || is_float b then
    bind (float a) (fun x =>
    bind (float b) (fun y =>
    if Qeq_bool y 0 then Raise ZeroDivisionError
    else Ok (match Binary64.round (x / y) with
             | Some f => Finite f
             | None => Infinity
             end)))
  else if Qeq_bool b 0 then Raise ZeroDivisionError
  else Ok (Finite (a / b)).

(** [int(x)]: truncation towards zero; [int] of an infinity raises. *)
Definition int (x : quotient) : result Z :=
  match x with
  | Finite q => Ok (trunc q)
  | Infinity => Raise OverflowError
  end.

(** [x in l] for a number and a list of numbers. *)
Definition contains (x : Q) (l : list Q) : bool := existsb (Qeq_bool x) l.

(** [range(n)]. *)
Definition range (n : Z) : list Z := map Z.of_nat (seq 0 (Z.to_nat n)).

(** [len(l)]. *)
Definition len {A : Type} (l : list A) : Z := Z.of_nat (length l).

(** [l[a:b]]: negative bounds count from the end and both are clamped. *)
Definition clamp {A : Type} (l : list A) (k : Z) : nat :=
  if k <? 0 then Z.to_nat (Z.max (k + len l) 0)
  else Z.to_nat (Z.min k (len l)).

Definition slice {A : Type} (l : list A) (a b : Z) : list A :=
  firstn (clamp l b - clamp l a) (skipn (clamp l a) l).

(** [l[k]]: a negative index counts from the end; out of range raises. *)
Definition getitem {A : Type} (l : list A) (k : Z) : result A :=
  let k' := if k <? 0 then k + len l else k in
  if k' <? 0 then Raise IndexError
  else match l !! Z.to_nat k' with
       | Some x => Ok x
       | None => Raise IndexError
       end.

End Py.

Notation "'let*' x ':=' c1 'in' c2" := (Py.bind c1 (fun x => c2))
  (at level 10, x name, c1 at level 100, c2 at level 200).
Notation "'let*' ' p ':=' c1 'in' c2" :=
  (Py.bind c1 (fun x => match x with p => c2 end))
  (at level 10, p pattern, c1 at level 100, c2 at level 200).

(* ===================================================================== *)
(** * Data model                                                          *)
(* ===================================================================== *)

(** An event of a flattened monophonic score: a note with the MIDI number
    of its pitch, or a rest; each with its [duration.quarterLength], which
    music21 holds as a float when the value is a binary fraction and as a
    [Fraction] otherwise. *)
Inductive event : Type :=
| Note (midi : Z) (quarterLength : Q)
| Rest (quarterLength : Q).

Definition quarterLength (e : event) : Q :=
  match e with
  | Note _ d => d
  | Rest d => d
  end.

Definition is_note (e : event) : bool :=
  match e with
  | Note _ _ => true
  | Rest _ => false
  end.

(** [song.flatten()]: the events of the score in temporal order. *)
Definition score : Type := list event.

(** [stream.notes] yields the pitched events and leaves rests out;
    [stream.notesAndRests] yields both kinds (music21's two iterators). *)
Definition notes (song : score) : list event := List.filter is_note song.
Definition notesAndRests (song : score) : list event := song.

(** What the encoder appends to [encoded_song]: an [int] or a [str]. *)
Inductive pyval : Type :=
| PyInt (n : Z)
| PyStr (s : string).

Definition py_str (v : pyval) : string :=
  match v with
  | PyInt n => Py.str_int n
  | PyStr s => s
  end.

(** Module constants. *)
Definition SEQUENCE_LENGTH : Z := 64.
Definition UNIVERSAL_DATASET : string := "songs_dataset".
Definition MAPPINGS_PATH : string := "vocabulary.json".
Definition ACCEPTABLE_DURATIONS : list Q :=
  [ 1 # 4; 1 # 2; 3 # 4; 1 # 1; 3 # 2; 2 # 1; 3 # 1; 4 # 1 ]%Q.

(* ===================================================================== *)
(** * Duration filter                                                     *)
(* ===================================================================== *)

(** The loop of [has_acceptable_note_durations]: [return False] at the
    first duration that is not in the list, [return True] at the end. *)
Fixpoint acceptable_loop (ns : list event) (acceptable_durations : list Q) : bool :=
  match ns with
  | [] => true
  | note :: rest =>
      if negb (Py.contains (quarterLength note) acceptable_durations) then false
      else acceptable_loop rest acceptable_durations
  end.

Definition has_acceptable_note_durations (song : score) (acceptable_durations : list Q) : bool :=
  acceptable_loop (notes song) acceptable_durations.

(* ===================================================================== *)
(** * Time-series encoder                                                 *)
(* ===================================================================== *)

Definition encoding_symbol (e : event) : pyval :=
  match e with
  | Note midi _ => PyInt midi
  | Rest _ => PyStr "r"
  end.

(** The inner loop: the symbol at step 0, the hold token afterwards. *)
Definition emit_steps (symbol : pyval) (step_count : Z) : list pyval :=
  map (fun step => if step =? 0 then symbol else PyStr "_") (Py.range step_count).

(** The outer loop over [notesAndRests], threading [encoded_song]. *)
Fixpoint encode_events (events : list event) (time_step : Q) (encoded_song : list pyval)
  : Py.result (list pyval) :=
  match events with
  | [] => Py.Ok encoded_song
  | e :: rest =>
      let* q := Py.truediv (quarterLength e) time_step in
      let* step_count := Py.int q in
      encode_events rest time_step (encoded_song ++ emit_steps (encoding_symbol e) step_count)
  end.

(** The list [encoded_song] just before it is joined. *)
Definition encoded_tokens (song : score) (time_step : Q) : Py.result (list pyval) :=
  encode_events (notesAndRests song) time_step [].

Definition encode_song (song : score) (time_step : Q) : Py.result string :=
  let* encoded_song := encoded_tokens song time_step in
  Py.Ok (Py.join " " (map py_str encoded_song)).

(** The default argument [time_step=0.25]. *)
Definition default_time_step : Q := (1 # 4)%Q.

(** The number of steps of an event, [int(quarterLength / time_step)], and
    the sum [sum(int(d / time_step) for each event)] over a score. *)
Definition step_count (e : event) (time_step : Q) : Py.result Z :=
  let* q := Py.truediv (quarterLength e) time_step in
  Py.int q.

Fixpoint total_steps (song : score) (time_step : Q) : Py.result Z :=
  match song with
  | [] => Py.Ok 0
  | e :: rest =>
      let* k := step_count e time_step in
      let* n := total_steps rest time_step in
      Py.Ok (k + n)
  end.

(** The step count as a number, where it is computed without error, and
    the tokens of one event. *)
Definition steps (e : event) (time_step : Q) : Z :=
  match step_count e time_step with
  | Py.Ok k => k
  | Py.Raise _ => 0
  end.

Definition event_tokens (time_step : Q) (e : event) : list pyval :=
  emit_steps (encoding_symbol e) (steps e time_step).

(** The step count of the event is computed without error, and their sum
    as a number. *)
Definition counted (time_step : Q) (e : event) : Prop :=
  exists k : Z, step_count e time_step = Py.Ok k.

Definition sum_steps (song : score) (time_step : Q) : Z :=
  fold_right (fun e acc => steps e time_step + acc) 0 song.

(** Python computes the quotient of the division without rounding. *)
Definition exact_quotient (a b : Q) : Prop :=
  exists q : Q, Py.truediv a b = Py.Ok (Py.Finite q) /\ (q == a / b)%Q.

(** A duration that is [k] time steps for a whole number [k >= 1]. *)
Definition whole_multiple (time_step : Q) (e : event) : Prop :=
  exists k : Z, 1 <= k /\ (quarterLength e == inject_Z k * time_step)%Q.

(** Two scores with the same events up to the representation of the
    durations as fractions. *)
Definition same_number_event (e1 e2 : event) : Prop :=
  encoding_symbol e1 = encoding_symbol e2 /\ (quarterLength e1 == quarterLength e2)%Q.

(* ===================================================================== *)
(** * Files and external collaborators                                    *)
(* ===================================================================== *)

Abbreviation filesystem := (gmap string string).

(** [load]: [open(file_path, "r").read()]. *)
Definition load (fs : filesystem) (file_path : string) : Py.result string :=
  match fs !! file_path with
  | Some file_content => Py.Ok file_content
  | None => Py.Raise (Py.FileNotFoundError file_path)
  end.

(** [open(path, "w").write(content)]. *)
Definition write (fs : filesystem) (path content : string) : filesystem :=
  <[path := content]> fs.

(** The operations the pipeline takes from its libraries.
    - [os_walk fs dir]: the joined paths [os.path.join(path, file)] that the
      double loop over [os.walk(dir)] visits, in the order of the walk; the
      walk only lists files that exist.
    - [set_list l]: [list(set(l))], the distinct elements of [l] in the
      iteration order of the set, whatever it is.
    - [json_dump], [json_load]: the JSON codec for a [str -> int] table. *)
Class Collaborators : Type := {
  os_walk : filesystem -> string -> list string;
  os_walk_exists : forall fs dir p, p ∈ os_walk fs dir -> is_Some (fs !! p);
  set_list : list string -> list string;
  set_list_NoDup : forall l, NoDup (set_list l);
  set_list_elem : forall l x, x ∈ set_list l <-> x ∈ l;
  json_dump : gmap string Z -> string;
  json_load : string -> Py.result (gmap string Z)
}.

(* ===================================================================== *)
(** * Corpus assembler                                                    *)
(* ===================================================================== *)

(** The loop over the walked files, threading the string [songs]. *)
Fixpoint assemble_loop (fs : filesystem) (file_paths : list string)
    (new_song_delimiter : string) (songs : string) : Py.result string :=
  match file_paths with
  | [] => Py.Ok songs
  | file_path :: rest =>
      let* song := load fs file_path in
      assemble_loop fs rest new_song_delimiter
        (((songs +:+ song) +:+ " ") +:+ new_song_delimiter)
  end.

Definition create_universal_dataset `{Collaborators} (fs : filesystem)
    (songs_dir dataset_path : string) (sequence_length : Z)
  : Py.result (string * filesystem) :=
  let new_song_delimiter := Py.mul_str "/ " sequence_length in
  let* songs := assemble_loop fs (os_walk fs songs_dir) new_song_delimiter "" in
  let songs := Py.drop_last songs in
  Py.Ok (songs, write fs dataset_path songs).

(* ===================================================================== *)
(** * Vocabulary builder                                                  *)
(* ===================================================================== *)

(** [enumerate(l)]. *)
Definition enumerate {A : Type} (l : list A) : list (Z * A) :=
  combine (Py.range (Py.len l)) l.

(** [{symbol: index for index, symbol in enumerate(vocabulary)}]: the
    entries are stored in order, a later one replacing an earlier one. *)
Definition dict_of_enumeration (vocabulary : list string) : gmap string Z :=
  fold_left (fun d '(index, symbol) => <[symbol := index]> d)
            (enumerate vocabulary) ∅.

(** The dictionary [mappings] that [create_mapping] builds:
    [mappings.update(d)] on the empty dictionary. *)
Definition build_mappings `{Collaborators} (songs : string) : gmap string Z :=
  let vocabulary := set_list (Py.split songs) in
  dict_of_enumeration vocabulary ∪ ∅.

Definition create_mapping `{Collaborators} (fs : filesystem)
    (songs mappings_path : string) : filesystem :=
  write fs mappings_path (json_dump (build_mappings songs)).

(* ===================================================================== *)
(** * Integer encoding and sequence generator                             *)
(* ===================================================================== *)

(** The loop [songs[i] = vocabulary_mapping[item]]: the list of ids, or the
    [KeyError] of the first token without an entry. *)
Fixpoint map_to_int (vocabulary_mapping : gmap string Z) (songs : list string)
  : Py.result (list Z) :=
  match songs with
  | [] => Py.Ok []
  | item :: rest =>
      match vocabulary_mapping !! item with
      | None => Py.Raise (Py.KeyError item)
      | Some id =>
          let* ids := map_to_int vocabulary_mapping rest in
          Py.Ok (id :: ids)
      end
  end.

Definition convert_songs_to_int `{Collaborators} (fs : filesystem) (songs : string)
  : Py.result (list Z) :=
  let* fp := load fs MAPPINGS_PATH in
  let* vocabulary_mapping := json_load fp in
  map_to_int vocabulary_mapping (Py.split songs).

(** The windowing loop over [range(number_of_sequences)], threading
    [inputs] and [targets]. *)
Fixpoint windows_loop (int_songs : list Z) (sequence_length : Z) (indices : list Z)
    (inputs : list (list Z)) (targets : list Z)
  : Py.result (list (list Z) * list Z) :=
  match indices with
  | [] => Py.Ok (inputs, targets)
  | i :: rest =>
      let inputs := inputs ++ [Py.slice int_songs i (i + sequence_length)] in
      let* target := Py.getitem int_songs (i + sequence_length) in
      windows_loop int_songs sequence_length rest inputs (targets ++ [target])
  end.

(** [inputs] and [targets] as they stand before the one-hot expansion. *)
Definition training_windows (int_songs : list Z) (sequence_length : Z)
  : Py.result (list (list Z) * list Z) :=
  let number_of_sequences := Py.len int_songs - sequence_length in
  windows_loop int_songs sequence_length (Py.range number_of_sequences) [] [].

(** [len(set(int_songs))]. *)
Definition vocabulary_size (int_songs : list Z) : Z :=
  Py.len (remove_dups int_songs).

(** A numpy array of integers: its shape and its elements in row-major
    order. *)
Record ndarray : Type := { shape : list Z; data : list Z }.

(** [np.array(inputs, dtype="int64")] for a list of lists of ints: rows of
    one length [w] make an array of shape [(n, w)], the empty list makes
    one of shape [(0,)], rows of different lengths raise [ValueError], and
    so does an int outside the 64-bit range with [OverflowError]. *)
Definition np_array (inputs : list (list Z)) : Py.result ndarray :=
  match inputs with
  | [] => Py.Ok {| shape := [0]; data := [] |}
  | row :: _ =>
      if negb (forallb (fun r => Py.len r =? Py.len row) inputs)
      then Py.Raise Py.ValueError
      else if negb (forallb (fun id => (- 2 ^ 63 <=? id) && (id <? 2 ^ 63))
                            (concat inputs))
      then Py.Raise Py.OverflowError
      else Py.Ok {| shape := [Py.len inputs; Py.len row]; data := concat inputs |}
  end.

(** One row of the one-hot array: a 1 in the column of the id, a
    negative id counting from the last column. *)
Definition one_hot_row (num_classes id : Z) : list Z :=
  map (fun c => if c =? (if id <? 0 then id + num_classes else id) then 1 else 0)
      (Py.range num_classes).

(** [keras.utils.to_categorical(inputs, num_classes)], as Keras defines it:
    the input is made an array and flattened, a last axis of length 1 is
    dropped from its shape, a [num_classes] of 0 (or [None]) is replaced by
    the largest id plus one, which raises [ValueError] on an empty array,
    each id selects a column of its row of zeros, an id that is not a
    valid column index raising [IndexError], and the result is reshaped
    to the input shape followed by [num_classes]. *)
Definition to_categorical (inputs : list (list Z)) (num_classes : Z)
  : Py.result ndarray :=
  let* x := np_array inputs in
  let input_shape := match shape x with
                     | [n; 1] => [n]
                     | s => s
                     end in
  let x := data x in
  let* num_classes :=
    if num_classes =? 0 then
      match x with
      | [] => Py.Raise Py.ValueError
      | id :: ids => Py.Ok (fold_right Z.max id ids + 1)
      end
    else Py.Ok num_classes in
  if num_classes <? 0 then Py.Raise Py.ValueError
  else if forallb (fun id => (- num_classes <=? id) && (id <? num_classes)) x
  then Py.Ok {| shape := input_shape ++ [num_classes];
                data := concat (map (one_hot_row num_classes) x) |}
  else Py.Raise Py.IndexError.

Definition generate_training_sequences `{Collaborators} (fs : filesystem)
    (sequence_length : Z) : Py.result (ndarray * list Z) :=
  let* dataset := load fs UNIVERSAL_DATASET in
  let* int_songs := convert_songs_to_int fs dataset in
  let* '(inputs, targets) := training_windows int_songs sequence_length in
  let* inputs := to_categorical inputs (vocabulary_size int_songs) in
  Py.Ok (inputs, targets).

(** * Reading an encoded song back                                        *)
(* ===================================================================== *)

(** Modelled from the spec: the decoder of the round-trip property, which
    the repository's preprocessing file does not contain. A token sequence
    is read back into (symbol, run-length) pairs: each token other than the
    hold token is an onset, and the run of hold tokens after it is its
    sustain. *)
Inductive symbol : Type :=
| Pitch (midi : Z)
| RestSymbol.

Definition symbol_of_event (e : event) : symbol :=
  match e with
  | Note midi _ => Pitch midi
  | Rest _ => RestSymbol
  end.

Definition parse_symbol (token : string) : option symbol :=
  if String.eqb token "r" then Some RestSymbol
  else option_map Pitch (Py.int_of_str token).

(** Modelled from the spec: one pass from the right, which returns the
    number of hold tokens that precede the first onset, and the runs from
    that onset on. *)
Fixpoint decode_go (tokens : list string) : option (Z * list (symbol * Z)) :=
  match tokens with
  | [] => Some (0, [])
  | token :: rest =>
      match decode_go rest with
      | None => None
      | Some (holds, runs) =>
          if String.eqb token "_" then Some (holds + 1, runs)
          else match parse_symbol token with
               | None => None
               | Some sym => Some (0, (sym, 1 + holds) :: runs)
               end
      end
  end.

(** Modelled from the spec: a sequence that starts with a hold token has no
    onset to attach it to and is not decoded. *)
Definition decode_runs (tokens : list string) : option (list (symbol * Z)) :=
  match decode_go tokens with
  | Some (0, runs) => Some runs
  | _ => None
  end.

Definition event_of_run (time_step : Q) (run : symbol * Z) : event :=
  let duration := (inject_Z (snd run) * time_step)%Q in
  match fst run with
  | Pitch midi => Note midi duration
  | RestSymbol => Rest duration
  end.

(** Modelled from the spec: the (pitch-or-rest, duration) list read back
    from an encoded song, a run of [k] tokens lasting [k] time steps. *)
Definition decode_song (encoded_song : string) (time_step : Q) : option (list event) :=
  option_map (map (event_of_run time_step)) (decode_runs (Py.split encoded_song)).

(** Two events are the same when they have the same symbol and durations
    that are equal as numbers. *)
Definition same_event (e1 e2 : event) : Prop :=
  symbol_of_event e1 = symbol_of_event e2 /\ (quarterLength e1 == quarterLength e2)%Q.

(* ===================================================================== *)
(** * Where the tokens of the corpus come from                            *)
(* ===================================================================== *)

(** A token of the corpus is a token of the [k]-th assembled score, or one
    of the delimiter tokens that follow a score. *)
Inductive origin : Type :=
| FromScore (k : nat)
| Delimiter.

Definition delimiter_token : string := "/".

Definition labelled_block (sequence_length : Z) (k : nat) (song : string)
  : list (origin * string) :=
  map (pair (FromScore k)) (Py.split song)
  ++ replicate (Z.to_nat sequence_length) (Delimiter, delimiter_token).

(** The tokens of the corpus assembled from [songs], each with its origin. *)
Fixpoint labelled_from (sequence_length : Z) (k : nat) (songs : list string)
  : list (origin * string) :=
  match songs with
  | [] => []
  | song :: rest =>
      labelled_block sequence_length k song
      ++ labelled_from sequence_length (S k) rest
  end.

Definition labelled_corpus (sequence_length : Z) (songs : list string)
  : list (origin * string) :=
  labelled_from sequence_length 0 songs.

(** The tokens that carry the label of the [k]-th score, in order. *)
Definition tokens_of_score (k : nat) (labelled : list (origin * string)) : list string :=
  omap (fun x => match fst x with
                 | FromScore j => if Nat.eqb j k then Some (snd x) else None
                 | Delimiter => None
                 end) labelled.

(** The number of delimiter tokens of a corpus. *)
Definition is_delimiter (token : string) : bool :=
  String.eqb token delimiter_token.

Definition delimiter_count (corpus : string) : Z :=
  Py.len (List.filter is_delimiter (Py.split corpus)).

(** What the assembler appends for one score: its content, a space, and
    the delimiter token followed by a space [sequence_length] times. *)
Definition score_block (sequence_length : Z) (song : string) : string :=
  (song +:+ " ") +:+ Py.mul_str (delimiter_token +:+ " ") sequence_length.

Definition assembled (sequence_length : Z) (songs : list string) : string :=
  fold_right (fun song acc => score_block sequence_length song +:+ acc) "" songs.

(** A file of [preprocess]: the encoding of some score. *)
Definition token_file (content : string) : Prop :=
  exists (song : score) (time_step : Q), encode_song song time_step = Py.Ok content.

(** The contents of the walked files, in the order of the walk. *)
Definition walked_contents `{Collaborators} (fs : filesystem) (songs_dir : string)
  : list string :=
  omap (fun p => fs !! p) (os_walk fs songs_dir).

(* ===================================================================== *)
(** * Loading, preprocessing and the whole run                            *)
(* ===================================================================== *)

Definition DATASET_PATH : string := "./usa".
Definition SONGS_DIR : string := "./preprocessed_data".

(** [os.path.join(a, b)] for two components (POSIX): an absolute [b]
    replaces [a]; otherwise one separator stands between them. *)
Definition starts_with_slash (s : string) : bool :=
  match s with
  | String c _ => Ascii.eqb c "/"
  | EmptyString => false
  end.

Fixpoint ends_with_slash (s : string) : bool :=
  match s with
  | EmptyString => false
  | String c EmptyString => Ascii.eqb c "/"
  | String _ s' => ends_with_slash s'
  end.

Definition os_path_join (a b : string) : string :=
  if starts_with_slash b then b
  else match a with
       | EmptyString => b
       | _ => if ends_with_slash a then a +:+ b else a +:+ "/" +:+ b
       end.

(** [file[-3:]]: the last three characters, or the whole name when it is
    shorter. *)
Definition last_three (file : string) : string :=
  let chars := list_ascii_of_string file in
  string_of_list_ascii (Py.slice chars (-3) (Py.len chars)).

(** What the pipeline takes from the operating system and from music21.
    - [walk_dirs dir]: the triples of [os.walk(dir)] in order, each as the
      pair of its directory path and its file names.
    - [isdir dir]: whether the directory [dir] exists; the pipeline
      creates no directory.
    - [parse]: [m21.converter.parse], which may raise.
    - [flatten]: the note and rest events of a parsed score in temporal
      order, which is what the filter and the encoder read of it.
    - [transpose]: the function [transpose] of the file, which is made of
      music21 calls only and may raise (no fifth element in the first
      measure, a mode that is neither major nor minor). *)
Class Music21 : Type := {
  m21score : Type;
  walk_dirs : string -> list (string * list string);
  isdir : string -> bool;
  parse : string -> Py.result m21score;
  flatten : m21score -> score;
  transpose : m21score -> Py.result m21score
}.

(** The inner loop of [load_dataset] over the files of one directory. *)
Fixpoint load_files `{Music21} (path : string) (files : list string)
    (songs_as_music21_scores : list m21score) : Py.result (list m21score) :=
  match files with
  | [] => Py.Ok songs_as_music21_scores
  | file :: rest =>
      if String.eqb (last_three file) "krn" then
        let* song_as_music21_score := parse (os_path_join path file) in
        load_files path rest (songs_as_music21_scores ++ [song_as_music21_score])
      else load_files path rest songs_as_music21_scores
  end.

(** The outer loop over the directories of the walk. *)
Fixpoint load_dirs `{Music21} (walk : list (string * list string))
    (songs_as_music21_scores : list m21score) : Py.result (list m21score) :=
  match walk with
  | [] => Py.Ok songs_as_music21_scores
  | (path, files) :: rest =>
      let* songs := load_files path files songs_as_music21_scores in
      load_dirs rest songs
  end.

Definition load_dataset `{Music21} (dataset_path : string)
  : Py.result (list m21score) :=
  load_dirs (walk_dirs dataset_path) [].

(** The loop of [preprocess] over [enumerate(songs)]: a song that the
    filter rejects is skipped ([continue]); the others are transposed,
    encoded with the default time step and written to [SONGS_DIR/str(i)].
    [open(save_path, "w")] creates the file in the directory [SONGS_DIR]
    and raises [FileNotFoundError] when that directory does not exist. *)
Fixpoint preprocess_loop `{Music21} (fs : filesystem) (songs : list (Z * m21score))
  : Py.result filesystem :=
  match songs with
  | [] => Py.Ok fs
  | (i, song) :: rest =>
      if negb (has_acceptable_note_durations (flatten song) ACCEPTABLE_DURATIONS)
      then preprocess_loop fs rest
      else
        let* transposed_song := transpose song in
        let* encoded_song := encode_song (flatten transposed_song) default_time_step in
        let save_path := os_path_join SONGS_DIR (Py.str_int i) in
        if isdir SONGS_DIR
        then preprocess_loop (write fs save_path encoded_song) rest
        else Py.Raise (Py.FileNotFoundError save_path)
  end.

Definition preprocess `{Music21} (fs : filesystem) (dataset_path : string)
  : Py.result filesystem :=
  let* songs_as_music21_scores := load_dataset dataset_path in
  preprocess_loop fs (enumerate songs_as_music21_scores).

(** The whole run; it returns nothing, so the embedding returns the file
    system it leaves. *)
Definition generate_model_ready_dataset `{Music21} `{Collaborators} (fs : filesystem)
  : Py.result filesystem :=
  let* fs := preprocess fs DATASET_PATH in
  let* '(songs, fs) := create_universal_dataset fs SONGS_DIR UNIVERSAL_DATASET
                                               SEQUENCE_LENGTH in
  let fs := create_mapping fs songs MAPPINGS_PATH in
  let* _ := convert_songs_to_int fs songs in
  let* '(inputs, targets) := generate_training_sequences fs SEQUENCE_LENGTH in
  Py.Ok fs.

(** A small instance of the interface for running examples: a parsed
    score is its list of events, the walk has one directory with three
    files, every directory exists, and the transposition moves every note
    up a tone. *)
Module SampleM21.

Definition sample_walk (dir : string) : list (string * list string) :=
  [(dir, ["a.krn"; "notes.txt"; "bkrn"])].

Definition sample_parse (path : string) : Py.result score :=
  if String.eqb (last_three path) "krn"
  then Py.Ok [Note 60 1; Rest (1 # 2); Note 62 (1 # 4)]
  else Py.Raise (Py.FileNotFoundError path).

Definition shift (e : event) : event :=
  match e with
  | Note midi d => Note (midi + 2) d
  | Rest d => Rest d
  end.

#[export] Instance music21 : Music21 := {|
  m21score := score;
  walk_dirs := sample_walk;
  isdir := fun _ => true;
  parse := sample_parse;
  flatten := fun song => song;
  transpose := fun song => Py.Ok (map shift song)
|}.

End SampleM21.

(** The files that [load_dataset] selects, as the paths it hands to the
    parser in order; and the parsing of a list of paths one after the
    other, which the two loops of [load_dataset] amount to. *)
Definition is_krn (file : string) : bool :=
  String.eqb (last_three file) "krn".

Definition krn_paths (walk : list (string * list string)) : list string :=
  concat (map (fun entry => map (os_path_join (fst entry))
                                (List.filter is_krn (snd entry))) walk).

Fixpoint parse_loop `{Music21} (songs : list m21score) (paths : list string)
  : Py.result (list m21score) :=
  match paths with
  | [] => Py.Ok songs
  | p :: rest =>
      let* song := parse p in
      parse_loop (songs ++ [song]) rest
  end.

(** The path of the file that [preprocess] writes for the song of index
    [i], and the songs that pass the filter of the pipeline. *)
Definition save_path (i : Z) : string := os_path_join SONGS_DIR (Py.str_int i).

Definition accepted `{Music21} (song : m21score) : Prop :=
  has_acceptable_note_durations (flatten song) ACCEPTABLE_DURATIONS = true.

(** The songs that [preprocess] can transpose and encode. *)
Definition processed `{Music21} (song : m21score) : Prop :=
  exists (transposed_song : m21score) (encoded_song : string),
    transpose song = Py.Ok transposed_song
    /\ encode_song (flatten transposed_song) default_time_step = Py.Ok encoded_song.

(* ===================================================================== *)
(** * Auxiliary notions used in the proofs                                *)
(* ===================================================================== *)

(** A string without white space. *)
Fixpoint no_space (s : string) : bool :=
  match s with
  | EmptyString => true
  | String c s' => negb (Py.is_space c) && no_space s'
  end.

(** A token: non-empty and without white space. *)
Definition clean (s : string) : Prop := s <> "" /\ no_space s = true.

(** A string that starts with a digit or a minus sign. *)
Definition starts_numeric (s : string) : bool :=
  match s with
  | String c _ =>
      let n := nat_of_ascii c in
      ((48 <=? n)%nat && (n <=? 57)%nat) || Ascii.eqb c "-"
  | EmptyString => false
  end.

(** Every token the encoder emits is printed as a clean token: a
    numeral, ["r"] or ["_"]. *)
Definition printed_token (t : string) : Prop :=
  t = "r" \/ t = "_" \/ exists n : Z, t = Py.str_int n.

(** One step of the dictionary comprehension, and the enumeration from
    an offset. *)
Definition store (d : gmap string Z) (entry : Z * string) : gmap string Z :=
  let '(index, symbol) := entry in <[symbol := index]> d.

Definition enumerate_from (s : nat) (l : list string) : list (Z * string) :=
  combine (map Z.of_nat (seq s (length l))) l.

(** The assembled string ends with a space as soon as there is a score. *)
Definition ends_with_space (s : string) : Prop := exists s', s = s' +:+ " ".


(* ===================================================================== *)
(** * A sample set of collaborators                                       *)
(* ===================================================================== *)

(** A small instance of the interface, on which the pipeline runs inside
    Rocq: the walk lists the files whose path starts with the directory,
    the set iterates in the order of first occurrence, and the table is
    stored as its tokens in the order of their ids. *)
Module Sample.

Definition walk (fs : filesystem) (dir : string) : list string :=
  List.filter (String.prefix (dir +:+ "/")) (map fst (map_to_list fs)).

Definition key_of (table : gmap string Z) (id : Z) : option string :=
  option_map fst (head (List.filter (fun kv => snd kv =? id) (map_to_list table))).

Definition table_dump (table : gmap string Z) : string :=
  Py.join " " (omap (key_of table) (Py.range (Z.of_nat (size table)))).

Definition table_load (content : string) : Py.result (gmap string Z) :=
  Py.Ok (dict_of_enumeration (Py.split content)).

#[export] Instance collaborators : Collaborators.
Proof.
  refine {| os_walk := walk;
            set_list := remove_dups;
            set_list_NoDup := NoDup_remove_dups;
            set_list_elem := elem_of_remove_dups;
            json_dump := table_dump;
            json_load := table_load;
            os_walk_exists := _ |}.
  intros fs dir p. unfold walk.
  rewrite list_elem_of_In, filter_In, <- list_elem_of_In.
  intros [Hp _]. apply list_elem_of_fmap in Hp as ([p' c] & -> & Hpc).
  apply elem_of_map_to_list in Hpc. by exists c.
Defined.

End Sample.

(* ===================================================================== *)
(** * Facts about the rounding to binary64                                *)
(* ===================================================================== *)

Module Binary64Facts.
Import Binary64.

Lemma pow2_pos (k : Z) : (0 < pow2 k)%Q.
Proof. unfold pow2. by apply Qpower_0_lt. Qed.

Lemma round_proper (p q : Q) : (p == q)%Q -> round p = round q.
Proof. intros E. unfold round. by rewrite (Qred_complete p q E). Qed.

Lemma representable_proper (p q : Q) :
  (p == q)%Q -> representable p = representable q.
Proof.
  intros E. unfold representable. rewrite (round_proper p q E).
  destruct (round q) as [f|]; [|done].
  destruct (Qeq_bool f p) eqn:E1, (Qeq_bool f q) eqn:E2; try done.
  - apply Qeq_bool_iff in E1. rewrite E in E1. apply Qeq_bool_iff in E1. congruence.
  - apply Qeq_bool_iff in E2. rewrite <- E in E2. apply Qeq_bool_iff in E2. congruence.
Qed.

Lemma representable_round (q : Q) :
  representable q = true -> exists f, round q = Some f /\ (f == q)%Q.
Proof.
  unfold representable. destruct (round q) as [f|]; [|done].
  intros E. exists f. split; [done|]. by apply Qeq_bool_iff.
Qed.

Lemma round_half_even_floor (x : Q) :
  round_half_even x = Qfloor x \/ round_half_even x = Qfloor x + 1.
Proof.
  unfold round_half_even.
  destruct (x - inject_Z (Qfloor x) ?= 1 # 2)%Q; [|by left|by right].
  destruct (Z.even (Qfloor x)); [by left|by right].
Qed.

Lemma round_half_even_ge (x : Q) (n : Z) :
  (inject_Z n <= x)%Q -> n <= round_half_even x.
Proof.
  intros Hn. apply Qfloor_resp_le in Hn. rewrite Qfloor_Z in Hn.
  destruct (round_half_even_floor x) as [-> | ->]; lia.
Qed.

Lemma round_half_even_le (x : Q) (n : Z) :
  (x <= inject_Z n)%Q -> round_half_even x <= n.
Proof.
  intros Hn. pose proof (Qfloor_resp_le _ _ Hn) as Hf. rewrite Qfloor_Z in Hf.
  destruct (Z.eq_dec (Qfloor x) n) as [E|NE].
  - unfold round_half_even.
    assert (x - inject_Z (Qfloor x) == 0)%Q as E0.
    { rewrite E. pose proof (Qfloor_le x) as Hle. rewrite E in Hle.
      assert (x == inject_Z n)%Q as -> by (by apply Qle_antisym). ring. }
    rewrite E0. simpl. lia.
  - destruct (round_half_even_floor x) as [-> | ->]; lia.
Qed.

Lemma round_half_even_Z (n : Z) : round_half_even (inject_Z n) = n.
Proof.
  apply Z.le_antisymm.
  - apply round_half_even_le, Qle_refl.
  - apply round_half_even_ge, Qle_refl.
Qed.

(** What [round] returns: zero for zero, and otherwise a whole number of
    units of the last place. *)
Lemma round_Some (q f : Q) :
  round q = Some f ->
  (q == 0 /\ f == 0)%Q
  \/ (~ (q == 0)%Q
      /\ (f == inject_Z (round_half_even (q / pow2 (exponent (Qred q))))
               * pow2 (exponent (Qred q)))%Q).
Proof.
  unfold round.
  pose proof (Qred_correct q) as Hred.
  destruct (Qeq_bool (Qred q) 0) eqn:E0.
  - intros [= <-]. left. apply Qeq_bool_iff in E0.
    split; [|reflexivity]. by transitivity (Qred q); [symmetry|].
  - destruct (Qle_bool _ _); [done|]. intros [= <-]. right. split.
    + intros E. apply Qeq_bool_neq in E0. apply E0. by transitivity q.
    + transitivity (inject_Z (round_half_even (Qred q / pow2 (exponent (Qred q))))
                    * pow2 (exponent (Qred q)))%Q; [apply Qred_correct|].
      assert (Qred q / pow2 (exponent (Qred q)) == q / pow2 (exponent (Qred q)))%Q as E.
      { apply Qmult_comp; [done|reflexivity]. }
      assert (round_half_even (Qred q / pow2 (exponent (Qred q)))
              = round_half_even (q / pow2 (exponent (Qred q)))) as ->; [|reflexivity].
      unfold round_half_even. rewrite (Qfloor_comp _ _ E).
      assert (Qred q / pow2 (exponent (Qred q))
                - inject_Z (Qfloor (q / pow2 (exponent (Qred q))))
              == q / pow2 (exponent (Qred q))
                - inject_Z (Qfloor (q / pow2 (exponent (Qred q)))))%Q as E'.
      { apply Qplus_comp; [done|reflexivity]. }
      by rewrite (Qcompare_comp _ _ E' (1 # 2) (1 # 2) (Qeq_refl _)).
Qed.

Lemma round_nonneg (q f : Q) : round q = Some f -> (0 <= q)%Q -> (0 <= f)%Q.
Proof.
  intros H Hq. destruct (round_Some q f H) as [[_ E]|[_ E]]; rewrite E.
  - apply Qle_refl.
  - apply Qmult_le_0_compat; [|apply Qlt_le_weak, pow2_pos].
    change 0%Q with (inject_Z 0). rewrite <- Zle_Qle.
    apply round_half_even_ge. apply Qle_shift_div_l; [apply pow2_pos|].
    by rewrite Qmult_0_l.
Qed.

Lemma round_nonpos (q f : Q) : round q = Some f -> (q <= 0)%Q -> (f <= 0)%Q.
Proof.
  intros H Hq. destruct (round_Some q f H) as [[_ E]|[_ E]]; rewrite E.
  - apply Qle_refl.
  - rewrite <- (Qmult_0_l (pow2 (exponent (Qred q)))).
    apply Qmult_le_compat_r; [|apply Qlt_le_weak, pow2_pos].
    change 0%Q with (inject_Z 0). rewrite <- Zle_Qle.
    apply round_half_even_le. apply Qle_shift_div_r; [apply pow2_pos|].
    by rewrite Qmult_0_l.
Qed.

(** The rounding agrees with the binary64 arithmetic of the kernel: on
    the conversions of 1/93, 1/5, 1/3 and 1/10 to float, on the quotients
    1.0 / float(1/93), float(1/5) / float(1/5), 0.3 / 0.1 and 1.0 / 0.2,
    and on the overflow of 1.0 / 5e-324. *)
Example round_agrees_with_kernel_floats :
  let kernel (n d : positive) := KernelFloat.value (KernelFloat.nearest n d) in
  let kernel_div (n1 d1 n2 d2 : positive) :=
    KernelFloat.value (KernelFloat.div (KernelFloat.nearest n1 d1)
                                       (KernelFloat.nearest n2 d2)) in
  let model_div (a b : Q) :=
    match round a, round b with
    | Some x, Some y => round (x / y)
    | _, _ => None
    end in
  round (1 # 93) = kernel 1%positive 93%positive
  /\ round (1 # 5) = kernel 1%positive 5%positive
  /\ round (1 # 3) = kernel 1%positive 3%positive
  /\ round (1 # 10) = kernel 1%positive 10%positive
  /\ model_div 1%Q (1 # 93) = kernel_div 1%positive 1%positive 1%positive 93%positive
  /\ model_div (1 # 5) (1 # 5) = kernel_div 1%positive 5%positive 1%positive 5%positive
  /\ model_div (3 # 10) (1 # 10)
     = kernel_div 3%positive 10%positive 1%positive 10%positive
  /\ model_div 1%Q (1 # 5) = kernel_div 1%positive 1%positive 1%positive 5%positive
  /\ model_div 1%Q (pow2 (-1074))
     = KernelFloat.value (KernelFloat.div (KernelFloat.nearest 1%positive 1%positive)
                                          KernelFloat.smallest).
Proof. repeat split; vm_compute; reflexivity. Qed.

End Binary64Facts.

(* ===================================================================== *)
(** * Facts about the Python primitives                                   *)
(* ===================================================================== *)

Module PyFacts.

Lemma str_app_nil_l (s : string) : "" +:+ s = s.
Proof. reflexivity. Qed.

Lemma str_app_cons (c : ascii) (s t : string) :
  String c s +:+ t = String c (s +:+ t).
Proof. reflexivity. Qed.

Lemma str_app_nil_r (s : string) : s +:+ "" = s.
Proof. induction s as [|c s IH]; [reflexivity|]. by rewrite str_app_cons, IH. Qed.

Lemma str_app_assoc (s t u : string) : (s +:+ t) +:+ u = s +:+ (t +:+ u).
Proof.
  induction s as [|c s IH]; [reflexivity|].
  by rewrite !str_app_cons, IH.
Qed.

Lemma split_go_no_space (t cur : string) :
  no_space t = true -> Py.split_go cur t = Py.flush (cur +:+ t).
Proof.
  revert cur. induction t as [|c t IH]; intros cur Ht; simpl in *.
  - by rewrite str_app_nil_r.
  - apply andb_prop in Ht as [Hc Ht].
    apply negb_true_iff in Hc. rewrite Hc, IH by done.
    by rewrite str_app_assoc.
Qed.

Lemma split_clean (t : string) : clean t -> Py.split t = [t].
Proof.
  intros [Hne Ht]. unfold Py.split. rewrite split_go_no_space by done.
  rewrite str_app_nil_l. by destruct t.
Qed.

(** Splitting distributes over a white-space character. *)
Lemma split_go_space (a : string) (c : ascii) (b cur : string) :
  Py.is_space c = true ->
  Py.split_go cur (a +:+ String c b) = Py.split_go cur a ++ Py.split b.
Proof.
  intros Hc. revert cur. induction a as [|x a IH]; intros cur.
  - rewrite str_app_nil_l. simpl. by rewrite Hc.
  - rewrite str_app_cons. simpl. destruct (Py.is_space x).
    + by rewrite IH, <- List.app_assoc.
    + apply IH.
Qed.

Lemma split_space (a b : string) :
  Py.split (a +:+ " " +:+ b) = Py.split a ++ Py.split b.
Proof. unfold Py.split at 1 2. by apply (split_go_space a " " b). Qed.

Lemma split_app_space_l (a b : string) :
  Py.split ((a +:+ " ") +:+ b) = Py.split a ++ Py.split b.
Proof. rewrite str_app_assoc. apply split_space. Qed.

Lemma split_empty : Py.split "" = [].
Proof. reflexivity. Qed.

(** Splitting a joined list of tokens gives the tokens back. *)
Lemma split_join (tokens : list string) :
  Forall clean tokens -> Py.split (Py.join " " tokens) = tokens.
Proof.
  induction 1 as [|t tokens Ht Hts IH]; [reflexivity|].
  destruct tokens as [|t' tokens].
  - by apply split_clean.
  - change (Py.join " " (t :: t' :: tokens))
      with (t +:+ " " +:+ Py.join " " (t' :: tokens)).
    rewrite split_space, IH. by rewrite split_clean.
Qed.

(** [s[:-1]] undoes the appending of one character. *)
Lemma drop_last_snoc (s : string) (c : ascii) :
  Py.drop_last (s +:+ String c "") = s.
Proof.
  induction s as [|x s IH]; [reflexivity|].
  rewrite str_app_cons. simpl. rewrite IH.
  destruct s; reflexivity.
Qed.

Lemma map_replicate {A B : Type} (f : A -> B) (n : nat) (x : A) :
  map f (replicate n x) = replicate n (f x).
Proof. induction n as [|n IH]; [reflexivity|]. simpl. by rewrite IH. Qed.

End PyFacts.

Module NumFacts.
Import PyFacts.

Lemma digits_no_space (d : Decimal.uint) :
  no_space (NilEmpty.string_of_uint d) = true.
Proof. induction d; simpl; auto. Qed.

Lemma uint_no_space (d : Decimal.uint) :
  no_space (NilZero.string_of_uint d) = true.
Proof. destruct d; try reflexivity; apply (digits_no_space (_ d)). Qed.

Lemma uint_starts_numeric (d : Decimal.uint) :
  starts_numeric (NilZero.string_of_uint d) = true.
Proof. destruct d; reflexivity. Qed.

Lemma str_int_no_space (n : Z) : no_space (Py.str_int n) = true.
Proof.
  unfold Py.str_int. destruct (Z.to_int n) as [d|d]; simpl.
  - apply uint_no_space.
  - apply uint_no_space.
Qed.

Lemma str_int_starts_numeric (n : Z) : starts_numeric (Py.str_int n) = true.
Proof.
  unfold Py.str_int. destruct (Z.to_int n) as [d|d]; simpl.
  - apply uint_starts_numeric.
  - reflexivity.
Qed.

Lemma str_int_clean (n : Z) : clean (Py.str_int n).
Proof.
  split; [|apply str_int_no_space].
  intros E. pose proof (str_int_starts_numeric n) as H.
  rewrite E in H. discriminate.
Qed.

Lemma str_int_neq (n : Z) (t : string) :
  starts_numeric t = false -> Py.str_int n <> t.
Proof.
  intros Ht E. pose proof (str_int_starts_numeric n) as H.
  rewrite E, Ht in H. discriminate.
Qed.

(** [int(str(n)) == n]. *)
Lemma int_of_str_str_int (n : Z) : Py.int_of_str (Py.str_int n) = Some n.
Proof.
  unfold Py.int_of_str, Py.str_int.
  rewrite NilZero.isi.
  - simpl. by rewrite DecimalZ.of_to.
  - destruct n; simpl; try discriminate.
    intros [= E]. by apply DecimalPos.Unsigned.to_uint_nonnil in E.
  - destruct n; simpl; try discriminate.
    intros [= E]. by apply DecimalPos.Unsigned.to_uint_nonnil in E.
Qed.

(** Truncation of a number that is an integer. *)
Lemma trunc_of_integer (q : Q) (k : Z) : (q == inject_Z k)%Q -> Py.trunc q = k.
Proof.
  unfold Qeq, Py.trunc. simpl. intros E.
  rewrite Z.mul_1_r in E. rewrite E. apply Z.quot_mul. done.
Qed.

Lemma trunc_nonneg (q : Q) : (0 <= q)%Q -> 0 <= Py.trunc q.
Proof.
  unfold Qle, Py.trunc. simpl. intros Hq.
  apply Z.quot_pos; lia.
Qed.

Lemma trunc_nonpos (q : Q) : (q <= 0)%Q -> Py.trunc q <= 0.
Proof.
  destruct q as [a b]. unfold Qle, Py.trunc. simpl. intros Ha.
  assert (a <= 0) as Ha' by lia.
  pose proof (Z.quot_pos (- a) (Z.pos b) ltac:(lia) ltac:(lia)) as Hq.
  rewrite Z.quot_opp_l in Hq by lia. lia.
Qed.


(** Truncation depends on the number only, not on the fraction that
    represents it. *)
Lemma trunc_proper (q1 q2 : Q) : (q1 == q2)%Q -> Py.trunc q1 = Py.trunc q2.
Proof.
  destruct q1 as [a b], q2 as [c d]. unfold Qeq, Py.trunc. simpl. intros E.
  rewrite <- (Z.quot_mul_cancel_r a (Z.pos b) (Z.pos d)) by done.
  rewrite <- (Z.quot_mul_cancel_r c (Z.pos d) (Z.pos b)) by done.
  rewrite E. f_equal. lia.
Qed.

(** Truncation of a number that is not negative is its floor. *)
Lemma trunc_floor (q : Q) :
  (0 <= q)%Q -> (inject_Z (Py.trunc q) <= q)%Q /\ (q < inject_Z (Py.trunc q) + 1)%Q.
Proof.
  destruct q as [a b]. unfold Qle, Qlt, Py.trunc. simpl. intros Ha.
  rewrite Z.quot_div_nonneg by lia.
  pose proof (Z.mul_div_le a (Z.pos b)) as Hle.
  pose proof (Z.mul_succ_div_gt a (Z.pos b)) as Hgt.
  split; [lia|]. rewrite Z.mul_1_r. lia.
Qed.

Lemma Qeq_bool_proper (a a' b b' : Q) :
  (a == a')%Q -> (b == b')%Q -> Qeq_bool a b = Qeq_bool a' b'.
Proof.
  intros Ea Eb.
  destruct (Qeq_bool a b) eqn:E1, (Qeq_bool a' b') eqn:E2; try done.
  - apply Qeq_bool_iff in E1. apply Qeq_bool_neq in E2. destruct E2.
    by rewrite <- Ea, <- Eb.
  - apply Qeq_bool_iff in E2. apply Qeq_bool_neq in E1. destruct E1.
    by rewrite Ea, Eb.
Qed.

Lemma is_float_proper (p q : Q) : (p == q)%Q -> Py.is_float p = Py.is_float q.
Proof. apply Binary64Facts.representable_proper. Qed.

Lemma float_proper (p q : Q) : (p == q)%Q -> Py.float p = Py.float q.
Proof. intros E. unfold Py.float. by rewrite (Binary64Facts.round_proper p q E). Qed.

(** A float converts to itself. *)
Lemma float_of_float (q : Q) :
  Py.is_float q = true -> exists f, Py.float q = Py.Ok f /\ (f == q)%Q.
Proof.
  intros Hq. destruct (Binary64Facts.representable_round q Hq) as (f & Hf & E).
  exists f. unfold Py.float. by rewrite Hf.
Qed.

Lemma is_float_0 (q : Q) : (q == 0)%Q -> Py.is_float q = true.
Proof. intros E. by rewrite (is_float_proper q 0 E). Qed.

(** [int(a / b)] depends on the numbers only. *)
Lemma int_truediv_proper (a a' b b' : Q) :
  (a == a')%Q -> (b == b')%Q ->
  (let* q := Py.truediv a b in Py.int q) = (let* q := Py.truediv a' b' in Py.int q).
Proof.
  intros Ea Eb. unfold Py.truediv.
  rewrite (is_float_proper a a' Ea), (is_float_proper b b' Eb).
  rewrite (float_proper a a' Ea), (float_proper b b' Eb).
  destruct (Py.is_float a' || Py.is_float b').
  - done.
  - rewrite (Qeq_bool_proper b b' 0 0 Eb (Qeq_refl 0)).
    destruct (Qeq_bool b' 0); [done|]. simpl. f_equal.
    apply trunc_proper. by rewrite Ea, Eb.
Qed.

(** The division by zero. *)
Lemma truediv_zero (a b : Q) :
  (b == 0)%Q ->
  Py.truediv a b = (let* _ := Py.float a in Py.Raise Py.ZeroDivisionError).
Proof.
  intros Hb. unfold Py.truediv.
  rewrite (is_float_0 b Hb), orb_true_r.
  destruct (Py.float a) as [x|err]; [|done]. simpl.
  destruct (float_of_float b (is_float_0 b Hb)) as (y & -> & Ey). simpl.
  assert (Qeq_bool y 0 = true) as ->; [|done].
  apply Qeq_bool_iff. by rewrite Ey.
Qed.

(** Two Fractions are divided exactly. *)
Lemma truediv_fractions (a b : Q) :
  Py.is_float a = false -> Py.is_float b = false ->
  Py.truediv a b = Py.Ok (Py.Finite (a / b)).
Proof.
  intros Ha Hb. unfold Py.truediv. rewrite Ha, Hb. simpl.
  destruct (Qeq_bool b 0) eqn:E; [|done].
  apply Qeq_bool_iff in E. apply is_float_0 in E. congruence.
Qed.

(** Floats whose quotient is a float are divided exactly. *)
Lemma truediv_floats (a b : Q) :
  Py.is_float a = true -> Py.is_float b = true -> Py.is_float (a / b) = true ->
  ~ (b == 0)%Q ->
  exists q, Py.truediv a b = Py.Ok (Py.Finite q) /\ (q == a / b)%Q.
Proof.
  intros Ha Hb Hq Hb0. unfold Py.truediv. rewrite Ha. simpl.
  destruct (float_of_float a Ha) as (x & -> & Ex).
  destruct (float_of_float b Hb) as (y & -> & Ey). simpl.
  assert (Qeq_bool y 0 = false) as ->.
  { apply not_true_is_false. intros E. apply Qeq_bool_iff in E.
    apply Hb0. by rewrite <- Ey. }
  assert (x / y == a / b)%Q as Exy by (by rewrite Ex, Ey).
  rewrite (Binary64Facts.round_proper _ _ Exy).
  destruct (Binary64Facts.representable_round _ Hq) as (f & -> & Ef).
  by exists f.
Qed.

(** The sign of a quotient. *)
Lemma truediv_nonneg (a b q : Q) :
  (0 <= a)%Q -> (0 < b)%Q -> Py.truediv a b = Py.Ok (Py.Finite q) -> (0 <= q)%Q.
Proof.
  intros Ha Hb. unfold Py.truediv.
  destruct (Py.is_float a || Py.is_float b).
  - unfold Py.float.
    destruct (Binary64.round a) as [x|] eqn:Hx; [|done].
    destruct (Binary64.round b) as [y|] eqn:Hy; [|done]. simpl.
    destruct (Qeq_bool y 0) eqn:Ey; [done|].
    destruct (Binary64.round (x / y)) as [f|] eqn:Hf; [|done].
    intros [= <-].
    pose proof (Binary64Facts.round_nonneg _ _ Hx Ha) as Hx0.
    pose proof (Binary64Facts.round_nonneg _ _ Hy (Qlt_le_weak _ _ Hb)) as Hy0.
    apply (Binary64Facts.round_nonneg _ _ Hf).
    apply Qeq_bool_neq in Ey.
    apply Qle_shift_div_l; [|by rewrite Qmult_0_l].
    apply Qle_lteq in Hy0 as [Hy0|Hy0]; [done|]. destruct Ey. by symmetry.
  - destruct (Qeq_bool b 0); [done|]. intros [= <-].
    apply Qle_shift_div_l; [done|]. by rewrite Qmult_0_l.
Qed.

Lemma truediv_nonpos (a b q : Q) :
  (0 <= a)%Q -> (b < 0)%Q -> Py.truediv a b = Py.Ok (Py.Finite q) -> (q <= 0)%Q.
Proof.
  intros Ha Hb.
  assert (forall x y : Q, (0 <= x)%Q -> (y < 0)%Q -> (x / y <= 0)%Q) as Hdiv.
  { intros x y Hx Hy.
    assert (x / y == - (x / - y))%Q as ->.
    { field. intros E. rewrite E in Hy. by apply Qlt_irrefl in Hy. }
    assert (0 < - y)%Q as Hy'.
    { apply (Qplus_lt_l _ _ y). by ring_simplify. }
    assert (0 <= x / - y)%Q as H0.
    { apply Qle_shift_div_l; [done|]. by rewrite Qmult_0_l. }
    apply (Qplus_le_l _ _ (x / - y)). by ring_simplify. }
  unfold Py.truediv.
  destruct (Py.is_float a || Py.is_float b).
  - unfold Py.float.
    destruct (Binary64.round a) as [x|] eqn:Hx; [|done].
    destruct (Binary64.round b) as [y|] eqn:Hy; [|done]. simpl.
    destruct (Qeq_bool y 0) eqn:Ey; [done|].
    destruct (Binary64.round (x / y)) as [f|] eqn:Hf; [|done].
    intros [= <-].
    pose proof (Binary64Facts.round_nonneg _ _ Hx Ha) as Hx0.
    pose proof (Binary64Facts.round_nonpos _ _ Hy (Qlt_le_weak _ _ Hb)) as Hy0.
    apply (Binary64Facts.round_nonpos _ _ Hf).
    apply Qeq_bool_neq in Ey.
    apply Hdiv; [done|].
    apply Qle_lteq in Hy0 as [Hy0|Hy0]; [done|]. by destruct Ey.
  - destruct (Qeq_bool b 0); [done|]. intros [= <-]. by apply Hdiv.
Qed.

Lemma length_range (n : Z) : length (Py.range n) = Z.to_nat n.
Proof. unfold Py.range. by rewrite length_map, length_seq. Qed.

End NumFacts.

(* ===================================================================== *)
(** * The time-series encoder                                             *)
(* ===================================================================== *)

Module EncoderFacts.
Import PyFacts NumFacts.

Lemma step_count_steps (e : event) (time_step : Q) (k : Z) :
  step_count e time_step = Py.Ok k -> steps e time_step = k.
Proof. unfold steps. by intros ->. Qed.

Lemma counted_steps (e : event) (time_step : Q) :
  counted time_step e -> step_count e time_step = Py.Ok (steps e time_step).
Proof. intros [k Hk]. by rewrite (step_count_steps e time_step k Hk). Qed.

(** One turn of the outer loop, in terms of the step count. *)
Lemma encode_events_cons (e : event) (events : list event) (time_step : Q)
    (acc : list pyval) :
  encode_events (e :: events) time_step acc
  = (let* k := step_count e time_step in
     encode_events events time_step (acc ++ emit_steps (encoding_symbol e) k)).
Proof.
  simpl. unfold step_count.
  by destruct (Py.truediv (quarterLength e) time_step) as [q|err].
Qed.

Lemma encode_events_ok (events : list event) (time_step : Q) (acc : list pyval) :
  Forall (counted time_step) events ->
  encode_events events time_step acc
  = Py.Ok (acc ++ concat (map (event_tokens time_step) events)).
Proof.
  intros Hev. revert acc.
  induction Hev as [|e events He Hev IH]; intros acc.
  - simpl. by rewrite app_nil_r.
  - rewrite encode_events_cons, (counted_steps e time_step He). simpl.
    rewrite IH. by rewrite <- List.app_assoc.
Qed.

Lemma encode_events_counted (events : list event) (time_step : Q)
    (acc tokens : list pyval) :
  encode_events events time_step acc = Py.Ok tokens ->
  Forall (counted time_step) events.
Proof.
  revert acc. induction events as [|e events IH]; intros acc; [by constructor|].
  rewrite encode_events_cons.
  destruct (step_count e time_step) as [k|err] eqn:Hk; [|done]. simpl.
  intros Hrest. constructor; [by exists k|by eapply IH].
Qed.

(** The loop stops at the first event whose step count raises. *)
Lemma encode_events_raise (pre post : list event) (e : event) (time_step : Q)
    (acc : list pyval) (err : Py.error) :
  Forall (counted time_step) pre ->
  step_count e time_step = Py.Raise err ->
  encode_events (pre ++ e :: post) time_step acc = Py.Raise err.
Proof.
  intros Hpre He. revert acc.
  induction Hpre as [|e' pre He' Hpre IH]; intros acc.
  - cbn [app]. by rewrite encode_events_cons, He.
  - cbn [app]. rewrite encode_events_cons, (counted_steps e' time_step He'). simpl.
    apply IH.
Qed.

(** Either every step count is computed, or there is a first one that
    raises. *)
Lemma counted_or_raise (song : score) (time_step : Q) :
  Forall (counted time_step) song
  \/ exists pre e post err,
       song = pre ++ e :: post /\ Forall (counted time_step) pre
       /\ step_count e time_step = Py.Raise err.
Proof.
  induction song as [|e song IH]; [left; constructor|].
  destruct (step_count e time_step) as [k|err] eqn:Hk.
  - destruct IH as [IH|(pre & e' & post & err & -> & Hpre & He')].
    + left. constructor; [by exists k|done].
    + right. exists (e :: pre), e', post, err.
      split; [done|]. split; [|done]. constructor; [by exists k|done].
  - right. by exists [], e, song, err.
Qed.

Lemma encoded_tokens_ok (song : score) (time_step : Q) :
  Forall (counted time_step) song ->
  encoded_tokens song time_step
  = Py.Ok (concat (map (event_tokens time_step) song)).
Proof. intros Hts. unfold encoded_tokens. by rewrite encode_events_ok. Qed.

Lemma encode_song_ok (song : score) (time_step : Q) :
  Forall (counted time_step) song ->
  encode_song song time_step
  = Py.Ok (Py.join " " (map py_str (concat (map (event_tokens time_step) song)))).
Proof. intros Hts. unfold encode_song. by rewrite encoded_tokens_ok. Qed.

Lemma encode_song_counted (song : score) (time_step : Q) (encoded_song : string) :
  encode_song song time_step = Py.Ok encoded_song ->
  Forall (counted time_step) song.
Proof.
  unfold encode_song, encoded_tokens.
  destruct (encode_events _ _ _) as [tokens|err] eqn:E; [|done].
  intros _. by eapply encode_events_counted.
Qed.

Lemma encode_song_raise (pre post : list event) (e : event) (time_step : Q)
    (err : Py.error) :
  Forall (counted time_step) pre ->
  step_count e time_step = Py.Raise err ->
  encode_song (pre ++ e :: post) time_step = Py.Raise err.
Proof.
  intros Hpre He. unfold encode_song, encoded_tokens, notesAndRests.
  by rewrite (encode_events_raise pre post e time_step [] err Hpre He).
Qed.

(** The sum of the step counts raises what the encoder raises. *)
Lemma total_steps_ok (song : score) (time_step : Q) :
  Forall (counted time_step) song ->
  total_steps song time_step = Py.Ok (sum_steps song time_step).
Proof.
  induction 1 as [|e song He Hsong IH]; [done|].
  simpl. by rewrite (counted_steps e time_step He), IH.
Qed.

Lemma total_steps_raise (pre post : list event) (e : event) (time_step : Q)
    (err : Py.error) :
  Forall (counted time_step) pre ->
  step_count e time_step = Py.Raise err ->
  total_steps (pre ++ e :: post) time_step = Py.Raise err.
Proof.
  intros Hpre He. induction Hpre as [|e' pre He' Hpre IH].
  - simpl. by rewrite He.
  - cbn [app total_steps]. by rewrite (counted_steps e' time_step He'), IH.
Qed.

Lemma length_emit_steps (sym : pyval) (n : Z) :
  length (emit_steps sym n) = Z.to_nat n.
Proof. unfold emit_steps. by rewrite length_map, length_range. Qed.

Lemma emit_steps_pos (sym : pyval) (k : Z) :
  1 <= k -> emit_steps sym k = sym :: repeat (PyStr "_") (Z.to_nat (k - 1)).
Proof.
  intros Hk. unfold emit_steps, Py.range.
  replace (Z.to_nat k) with (S (Z.to_nat (k - 1))) by lia.
  cbn [seq map]. f_equal.
  generalize (Z.to_nat (k - 1)) as n. generalize 0%nat as s.
  intros s n. revert s. induction n as [|n IH]; intros s; [reflexivity|].
  cbn [seq map repeat]. rewrite IH.
  by destruct (Z.eqb_spec (Z.of_nat (S s)) 0); [lia|].
Qed.

Lemma emit_steps_nonpos (sym : pyval) (k : Z) : k <= 0 -> emit_steps sym k = [].
Proof.
  intros Hk. unfold emit_steps, Py.range.
  by replace (Z.to_nat k) with 0%nat by lia.
Qed.

Lemma printed_token_clean (t : string) : printed_token t -> clean t.
Proof.
  intros [->|[->|[n ->]]]; [by split|by split|apply str_int_clean].
Qed.

Lemma printed_token_not_delimiter (t : string) :
  printed_token t -> t <> delimiter_token.
Proof.
  intros [->|[->|[n ->]]]; [done|done|]. by apply str_int_neq.
Qed.

Lemma emit_steps_printed (e : event) (n : Z) :
  Forall printed_token (map py_str (emit_steps (encoding_symbol e) n)).
Proof.
  unfold emit_steps. rewrite Forall_map. apply Forall_map, Forall_forall.
  intros step _. destruct (step =? 0).
  - destruct e; simpl; [right; right; eauto | by left].
  - right; by left.
Qed.

Lemma song_tokens_printed (song : score) (time_step : Q) :
  Forall printed_token (map py_str (concat (map (event_tokens time_step) song))).
Proof.
  induction song as [|e song IH]; simpl; [constructor|].
  rewrite map_app. apply Forall_app. split; [apply emit_steps_printed|done].
Qed.

Lemma split_encoded (song : score) (time_step : Q) :
  Py.split (Py.join " " (map py_str (concat (map (event_tokens time_step) song))))
  = map py_str (concat (map (event_tokens time_step) song)).
Proof.
  apply split_join. eapply Forall_impl; [apply song_tokens_printed|].
  apply printed_token_clean.
Qed.

(** What [int] returns is the truncation of a finite quotient. *)
Lemma step_count_Ok (e : event) (time_step : Q) (k : Z) :
  step_count e time_step = Py.Ok k ->
  exists q, Py.truediv (quarterLength e) time_step = Py.Ok (Py.Finite q)
            /\ k = Py.trunc q.
Proof.
  unfold step_count.
  destruct (Py.truediv _ _) as [[q|]|err]; simpl; [|done|done].
  intros [= <-]. by exists q.
Qed.

Lemma step_count_nonneg (e : event) (time_step : Q) :
  (0 < time_step)%Q -> (0 <= quarterLength e)%Q -> 0 <= steps e time_step.
Proof.
  intros Hts He. unfold steps.
  destruct (step_count e time_step) as [k|err] eqn:Hk; [|done].
  apply step_count_Ok in Hk as (q & Hq & ->).
  apply trunc_nonneg. by eapply truediv_nonneg.
Qed.

Lemma step_count_nonpos (e : event) (time_step : Q) :
  (time_step < 0)%Q -> (0 <= quarterLength e)%Q -> steps e time_step <= 0.
Proof.
  intros Hts He. unfold steps.
  destruct (step_count e time_step) as [k|err] eqn:Hk; [|done].
  apply step_count_Ok in Hk as (q & Hq & ->).
  apply trunc_nonpos. by eapply truediv_nonpos.
Qed.

(** With an exact quotient the step count is the truncation of the
    quotient of the two numbers. *)
Lemma step_count_exact (e : event) (time_step : Q) :
  exact_quotient (quarterLength e) time_step ->
  step_count e time_step = Py.Ok (Py.trunc (quarterLength e / time_step)).
Proof.
  intros (q & Hq & E). unfold step_count. rewrite Hq. simpl.
  by rewrite (trunc_proper _ _ E).
Qed.

Lemma exact_quotient_nonzero (a b : Q) : exact_quotient a b -> ~ (b == 0)%Q.
Proof.
  intros (q & Hq & _) Hb. rewrite (truediv_zero a b Hb) in Hq.
  by destruct (Py.float a).
Qed.

Lemma step_count_multiple (e : event) (time_step : Q) (k : Z) :
  exact_quotient (quarterLength e) time_step ->
  (quarterLength e == inject_Z k * time_step)%Q ->
  step_count e time_step = Py.Ok k.
Proof.
  intros Hex He. rewrite (step_count_exact e time_step Hex). f_equal.
  apply trunc_of_integer. rewrite He.
  apply Qdiv_mult_l. by eapply exact_quotient_nonzero.
Qed.


Lemma len_tokens (song : score) (time_step : Q) :
  (0 < time_step)%Q -> Forall (fun e => (0 <= quarterLength e)%Q) song ->
  Py.len (concat (map (event_tokens time_step) song)) = sum_steps song time_step.
Proof.
  intros Hts. unfold Py.len. induction 1 as [|e song He Hsong IH]; [reflexivity|].
  simpl. rewrite length_app, Nat2Z.inj_add, IH.
  unfold event_tokens. rewrite length_emit_steps.
  pose proof (step_count_nonneg e time_step Hts He). lia.
Qed.

Lemma step_count_proper (e1 e2 : event) (ts1 ts2 : Q) :
  (quarterLength e1 == quarterLength e2)%Q -> (ts1 == ts2)%Q ->
  step_count e1 ts1 = step_count e2 ts2.
Proof. intros Hd Hts. unfold step_count. by apply int_truediv_proper. Qed.

Lemma encode_events_proper (events1 events2 : list event) (ts1 ts2 : Q)
    (acc : list pyval) :
  Forall2 same_number_event events1 events2 -> (ts1 == ts2)%Q ->
  encode_events events1 ts1 acc = encode_events events2 ts2 acc.
Proof.
  intros Hev Hts. revert acc.
  induction Hev as [|e1 e2 events1 events2 [Hsym Hd] Hev IH]; intros acc; [done|].
  rewrite !encode_events_cons, (step_count_proper e1 e2 ts1 ts2 Hd Hts), Hsym.
  destruct (step_count e2 ts2) as [k|err]; [|done]. simpl. apply IH.
Qed.

End EncoderFacts.

(* ===================================================================== *)
(** * Reading an encoded song back: facts                                 *)
(* ===================================================================== *)

Module DecoderFacts.
Import PyFacts NumFacts EncoderFacts.

Lemma parse_symbol_printed (e : event) :
  parse_symbol (py_str (encoding_symbol e)) = Some (symbol_of_event e).
Proof.
  destruct e as [midi d|d]; [|reflexivity].
  unfold parse_symbol. simpl.
  destruct (String.eqb_spec (Py.str_int midi) "r") as [E|_].
  - by apply str_int_neq in E.
  - by rewrite int_of_str_str_int.
Qed.

Lemma symbol_not_hold (e : event) :
  String.eqb (py_str (encoding_symbol e)) "_" = false.
Proof.
  destruct e as [midi d|d]; [|reflexivity]. simpl.
  destruct (String.eqb_spec (Py.str_int midi) "_") as [E|_]; [|done].
  by apply str_int_neq in E.
Qed.

Lemma decode_go_holds (m : nat) (rest : list string) (holds : Z)
    (runs : list (symbol * Z)) :
  decode_go rest = Some (holds, runs) ->
  decode_go (repeat "_" m ++ rest) = Some (holds + Z.of_nat m, runs).
Proof.
  intros Hrest. induction m as [|m IH]; simpl.
  - rewrite Hrest. do 2 f_equal. lia.
  - rewrite IH. do 2 f_equal. lia.
Qed.

Lemma decode_go_song (song : score) (time_step : Q) :
  Forall (fun e => 1 <= steps e time_step) song ->
  decode_go (map py_str (concat (map (event_tokens time_step) song)))
  = Some (0, map (fun e => (symbol_of_event e, steps e time_step)) song).
Proof.
  induction 1 as [|e song He Hsong IH]; [reflexivity|].
  cbn [map concat]. unfold event_tokens at 1.
  rewrite emit_steps_pos by done.
  rewrite map_app. cbn [map app].
  rewrite map_repeat. cbn [py_str decode_go].
  rewrite (decode_go_holds _ _ _ _ IH).
  rewrite symbol_not_hold, parse_symbol_printed.
  do 4 f_equal. lia.
Qed.

End DecoderFacts.

(* ===================================================================== *)
(** * The vocabulary and the integer encoding                             *)
(* ===================================================================== *)

Module VocabularyFacts.

Lemma enumerate_from_0 (l : list string) : enumerate l = enumerate_from 0 l.
Proof.
  unfold enumerate, enumerate_from, Py.range, Py.len. by rewrite Nat2Z.id.
Qed.

Lemma dict_of_enumeration_fold (l : list string) :
  dict_of_enumeration l = fold_left store (enumerate_from 0 l) ∅.
Proof. unfold dict_of_enumeration. by rewrite enumerate_from_0. Qed.

(** A symbol that is not enumerated keeps its entry. *)
Lemma fold_store_other (l : list string) (s : nat) (d : gmap string Z) (t : string) :
  t ∉ l -> fold_left store (enumerate_from s l) d !! t = d !! t.
Proof.
  revert s d. induction l as [|x l IH]; intros s d Ht; [done|].
  apply not_elem_of_cons in Ht as [Hne Ht].
  change (enumerate_from s (x :: l))
    with ((Z.of_nat s, x) :: enumerate_from (S s) l).
  cbn [fold_left store]. rewrite IH by done.
  by rewrite lookup_insert_ne.
Qed.

(** In an enumeration without repetition, the symbol at position [j]
    gets the index [s + j]. *)
Lemma fold_store_at (l : list string) (s : nat) (d : gmap string Z)
    (j : nat) (t : string) :
  NoDup l -> l !! j = Some t ->
  fold_left store (enumerate_from s l) d !! t = Some (Z.of_nat (s + j)).
Proof.
  intros Hnd. revert s d j.
  induction Hnd as [|x l Hx Hnd IH]; intros s d j Hj; [done|].
  change (enumerate_from s (x :: l))
    with ((Z.of_nat s, x) :: enumerate_from (S s) l).
  cbn [fold_left store]. destruct j as [|j]; simpl in Hj.
  - injection Hj as ->. rewrite fold_store_other by done.
    rewrite lookup_insert_eq. do 2 f_equal. lia.
  - rewrite (IH _ _ j) by done. do 2 f_equal. lia.
Qed.

Lemma dict_of_enumeration_lookup (v : list string) (t : string) (i : Z) :
  NoDup v ->
  dict_of_enumeration v !! t = Some i <-> 0 <= i /\ v !! Z.to_nat i = Some t.
Proof.
  intros Hnd. rewrite dict_of_enumeration_fold. split.
  - intros Hi. destruct (decide (t ∈ v)) as [Hin|Hout].
    + apply list_elem_of_lookup in Hin as [j Hj].
      rewrite (fold_store_at v 0 ∅ j t Hnd Hj) in Hi.
      injection Hi as <-. rewrite Nat2Z.id. split; [lia|done].
    + by rewrite fold_store_other, lookup_empty in Hi.
  - intros [H0 Hi]. rewrite (fold_store_at v 0 ∅ _ t Hnd Hi).
    f_equal. lia.
Qed.

(** The loop of [convert_songs_to_int]. *)
Lemma map_to_int_ok (m : gmap string Z) (tokens : list string) (ids : list Z) :
  map_to_int m tokens = Py.Ok ids
  <-> Forall2 (fun t id => m !! t = Some id) tokens ids.
Proof.
  revert ids. induction tokens as [|t tokens IH]; intros ids; simpl.
  - split.
    + intros [= <-]. constructor.
    + intros Hf. by apply Forall2_nil_inv_l in Hf as ->.
  - destruct (m !! t) as [id|] eqn:Ht.
    + destruct (map_to_int m tokens) as [ids'|e] eqn:Hrest; simpl.
      * split.
        -- intros [= <-]. constructor; [done|]. by apply IH.
        -- intros Hf. apply Forall2_cons_inv_l in Hf as (id' & ids'' & Hid & Hf & ->).
           apply IH in Hf. congruence.
      * split; [done|].
        intros Hf. apply Forall2_cons_inv_l in Hf as (id' & ids'' & Hid & Hf & ->).
        by apply IH in Hf.
    + split; [done|].
      intros Hf. apply Forall2_cons_inv_l in Hf as (id' & ids'' & Hid & Hf & ->).
      congruence.
Qed.

Lemma map_to_int_succeeds (m : gmap string Z) (tokens : list string) :
  (exists ids, map_to_int m tokens = Py.Ok ids)
  <-> (forall t, t ∈ tokens -> is_Some (m !! t)).
Proof.
  induction tokens as [|t tokens IH]; simpl.
  - split; [|by eauto]. intros _ t Ht. by apply elem_of_nil in Ht.
  - split.
    + intros [ids Hids] x Hx.
      destruct (m !! t) as [id|] eqn:Ht; [|done].
      destruct (map_to_int m tokens) as [ids'|e] eqn:Hrest; [|done].
      apply elem_of_cons in Hx as [->|Hx]; [by rewrite Ht|].
      apply IH; eauto.
    + intros Hall. destruct (Hall t) as [id ->]; [by left|].
      destruct IH as [_ [ids ->]].
      * intros x Hx. apply Hall. by right.
      * simpl. eauto.
Qed.

Lemma map_to_int_missing (m : gmap string Z) (pre : list string) (t : string)
    (post : list string) :
  (forall x, x ∈ pre -> is_Some (m !! x)) -> m !! t = None ->
  map_to_int m (pre ++ t :: post) = Py.Raise (Py.KeyError t).
Proof.
  intros Hpre Ht. induction pre as [|x pre IH]; simpl.
  - by rewrite Ht.
  - destruct (Hpre x) as [id ->]; [by left|].
    rewrite IH; [done|]. intros y Hy. apply Hpre. by right.
Qed.

End VocabularyFacts.

(* ===================================================================== *)
(** * The sequence generator                                              *)
(* ===================================================================== *)

Module WindowFacts.
Import NumFacts.

(** A slice with non-negative bounds [i] and [i + w]. *)
Lemma slice_window {A : Type} (l : list A) (i w : Z) :
  0 <= i -> 0 <= w ->
  Py.slice l i (i + w) = take (Z.to_nat w) (drop (Z.to_nat i) l).
Proof.
  intros Hi Hw. unfold Py.slice, Py.clamp, Py.len.
  destruct (Z.ltb_spec i 0) as [?|_]; [lia|].
  destruct (Z.ltb_spec (i + w) 0) as [?|_]; [lia|].
  destruct (Z_le_gt_dec i (Z.of_nat (length l))) as [Hle|Hgt].
  - replace (Z.to_nat (i `min` Z.of_nat (length l))) with (Z.to_nat i) by lia.
    destruct (Z_le_gt_dec (i + w) (Z.of_nat (length l))) as [Hle'|Hgt'].
    + f_equal. lia.
    + rewrite !take_ge; [done| |]; rewrite length_drop; lia.
  - rewrite !drop_ge by lia. by rewrite !take_nil.
Qed.

Lemma length_slice_window {A : Type} (l : list A) (i w : Z) :
  0 <= i -> 0 <= w -> i + w <= Py.len l -> Py.len (Py.slice l i (i + w)) = w.
Proof.
  unfold Py.len. intros Hi Hw Hlen. rewrite slice_window by done.
  rewrite length_take_le; [lia|]. rewrite length_drop. lia.
Qed.

Lemma getitem_lookup {A : Type} (l : list A) (k : Z) (x : A) :
  0 <= k -> l !! Z.to_nat k = Some x -> Py.getitem l k = Py.Ok x.
Proof.
  intros Hk Hx. unfold Py.getitem. cbv zeta.
  assert ((k <? 0) = false) as E by lia.
  rewrite E. rewrite E. by rewrite Hx.
Qed.

(** The windowing loop over the indices [s, s+1, ..., s+n-1], all of
    which leave room for a window and its target. *)
Lemma windows_loop_ok (int_songs : list Z) (W : Z) (n s : nat)
    (inputs : list (list Z)) (targets : list Z) :
  0 <= W -> ((0 < n)%nat -> Z.of_nat (s + n) + W <= Py.len int_songs) ->
  exists new_targets,
    windows_loop int_songs W (map Z.of_nat (seq s n)) inputs targets
    = Py.Ok (inputs ++ map (fun i => Py.slice int_songs i (i + W))
                           (map Z.of_nat (seq s n)),
             targets ++ new_targets)
    /\ Forall2 (fun i t => int_songs !! Z.to_nat (i + W) = Some t)
               (map Z.of_nat (seq s n)) new_targets.
Proof.
  intros HW. unfold Py.len. revert s inputs targets.
  induction n as [|n IH]; intros s inputs targets Hlen.
  - exists []. simpl. rewrite !app_nil_r. split; [done|constructor].
  - cbn [seq map windows_loop].
    destruct (lookup_lt_is_Some_2 int_songs (Z.to_nat (Z.of_nat s + W)))
      as [t Ht]; [lia|].
    rewrite (getitem_lookup _ _ t); [|lia|done]. simpl.
    destruct (IH (S s) (inputs ++ [Py.slice int_songs (Z.of_nat s) (Z.of_nat s + W)])
                (targets ++ [t])) as (ts & -> & Hts); [lia|].
    exists (t :: ts). rewrite <- !List.app_assoc. simpl.
    split; [done|]. by constructor.
Qed.

Lemma lookup_range (n i : Z) :
  0 <= i < n -> Py.range n !! Z.to_nat i = Some i.
Proof.
  intros Hi. unfold Py.range. rewrite list_lookup_fmap.
  rewrite (proj2 (lookup_seq 0 (Z.to_nat n) (Z.to_nat i) (Z.to_nat i))) by lia.
  simpl. f_equal. lia.
Qed.

End WindowFacts.

(* ===================================================================== *)
(** * The corpus assembler                                                *)
(* ===================================================================== *)

Module AssemblerFacts.
Import PyFacts NumFacts EncoderFacts.

Lemma assemble_loop_ok (fs : filesystem) (paths contents : list string)
    (delimiter acc : string) :
  Forall2 (fun p c => fs !! p = Some c) paths contents ->
  assemble_loop fs paths delimiter acc
  = Py.Ok (acc +:+ fold_right (fun c r => ((c +:+ " ") +:+ delimiter) +:+ r)
                              "" contents).
Proof.
  intros Hfiles. revert acc.
  induction Hfiles as [|p c paths contents Hp Hfiles IH]; intros acc; simpl.
  - by rewrite str_app_nil_r.
  - unfold load. rewrite Hp. simpl. rewrite IH. f_equal.
    by rewrite !str_app_assoc.
Qed.

Lemma omap_lookup_all (fs : filesystem) (paths : list string) :
  (forall p, p ∈ paths -> is_Some (fs !! p)) ->
  Forall2 (fun p c => fs !! p = Some c) paths (omap (fun p => fs !! p) paths).
Proof.
  induction paths as [|p paths IH]; intros Hall; simpl; [constructor|].
  destruct (Hall p) as [c Hc]; [by left|]. rewrite Hc.
  constructor; [done|]. apply IH. intros q Hq. apply Hall. by right.
Qed.

Lemma walked_all `{Collaborators} (fs : filesystem) (songs_dir : string) :
  Forall2 (fun p c => fs !! p = Some c)
          (os_walk fs songs_dir) (walked_contents fs songs_dir).
Proof. apply omap_lookup_all. intros p. apply os_walk_exists. Qed.

(** The delimiter block, token by token. *)
Lemma split_delimiters (n : nat) (rest : string) :
  Py.split (Py.repeat_string (delimiter_token +:+ " ") n +:+ rest)
  = replicate n delimiter_token ++ Py.split rest.
Proof.
  induction n as [|n IH]; [reflexivity|].
  cbn [Py.repeat_string replicate]. rewrite !str_app_assoc.
  rewrite split_space, IH. reflexivity.
Qed.

Lemma split_score_block (n : Z) (song rest : string) :
  Py.split (score_block n song +:+ rest)
  = Py.split song ++ replicate (Z.to_nat n) delimiter_token ++ Py.split rest.
Proof.
  unfold score_block, Py.mul_str. rewrite !str_app_assoc.
  by rewrite split_space, split_delimiters.
Qed.

Lemma split_assembled (n : Z) (songs : list string) :
  Py.split (assembled n songs) = map snd (labelled_corpus n songs).
Proof.
  unfold labelled_corpus. generalize 0%nat as k.
  induction songs as [|song songs IH]; intros k; [reflexivity|].
  cbn [assembled fold_right labelled_from].
  change (fold_right _ "" songs) with (assembled n songs).
  rewrite split_score_block, (IH (S k)). unfold labelled_block.
  rewrite !map_app, map_map. cbn [snd]. rewrite map_id.
  rewrite map_replicate. cbn [snd].
  by rewrite <- List.app_assoc.
Qed.

Lemma ends_with_space_app (a b : string) :
  ends_with_space b -> ends_with_space (a +:+ b).
Proof. intros [b' ->]. exists (a +:+ b'). by rewrite str_app_assoc. Qed.

Lemma ends_with_space_delimiters (n : nat) :
  ends_with_space (Py.repeat_string (delimiter_token +:+ " ") (S n)).
Proof.
  induction n as [|n IH].
  - by exists delimiter_token.
  - change (Py.repeat_string (delimiter_token +:+ " ") (S (S n)))
      with ((delimiter_token +:+ " ")
            +:+ Py.repeat_string (delimiter_token +:+ " ") (S n)).
    by apply ends_with_space_app.
Qed.

Lemma ends_with_space_block (n : Z) (song : string) :
  ends_with_space (score_block n song).
Proof.
  unfold score_block, Py.mul_str. destruct (Z.to_nat n) as [|m].
  - exists song. by rewrite str_app_nil_r.
  - apply ends_with_space_app, ends_with_space_delimiters.
Qed.

Lemma ends_with_space_assembled (n : Z) (songs : list string) :
  songs <> [] -> ends_with_space (assembled n songs).
Proof.
  induction songs as [|song songs IH]; [done|]. intros _.
  cbn [assembled fold_right]. destruct songs as [|song' songs].
  - cbn [fold_right]. rewrite str_app_nil_r. apply ends_with_space_block.
  - apply ends_with_space_app. by apply IH.
Qed.

Lemma split_drop_last (s : string) :
  ends_with_space s \/ s = "" -> Py.split (Py.drop_last s) = Py.split s.
Proof.
  intros [[s' ->]| ->]; [|reflexivity].
  rewrite drop_last_snoc.
  change (s' +:+ " ") with (s' +:+ " " +:+ "").
  by rewrite split_space, split_empty, app_nil_r.
Qed.

Lemma assembled_cases (n : Z) (songs : list string) :
  ends_with_space (assembled n songs) \/ assembled n songs = "".
Proof.
  destruct songs as [|song songs]; [by right|].
  left. by apply ends_with_space_assembled.
Qed.

(** What [create_universal_dataset] returns. *)
Lemma create_universal_dataset_ok `{Collaborators} (fs : filesystem)
    (songs_dir dataset_path : string) (n : Z) :
  let corpus := Py.drop_last (assembled n (walked_contents fs songs_dir)) in
  create_universal_dataset fs songs_dir dataset_path n
  = Py.Ok (corpus, write fs dataset_path corpus).
Proof.
  intros corpus. unfold create_universal_dataset.
  rewrite (assemble_loop_ok fs _ _ _ _ (walked_all fs songs_dir)).
  reflexivity.
Qed.

(** The tokens of a file written by the encoder. *)
Lemma token_file_tokens (content : string) :
  token_file content -> Forall printed_token (Py.split content).
Proof.
  intros (song & time_step & Henc).
  rewrite (encode_song_ok song time_step (encode_song_counted _ _ _ Henc)) in Henc.
  injection Henc as <-.
  rewrite split_encoded. apply song_tokens_printed.
Qed.

Lemma filter_delimiter_printed (tokens : list string) :
  Forall printed_token tokens -> List.filter is_delimiter tokens = [].
Proof.
  induction 1 as [|t tokens Ht Hts IH]; [reflexivity|]. simpl.
  rewrite IH. unfold is_delimiter.
  destruct (String.eqb_spec t delimiter_token) as [E|_]; [|done].
  by apply printed_token_not_delimiter in E.
Qed.

Lemma filter_delimiter_replicate (n : nat) :
  List.filter is_delimiter (replicate n delimiter_token)
  = replicate n delimiter_token.
Proof. induction n as [|n IH]; [reflexivity|]. simpl. by rewrite IH. Qed.

Lemma delimiters_of_labelled (n : Z) (k : nat) (songs : list string) :
  Forall token_file songs ->
  length (List.filter is_delimiter (map snd (labelled_from n k songs)))
  = (Z.to_nat n * length songs)%nat.
Proof.
  intros Hsongs. revert k.
  induction Hsongs as [|song songs Hsong Hsongs IH]; intros k; simpl; [lia|].
  unfold labelled_block. rewrite !map_app, !List.filter_app, !length_app.
  rewrite IH, map_map. cbn [snd]. rewrite map_id.
  rewrite filter_delimiter_printed by (by apply token_file_tokens).
  rewrite map_replicate. cbn [snd].
  rewrite filter_delimiter_replicate, length_replicate. simpl. lia.
Qed.

End AssemblerFacts.

(* ===================================================================== *)
(** * Windows over the corpus                                             *)
(* ===================================================================== *)

Module SeparationFacts.
Import PyFacts WindowFacts AssemblerFacts.

(** In the block of the [k]-th score, a token of a score is a token of
    that score and stands before the delimiters. *)
Lemma block_lookup_score (n : Z) (k : nat) (song : string) (p a : nat) (t : string) :
  labelled_block n k song !! p = Some (FromScore a, t) ->
  a = k /\ (p < length (Py.split song))%nat.
Proof.
  unfold labelled_block. intros Hp.
  apply lookup_app_Some in Hp as [Hp|[Hge Hp]].
  - pose proof (lookup_lt_Some _ _ _ Hp) as Hlt.
    rewrite length_map in Hlt.
    apply list_lookup_fmap_Some in Hp as (t' & [= -> ->] & _). done.
  - apply lookup_replicate in Hp as [[=] _].
Qed.

Lemma length_labelled_block (n : Z) (k : nat) (song : string) :
  length (labelled_block n k song)
  = (length (Py.split song) + Z.to_nat n)%nat.
Proof.
  unfold labelled_block. by rewrite length_app, length_map, length_replicate.
Qed.

(** Tokens of two different scores are more than [sequence_length]
    positions apart. *)
Lemma separation (n : Z) (songs : list string) (k p q a b : nat) (ta tb : string) :
  labelled_from n k songs !! p = Some (FromScore a, ta) ->
  labelled_from n k songs !! q = Some (FromScore b, tb) ->
  (p <= q)%nat -> a <> b -> (p + Z.to_nat n < q)%nat.
Proof.
  revert k p q. induction songs as [|song songs IH]; intros k p q Hp Hq Hpq Hab.
  - done.
  - cbn [labelled_from] in Hp, Hq.
    pose proof (length_labelled_block n k song) as Hlen.
    apply lookup_app_Some in Hp as [Hp|[Hpge Hp]];
      apply lookup_app_Some in Hq as [Hq|[Hqge Hq]].
    + apply block_lookup_score in Hp as [-> _].
      apply block_lookup_score in Hq as [-> _]. done.
    + apply block_lookup_score in Hp as [_ Hp]. lia.
    + apply lookup_lt_Some in Hq. lia.
    + pose proof (IH (S k) _ _ Hp Hq) as Hsep. lia.
Qed.

Lemma labelled_delimiter (n : Z) (songs : list string) (k : nat) (t : string) :
  (Delimiter, t) ∈ labelled_from n k songs -> t = delimiter_token.
Proof.
  revert k. induction songs as [|song songs IH]; intros k Hin.
  - by apply elem_of_nil in Hin.
  - cbn [labelled_from] in Hin. apply elem_of_app in Hin as [Hin|Hin].
    + unfold labelled_block in Hin. apply elem_of_app in Hin as [Hin|Hin].
      * apply list_elem_of_fmap in Hin as (t' & [=] & _).
      * apply elem_of_replicate in Hin as [[= ->] _]. done.
    + by apply (IH (S k)).
Qed.

(** The labels are faithful: the tokens labelled with the [k]-th score are
    the tokens of the [k]-th assembled file. *)
Lemma tokens_of_score_app (k : nat) (l1 l2 : list (origin * string)) :
  tokens_of_score k (l1 ++ l2) = tokens_of_score k l1 ++ tokens_of_score k l2.
Proof. unfold tokens_of_score. apply omap_app. Qed.

Lemma tokens_of_score_block (n : Z) (k j : nat) (song : string) :
  tokens_of_score j (labelled_block n k song)
  = if Nat.eqb k j then Py.split song else [].
Proof.
  unfold labelled_block. rewrite tokens_of_score_app.
  assert (tokens_of_score j (replicate (Z.to_nat n) (Delimiter, delimiter_token)) = [])
    as ->.
  { induction (Z.to_nat n) as [|m IH]; [reflexivity|exact IH]. }
  rewrite app_nil_r. unfold tokens_of_score.
  destruct (Nat.eqb k j) eqn:E;
    induction (Py.split song) as [|t ts IH]; [done| |done|].
  - simpl. rewrite E. f_equal. exact IH.
  - simpl. rewrite E. exact IH.
Qed.

Lemma tokens_of_score_earlier (n : Z) (songs : list string) (k j : nat) :
  (j < k)%nat -> tokens_of_score j (labelled_from n k songs) = [].
Proof.
  revert k. induction songs as [|song songs IH]; intros k Hjk; [reflexivity|].
  cbn [labelled_from]. rewrite tokens_of_score_app, tokens_of_score_block.
  rewrite (IH (S k)) by lia.
  by destruct (Nat.eqb_spec k j); [lia|].
Qed.

Lemma labelled_from_tokens_of_score (n : Z) (songs : list string) (k0 k : nat) :
  tokens_of_score (k0 + k) (labelled_from n k0 songs)
  = from_option Py.split [] (songs !! k).
Proof.
  revert k0 k. induction songs as [|song songs IH]; intros k0 k; [reflexivity|].
  cbn [labelled_from]. rewrite tokens_of_score_app, tokens_of_score_block.
  destruct k as [|k].
  - rewrite Nat.add_0_r, Nat.eqb_refl.
    rewrite tokens_of_score_earlier by lia. by rewrite app_nil_r.
  - destruct (Nat.eqb_spec k0 (k0 + S k)) as [E|_]; [lia|].
    replace (k0 + S k)%nat with (S k0 + k)%nat by lia.
    by rewrite IH.
Qed.

Lemma labelled_corpus_tokens_of_score (n : Z) (songs : list string) (k : nat) :
  tokens_of_score k (labelled_corpus n songs)
  = from_option Py.split [] (songs !! k).
Proof. apply (labelled_from_tokens_of_score n songs 0 k). Qed.

(** The elements of a window [l[i:i+n]] and their positions in [l]. *)
Lemma elem_of_window {A : Type} (l : list A) (i n : Z) (x : A) :
  0 <= i -> 0 <= n ->
  x ∈ Py.slice l i (i + n) ->
  exists j : nat, (j < Z.to_nat n)%nat /\ l !! (Z.to_nat i + j)%nat = Some x.
Proof.
  intros Hi Hn. rewrite slice_window by done.
  rewrite elem_of_take. intros (j & Hj & Hlt).
  rewrite lookup_drop in Hj. eauto.
Qed.

Lemma getitem_Ok_lookup {A : Type} (l : list A) (k : Z) (x : A) :
  0 <= k -> Py.getitem l k = Py.Ok x -> l !! Z.to_nat k = Some x.
Proof.
  intros Hk. unfold Py.getitem. cbv zeta.
  assert ((k <? 0) = false) as E by lia.
  rewrite E. rewrite E. by destruct (l !! Z.to_nat k); intros [= ->].
Qed.

Lemma slice_map {A B : Type} (f : A -> B) (l : list A) (a b : Z) :
  map f (Py.slice l a b) = Py.slice (map f l) a b.
Proof.
  unfold Py.slice, Py.clamp, Py.len. rewrite length_map.
  by rewrite skipn_map, firstn_map.
Qed.

End SeparationFacts.

(* ===================================================================== *)

(* ===================================================================== *)
(** * The one-hot expansion                                               *)
(* ===================================================================== *)

Module OneHotFacts.

Lemma length_remove_dups (l : list Z) : (length (remove_dups l) <= length l)%nat.
Proof.
  induction l as [|x l IH]; simpl; [lia|].
  destruct (decide_rel elem_of x l); simpl; lia.
Qed.

Lemma vocabulary_size_le (int_songs : list Z) :
  vocabulary_size int_songs <= Py.len int_songs.
Proof.
  unfold vocabulary_size, Py.len. pose proof (length_remove_dups int_songs). lia.
Qed.

Lemma vocabulary_size_pos (int_songs : list Z) :
  int_songs <> [] -> 0 < vocabulary_size int_songs.
Proof.
  intros Hne. unfold vocabulary_size, Py.len.
  destruct (remove_dups int_songs) as [|x l] eqn:E; [|simpl; lia].
  destruct int_songs as [|y l']; [done|].
  assert (y ∈ remove_dups (y :: l')) as Hy by (apply elem_of_remove_dups; left).
  rewrite E in Hy. by apply elem_of_nil in Hy.
Qed.

(** The array made of rows of one length. *)
Lemma np_array_rows (inputs : list (list Z)) (w : Z) :
  Forall (fun r => Py.len r = w) inputs ->
  Forall (fun id => - 2 ^ 63 <= id < 2 ^ 63) (concat inputs) ->
  np_array inputs
  = Py.Ok {| shape := match inputs with
                      | [] => [0]
                      | _ => [Py.len inputs; w]
                      end;
             data := concat inputs |}.
Proof.
  intros Hrows Hids. unfold np_array.
  destruct inputs as [|row rest]; [done|].
  assert (Py.len row = w) as Hrow by (by inversion Hrows).
  assert (forallb (fun r => Py.len r =? Py.len row) (row :: rest) = true) as ->.
  { apply forallb_forall. intros r Hr. apply Z.eqb_eq.
    rewrite Forall_forall in Hrows. rewrite Hrow.
    apply Hrows. by apply list_elem_of_In. }
  assert (forallb (fun id => (- 2 ^ 63 <=? id) && (id <? 2 ^ 63))
                  (concat (row :: rest)) = true) as ->.
  { apply forallb_forall. intros id Hid. rewrite Forall_forall in Hids.
    apply list_elem_of_In, Hids in Hid. apply andb_true_iff. lia. }
  simpl. by rewrite Hrow.
Qed.

(** The one-hot expansion of rows of one length whose ids are columns. *)
Lemma to_categorical_rows (inputs : list (list Z)) (w num_classes : Z) :
  0 < num_classes <= 2 ^ 63 ->
  Forall (fun r => Py.len r = w) inputs ->
  Forall (fun id => 0 <= id < num_classes) (concat inputs) ->
  to_categorical inputs num_classes
  = Py.Ok {| shape := match inputs with
                      | [] => [0; num_classes]
                      | _ => if w =? 1 then [Py.len inputs; num_classes]
                             else [Py.len inputs; w; num_classes]
                      end;
             data := concat (map (one_hot_row num_classes) (concat inputs)) |}.
Proof.
  intros HC Hrows Hids. unfold to_categorical.
  rewrite (np_array_rows inputs w Hrows).
  2:{ eapply Forall_impl; [exact Hids|]. simpl. intros id Hid. lia. }
  cbn [Py.bind shape data].
  destruct (Z.eqb_spec num_classes 0) as [E|_]; [lia|]. cbn [Py.bind].
  destruct (Z.ltb_spec num_classes 0) as [E|_]; [lia|].
  assert (forallb (fun id => (- num_classes <=? id) && (id <? num_classes))
                  (concat inputs) = true) as ->.
  { apply forallb_forall. intros id Hid. rewrite Forall_forall in Hids.
    apply list_elem_of_In, Hids in Hid. apply andb_true_iff. lia. }
  f_equal. f_equal.
  destruct inputs as [|row rest]; [done|].
  destruct (Z.eqb_spec w 1) as [-> |Hw]; [done|].
  destruct w as [|[p|p|]|p]; done.
Qed.

(** With [num_classes = 0] and nothing to expand, Keras takes the
    maximum of an empty array. *)
Lemma to_categorical_empty : to_categorical [] 0 = Py.Raise Py.ValueError.
Proof. reflexivity. Qed.

End OneHotFacts.
(** * The properties of the pipeline                                      *)
(* ===================================================================== *)

Import PyFacts NumFacts EncoderFacts DecoderFacts VocabularyFacts.
Import WindowFacts AssemblerFacts SeparationFacts OneHotFacts.

(** What the duration filter decides: it rejects a score exactly when one
    of its pitched events has a duration outside the list; the rests are
    not looked at. *)
Lemma has_acceptable_note_durations_false (song : score) (D : list Q) :
  has_acceptable_note_durations song D = false
  <-> exists e, e ∈ song /\ is_note e = true /\ Py.contains (quarterLength e) D = false.
Proof.
  unfold has_acceptable_note_durations, notes.
  induction song as [|e song IH]; simpl.
  - split; [done|]. intros (e & He & _). by apply elem_of_nil in He.
  - destruct (is_note e) eqn:Hnote; simpl.
    + destruct (Py.contains (quarterLength e) D) eqn:Hin; simpl.
      * rewrite IH. split.
        -- intros (x & Hx & ?). exists x. split; [by right|done].
        -- intros (x & Hx & Hn & Hc). apply elem_of_cons in Hx as [->|Hx].
           ++ congruence.
           ++ by exists x.
      * split; [|done]. intros _. exists e. split; [by left|done].
    + rewrite IH. split.
      * intros (x & Hx & ?). exists x. split; [by right|done].
      * intros (x & Hx & Hn & Hc). apply elem_of_cons in Hx as [->|Hx].
        -- congruence.
        -- by exists x.
Qed.

Lemma has_acceptable_note_durations_empty (D : list Q) :
  has_acceptable_note_durations [] D = true.
Proof. reflexivity. Qed.

(** C1 (the code departs from the claim): a score whose only event is a
    rest of a 32nd note, a duration that is not in the accepted list, is
    accepted by [has_acceptable_note_durations]; the claim has it rejected,
    since one of its note/rest events has a duration outside the list. *)
Theorem C1_rest_duration_not_checked :
  let song := [Rest (1 # 8)] in
  Py.contains (quarterLength (Rest (1 # 8))) ACCEPTABLE_DURATIONS = false
  /\ has_acceptable_note_durations song ACCEPTABLE_DURATIONS = true.
Proof. split; reflexivity. Qed.

(** C2: for a positive time step and a score whose durations are not
    negative, take the sum over the events of [int(duration / time_step)],
    each quotient computed and truncated as Python does at line 106. When
    the sum has a value [n], [encode_song] returns a string whose
    whitespace-separated tokens are the emitted tokens, [n] of them, and
    the result is a function of the events and of the time step as
    numbers; when the sum raises (a quotient too large for a float),
    [encode_song] raises the same error. Each count is the truncation of
    its quotient. *)
Theorem C2_encode_song_length (song : score) (time_step : Q) :
  (0 < time_step)%Q ->
  Forall (fun e => (0 <= quarterLength e)%Q) song ->
  (forall n : Z, total_steps song time_step = Py.Ok n ->
     exists (tokens : list pyval) (encoded_song : string),
       encoded_tokens song time_step = Py.Ok tokens
       /\ encode_song song time_step = Py.Ok encoded_song
       /\ Py.split encoded_song = map py_str tokens
       /\ Py.len tokens = n
       /\ Py.len (Py.split encoded_song) = n
       /\ (forall (song' : score) (time_step' : Q),
             Forall2 same_number_event song song' -> (time_step == time_step')%Q ->
             encode_song song' time_step' = Py.Ok encoded_song))
  /\ (forall err : Py.error, total_steps song time_step = Py.Raise err ->
        encode_song song time_step = Py.Raise err)
  /\ (forall (e : event) (k : Z), e ∈ song -> step_count e time_step = Py.Ok k ->
        exists q : Q,
          Py.truediv (quarterLength e) time_step = Py.Ok (Py.Finite q)
          /\ (inject_Z k <= q)%Q /\ (q < inject_Z k + 1)%Q).
Proof.
  intros Hts Hsong. split; [|split].
  - intros n Hn.
    destruct (counted_or_raise song time_step)
      as [Hc|(pre & e & post & err & -> & Hpre & He)].
    2:{ by rewrite (total_steps_raise pre post e time_step err Hpre He) in Hn. }
    rewrite (total_steps_ok song time_step Hc) in Hn. injection Hn as <-.
    exists (concat (map (event_tokens time_step) song)).
    eexists. split; [by apply encoded_tokens_ok|].
    split; [by apply encode_song_ok|].
    split; [apply split_encoded|].
    split; [by apply len_tokens|].
    split.
    + rewrite split_encoded. unfold Py.len. rewrite length_map.
      by apply len_tokens.
    + intros song' time_step' Hsame Heq.
      rewrite <- (encode_song_ok song time_step Hc).
      unfold encode_song, encoded_tokens, notesAndRests.
      by rewrite (encode_events_proper song song' time_step time_step' []).
  - intros err Herr.
    destruct (counted_or_raise song time_step)
      as [Hc|(pre & e & post & err' & -> & Hpre & He)].
    { by rewrite (total_steps_ok song time_step Hc) in Herr. }
    rewrite (total_steps_raise pre post e time_step err' Hpre He) in Herr.
    injection Herr as <-. by apply encode_song_raise.
  - intros e k He Hk.
    destruct (step_count_Ok e time_step k Hk) as (q & Hq & ->).
    exists q. split; [done|].
    rewrite Forall_forall in Hsong.
    apply trunc_floor. by eapply truediv_nonneg; [apply Hsong| |].
Qed.

Lemma C2_encode_song_length_witness :
  let song := [Note 60 1; Rest (1 # 2); Note 62 (3 # 4)] in
  (forall n : Z, total_steps song default_time_step = Py.Ok n ->
     exists (tokens : list pyval) (encoded_song : string),
       encoded_tokens song default_time_step = Py.Ok tokens
       /\ encode_song song default_time_step = Py.Ok encoded_song
       /\ Py.split encoded_song = map py_str tokens
       /\ Py.len tokens = n
       /\ Py.len (Py.split encoded_song) = n
       /\ (forall (song' : score) (time_step' : Q),
             Forall2 same_number_event song song' ->
             (default_time_step == time_step')%Q ->
             encode_song song' time_step' = Py.Ok encoded_song))
  /\ (forall err : Py.error, total_steps song default_time_step = Py.Raise err ->
        encode_song song default_time_step = Py.Raise err)
  /\ (forall (e : event) (k : Z), e ∈ song ->
        step_count e default_time_step = Py.Ok k ->
        exists q : Q,
          Py.truediv (quarterLength e) default_time_step = Py.Ok (Py.Finite q)
          /\ (inject_Z k <= q)%Q /\ (q < inject_Z k + 1)%Q).
Proof.
  apply (C2_encode_song_length [Note 60 1; Rest (1 # 2); Note 62 (3 # 4)] default_time_step).
  - reflexivity.
  - repeat constructor; discriminate.
Defined.

(** C3, as the code has it: for a corpus of [L >= 1] integers that are
    below the number [C] of its distinct values (as the ids of a corpus
    converted with its own vocabulary are) and a window width [W >= 0],
    [generate_training_sequences] returns [max(0, L - W)] pairs: that many
    contexts, each of length [W], the [i]-th being [corpus[i:i+W]], and
    as many targets, the [i]-th being [corpus[i+W]]; the array it returns
    holds one row of [C] entries per element of the contexts, its first
    dimension being the number of pairs; for [1 <= L <= W] there is no
    pair and no error. For an empty corpus the call raises [ValueError]
    in [to_categorical]. The bound on [L] is the one every Python list
    has. *)
Theorem C3_generate_training_sequences `{Collaborators} (fs : filesystem) (W : Z)
    (int_songs : list Z) :
  0 <= W ->
  (let* dataset := load fs UNIVERSAL_DATASET in convert_songs_to_int fs dataset)
  = Py.Ok int_songs ->
  let L := Py.len int_songs in
  let C := vocabulary_size int_songs in
  L < 2 ^ 63 ->
  Forall (fun id => 0 <= id < C) int_songs ->
  (1 <= L ->
   exists (inputs : list (list Z)) (targets : list Z) (one_hot : ndarray),
     training_windows int_songs W = Py.Ok (inputs, targets)
     /\ to_categorical inputs C = Py.Ok one_hot
     /\ generate_training_sequences fs W = Py.Ok (one_hot, targets)
     /\ Py.len inputs = Z.max 0 (L - W)
     /\ Py.len targets = Z.max 0 (L - W)
     /\ shape one_hot = (if L <=? W then [0; C]
                         else if W =? 1 then [L - W; C]
                         else [L - W; W; C])
     /\ data one_hot = concat (map (one_hot_row C) (concat inputs))
     /\ (forall context, context ∈ inputs -> Py.len context = W)
     /\ (forall i, 0 <= i < L - W ->
           exists target,
             Py.getitem targets i = Py.Ok target
             /\ Py.getitem int_songs (i + W) = Py.Ok target
             /\ Py.getitem inputs i = Py.Ok (Py.slice int_songs i (i + W))))
  /\ (L = 0 -> generate_training_sequences fs W = Py.Raise Py.ValueError).
Proof.
  intros HW Hcorpus L C HL Hids.
  destruct (windows_loop_ok int_songs W (Z.to_nat (L - W)) 0 [] [] HW)
    as (targets & Hloop & Htargets); [fold L; lia|].
  simpl in Hloop.
  set (indices := map Z.of_nat (seq 0 (Z.to_nat (L - W)))) in *.
  assert (indices = Py.range (L - W)) as Hind by reflexivity.
  set (inputs := map (fun i => Py.slice int_songs i (i + W)) indices) in *.
  assert (length indices = Z.to_nat (L - W)) as Hlen.
  { by rewrite Hind, length_range. }
  assert (length targets = Z.to_nat (L - W)) as Hlent.
  { rewrite <- Hlen. symmetry. by eapply Forall2_length. }
  assert (training_windows int_songs W = Py.Ok (inputs, targets)) as Htw
    by exact Hloop.
  assert (generate_training_sequences fs W
          = (let* one_hot := to_categorical inputs C in Py.Ok (one_hot, targets)))
    as Hgen.
  { unfold generate_training_sequences.
    destruct (load fs UNIVERSAL_DATASET) as [dataset|e]; [|done].
    simpl in Hcorpus |- *. rewrite Hcorpus. simpl.
    by rewrite Htw. }
  assert (forall context, context ∈ inputs -> Py.len context = W) as Hwidth.
  { intros context Hc. apply list_elem_of_fmap in Hc as (i & -> & Hi).
    rewrite Hind in Hi. unfold Py.range in Hi.
    apply list_elem_of_fmap in Hi as (j & -> & Hj).
    apply elem_of_seq in Hj. apply length_slice_window; [lia|done|fold L; lia]. }
  split.
  - intros HL1.
    assert (0 < C <= 2 ^ 63) as HC.
    { split.
      - apply vocabulary_size_pos. intros ->. unfold L, Py.len in HL1. simpl in HL1. lia.
      - pose proof (vocabulary_size_le int_songs). fold L C in H0. lia. }
    assert (Forall (fun id => 0 <= id < C) (concat inputs)) as Hcols.
    { apply Forall_concat, Forall_forall. intros context Hc.
      apply list_elem_of_fmap in Hc as (i & -> & _).
      unfold Py.slice. by apply Forall_take, Forall_drop. }
    pose proof (to_categorical_rows inputs W C HC) as Hcat.
    rewrite Forall_forall in Hcat. specialize (Hcat Hwidth Hcols).
    eexists inputs, targets, _.
    split; [exact Htw|]. split; [exact Hcat|].
    split; [by rewrite Hgen, Hcat|].
    split; [unfold Py.len, inputs; rewrite length_map, Hlen; lia|].
    split; [unfold Py.len; rewrite Hlent; lia|].
    split.
    { cbn [shape].
      assert (Py.len inputs = Z.max 0 (L - W)) as Hn.
      { unfold Py.len, inputs. rewrite length_map, Hlen. lia. }
      destruct (Z.leb_spec L W) as [Hle|Hgt].
      - destruct inputs as [|row rest]; [done|].
        unfold Py.len in Hn. simpl in Hn. lia.
      - destruct inputs as [|row rest] eqn:E.
        + unfold Py.len in Hn. simpl in Hn. lia.
        + rewrite Hn. by replace (Z.max 0 (L - W)) with (L - W) by lia. }
    split; [done|].
    split; [exact Hwidth|].
    intros i Hi.
    assert (indices !! Z.to_nat i = Some i) as Hidx.
    { rewrite Hind. by apply lookup_range. }
    destruct (Forall2_lookup_l _ _ _ _ _ Htargets Hidx) as (target & Ht & Hit).
    exists target. split; [apply getitem_lookup; [lia|done]|].
    split; [apply getitem_lookup; [lia|done]|].
    apply getitem_lookup; [lia|]. unfold inputs. by rewrite list_lookup_fmap, Hidx.
  - intros HL0. rewrite Hgen.
    assert (int_songs = []) as -> by (apply nil_length_inv; unfold L, Py.len in HL0; lia).
    assert (inputs = []) as ->.
    { apply nil_length_inv. unfold inputs. rewrite length_map, Hlen.
      unfold L, Py.len. simpl. lia. }
    reflexivity.
Qed.

Lemma C3_generate_training_sequences_witness :
  let fs : filesystem :=
    {[ MAPPINGS_PATH := "60 _ r 62"; UNIVERSAL_DATASET := "60 _ r 62" ]} in
  let W := 2 in
  let int_songs := [0; 1; 2; 3] in
  let L := Py.len int_songs in
  let C := vocabulary_size int_songs in
  (1 <= L ->
   exists (inputs : list (list Z)) (targets : list Z) (one_hot : ndarray),
     training_windows int_songs W = Py.Ok (inputs, targets)
     /\ to_categorical inputs C = Py.Ok one_hot
     /\ generate_training_sequences (H := Sample.collaborators) fs W
        = Py.Ok (one_hot, targets)
     /\ Py.len inputs = Z.max 0 (L - W)
     /\ Py.len targets = Z.max 0 (L - W)
     /\ shape one_hot = (if L <=? W then [0; C]
                         else if W =? 1 then [L - W; C]
                         else [L - W; W; C])
     /\ data one_hot = concat (map (one_hot_row C) (concat inputs))
     /\ (forall context, context ∈ inputs -> Py.len context = W)
     /\ (forall i, 0 <= i < L - W ->
           exists target,
             Py.getitem targets i = Py.Ok target
             /\ Py.getitem int_songs (i + W) = Py.Ok target
             /\ Py.getitem inputs i = Py.Ok (Py.slice int_songs i (i + W))))
  /\ (L = 0 ->
      generate_training_sequences (H := Sample.collaborators) fs W
      = Py.Raise Py.ValueError).
Proof.
  apply (C3_generate_training_sequences (H := Sample.collaborators)
           {[ MAPPINGS_PATH := "60 _ r 62"; UNIVERSAL_DATASET := "60 _ r 62" ]}
           2 [0; 1; 2; 3]).
  - lia.
  - vm_compute. reflexivity.
  - reflexivity.
  - repeat constructor; vm_compute; congruence.
Defined.

(** The claim of C3 fails on an empty corpus: with [L = 0 <= W] the call
    raises instead of returning zero pairs. It also fails when an id is
    not below the number of distinct ids, here on the corpus [c c c]
    converted with the vocabulary of [a b c]: [L - W = 2] pairs are built
    and the one-hot expansion raises [IndexError]. *)
Lemma C3_empty_corpus_raises :
  let fs : filesystem := {[ MAPPINGS_PATH := ""; UNIVERSAL_DATASET := "" ]} in
  let fs' : filesystem := {[ MAPPINGS_PATH := "a b c"; UNIVERSAL_DATASET := "c c c" ]} in
  ((let* dataset := load fs UNIVERSAL_DATASET in
    convert_songs_to_int (H := Sample.collaborators) fs dataset) = Py.Ok []
   /\ training_windows [] 64 = Py.Ok ([], [])
   /\ generate_training_sequences (H := Sample.collaborators) fs 64
      = Py.Raise Py.ValueError)
  /\ ((let* dataset := load fs' UNIVERSAL_DATASET in
       convert_songs_to_int (H := Sample.collaborators) fs' dataset) = Py.Ok [2; 2; 2]
      /\ training_windows [2; 2; 2] 1 = Py.Ok ([[2]; [2]], [2; 2])
      /\ generate_training_sequences (H := Sample.collaborators) fs' 1
         = Py.Raise Py.IndexError).
Proof. repeat split; vm_compute; reflexivity. Qed.

(** C4: whatever the iteration order of the set, the dictionary built by
    [create_mapping] has an entry exactly for the tokens of the corpus; its
    ids lie in [[0, N)], [N] the number of distinct tokens; two tokens
    never share an id; every integer of [[0, N)] is the id of a token; it
    has [N] entries; and it is what is written to the mappings file. *)
Theorem C4_vocabulary_bijection `{Collaborators} (songs : string) :
  let mappings := build_mappings songs in
  let N := Z.of_nat (size (list_to_set (Py.split songs) : gset string)) in
  (forall t, t ∈ Py.split songs <-> is_Some (mappings !! t))
  /\ (forall t i, mappings !! t = Some i -> 0 <= i < N)
  /\ (forall t1 t2 i, mappings !! t1 = Some i -> mappings !! t2 = Some i -> t1 = t2)
  /\ (forall i, 0 <= i < N -> exists t, mappings !! t = Some i)
  /\ Z.of_nat (size mappings) = N
  /\ (forall fs mappings_path,
        load (create_mapping fs songs mappings_path) mappings_path
        = Py.Ok (json_dump mappings)).
Proof.
  intros mappings N.
  pose proof (set_list_NoDup (Py.split songs)) as Hnd.
  pose proof (set_list_elem (Py.split songs)) as Hel.
  set (v := set_list (Py.split songs)) in *.
  assert (mappings = dict_of_enumeration v) as Hm.
  { unfold mappings, build_mappings. fold v. apply (right_id_L ∅ (∪)). }
  assert (N = Z.of_nat (length v)) as HN.
  { unfold N. f_equal. rewrite <- (size_list_to_set (C:=gset string) v) by done.
    f_equal. apply set_eq. intros x. rewrite !elem_of_list_to_set. by rewrite Hel. }
  assert (forall t i, mappings !! t = Some i <-> 0 <= i /\ v !! Z.to_nat i = Some t)
    as Hlook.
  { intros t i. rewrite Hm. by apply dict_of_enumeration_lookup. }
  assert (forall t, t ∈ Py.split songs <-> is_Some (mappings !! t)) as Hdom.
  { intros t. rewrite <- Hel. split.
    - intros Ht. apply list_elem_of_lookup in Ht as [j Hj].
      exists (Z.of_nat j). apply Hlook. rewrite Nat2Z.id. split; [lia|done].
    - intros [i Hi]. apply Hlook in Hi as [_ Hi].
      apply list_elem_of_lookup. eauto. }
  split; [exact Hdom|].
  split.
  { intros t i Hi. apply Hlook in Hi as [H0 Hi].
    apply lookup_lt_Some in Hi. lia. }
  split.
  { intros t1 t2 i H1 H2. apply Hlook in H1 as [_ H1]. apply Hlook in H2 as [_ H2].
    congruence. }
  split.
  { intros i Hi. destruct (lookup_lt_is_Some_2 v (Z.to_nat i)) as [t Ht]; [lia|].
    exists t. apply Hlook. split; [lia|done]. }
  split.
  { rewrite HN. f_equal. rewrite <- size_dom.
    rewrite <- (size_list_to_set (C:=gset string) v) by done.
    f_equal. apply set_eq. intros x.
    rewrite elem_of_dom, elem_of_list_to_set, Hel. symmetry. apply Hdom. }
  intros fs mappings_path. unfold load, create_mapping, write.
  by rewrite lookup_insert_eq.
Qed.

(** C5: when the walked files are encoded scores and the sequence length
    is not negative, [create_universal_dataset] returns (and writes) a
    corpus whose number of delimiter tokens is the sequence length times
    the number of files; the corpus is the blocks "content, space, the
    delimiter and a space [sequence_length] times" of the files in the
    order of the walk, put end to end, without its last character, which
    is a space whenever there is a file. *)
Theorem C5_corpus_assembly `{Collaborators} (fs : filesystem)
    (songs_dir dataset_path : string) (sequence_length : Z) :
  0 <= sequence_length ->
  Forall token_file (walked_contents fs songs_dir) ->
  let songs := walked_contents fs songs_dir in
  exists corpus : string,
    create_universal_dataset fs songs_dir dataset_path sequence_length
    = Py.Ok (corpus, write fs dataset_path corpus)
    /\ Py.len songs = Py.len (os_walk fs songs_dir)
    /\ delimiter_count corpus = sequence_length * Py.len (os_walk fs songs_dir)
    /\ corpus = Py.drop_last (assembled sequence_length songs)
    /\ (songs <> [] -> corpus +:+ " " = assembled sequence_length songs)
    /\ (songs = [] -> corpus = "").
Proof.
  intros Hn Hfiles songs.
  exists (Py.drop_last (assembled sequence_length songs)).
  assert (Py.len songs = Py.len (os_walk fs songs_dir)) as Hlen.
  { unfold Py.len. f_equal. symmetry.
    eapply Forall2_length, walked_all. }
  split; [apply create_universal_dataset_ok|].
  split; [exact Hlen|].
  split.
  { unfold delimiter_count.
    rewrite split_drop_last by apply assembled_cases.
    rewrite split_assembled. unfold labelled_corpus, Py.len in *.
    rewrite (delimiters_of_labelled sequence_length 0 songs Hfiles).
    rewrite <- Hlen. lia. }
  split; [done|].
  split.
  - intros Hne.
    destruct (ends_with_space_assembled sequence_length songs Hne) as [s' Hs'].
    rewrite Hs'. by rewrite drop_last_snoc.
  - by intros ->.
Qed.

Lemma C5_corpus_assembly_witness :
  let fs : filesystem := {[ "d/0" := "60 _ r" ]} in
  let songs := walked_contents (H := Sample.collaborators) fs "d" in
  exists corpus : string,
    create_universal_dataset (H := Sample.collaborators) fs "d" "out" 4
    = Py.Ok (corpus, write fs "out" corpus)
    /\ Py.len songs = Py.len (os_walk (Collaborators := Sample.collaborators) fs "d")
    /\ delimiter_count corpus
       = 4 * Py.len (os_walk (Collaborators := Sample.collaborators) fs "d")
    /\ corpus = Py.drop_last (assembled 4 songs)
    /\ (songs <> [] -> corpus +:+ " " = assembled 4 songs)
    /\ (songs = [] -> corpus = "").
Proof.
  apply (C5_corpus_assembly (H := Sample.collaborators)
           {[ "d/0" := "60 _ r" ]} "d" "out" 4).
  - lia.
  - assert (walked_contents (H := Sample.collaborators) {[ "d/0" := "60 _ r" ]} "d"
            = ["60 _ r"]) as -> by (vm_compute; reflexivity).
    constructor; [|constructor].
    exists [Note 60 (1 # 2); Rest (1 # 4)], default_time_step.
    vm_compute. reflexivity.
Defined.

(** C6: in the corpus that [create_universal_dataset] assembles, take the
    window of [sequence_length] tokens that starts at any position. Two
    tokens of the window that come from scores come from the same score;
    and when the token just before the window and the token just after it
    come from two different scores, the window holds delimiter tokens
    only. *)
Theorem C6_window_within_one_score `{Collaborators} (fs : filesystem)
    (songs_dir dataset_path : string) (sequence_length i : Z) :
  0 <= sequence_length -> 0 <= i ->
  let labelled := labelled_corpus sequence_length (walked_contents fs songs_dir) in
  exists corpus : string,
    create_universal_dataset fs songs_dir dataset_path sequence_length
    = Py.Ok (corpus, write fs dataset_path corpus)
    /\ Py.split corpus = map snd labelled
    /\ Py.slice (Py.split corpus) i (i + sequence_length)
       = map snd (Py.slice labelled i (i + sequence_length))
    /\ (forall a b ta tb,
          (FromScore a, ta) ∈ Py.slice labelled i (i + sequence_length) ->
          (FromScore b, tb) ∈ Py.slice labelled i (i + sequence_length) ->
          a = b)
    /\ (forall a b ta tb,
          1 <= i ->
          Py.getitem labelled (i - 1) = Py.Ok (FromScore a, ta) ->
          Py.getitem labelled (i + sequence_length) = Py.Ok (FromScore b, tb) ->
          a <> b ->
          forall x, x ∈ Py.slice labelled i (i + sequence_length) ->
                    x = (Delimiter, delimiter_token)).
Proof.
  intros Hn Hi labelled.
  exists (Py.drop_last (assembled sequence_length (walked_contents fs songs_dir))).
  assert (Py.split (Py.drop_last (assembled sequence_length
                                    (walked_contents fs songs_dir)))
          = map snd labelled) as Hsplit.
  { rewrite split_drop_last by apply assembled_cases. apply split_assembled. }
  split; [apply create_universal_dataset_ok|].
  split; [exact Hsplit|].
  split; [by rewrite Hsplit, slice_map|].
  split.
  - intros a b ta tb Ha Hb.
    apply elem_of_window in Ha as (ja & Hja & Ha); [|done..].
    apply elem_of_window in Hb as (jb & Hjb & Hb); [|done..].
    destruct (decide (a = b)) as [|Hab]; [done|exfalso].
    destruct (Nat.le_ge_cases ja jb) as [Hle|Hle].
    + pose proof (separation _ _ 0 _ _ _ _ _ _ Ha Hb) as Hsep. lia.
    + pose proof (separation _ _ 0 _ _ _ _ _ _ Hb Ha) as Hsep. lia.
  - intros a b ta tb Hi1 Hbefore Hafter Hab [o t] Hx.
    apply getitem_Ok_lookup in Hbefore; [|lia].
    apply getitem_Ok_lookup in Hafter; [|lia].
    pose proof Hx as Hin.
    apply elem_of_window in Hx as (j & Hj & Hx); [|done..].
    destruct o as [c|].
    + exfalso. destruct (decide (c = a)) as [->|Hca].
      * pose proof (separation _ _ 0 _ _ _ _ _ _ Hx Hafter) as Hsep. lia.
      * pose proof (separation _ _ 0 _ _ _ _ _ _ Hbefore Hx) as Hsep. lia.
    + f_equal. apply (labelled_delimiter sequence_length
                        (walked_contents fs songs_dir) 0).
      apply list_elem_of_lookup. eauto.
Qed.

Lemma C6_window_within_one_score_witness :
  let fs : filesystem := {[ "d/0" := "60 _ r"; "d/1" := "62 _ _ _" ]} in
  let labelled :=
    labelled_corpus 4 (walked_contents (H := Sample.collaborators) fs "d") in
  exists corpus : string,
    create_universal_dataset (H := Sample.collaborators) fs "d" "out" 4
    = Py.Ok (corpus, write fs "out" corpus)
    /\ Py.split corpus = map snd labelled
    /\ Py.slice (Py.split corpus) 3 (3 + 4) = map snd (Py.slice labelled 3 (3 + 4))
    /\ (forall a b ta tb,
          (FromScore a, ta) ∈ Py.slice labelled 3 (3 + 4) ->
          (FromScore b, tb) ∈ Py.slice labelled 3 (3 + 4) ->
          a = b)
    /\ (forall a b ta tb,
          1 <= 3 ->
          Py.getitem labelled (3 - 1) = Py.Ok (FromScore a, ta) ->
          Py.getitem labelled (3 + 4) = Py.Ok (FromScore b, tb) ->
          a <> b ->
          forall x, x ∈ Py.slice labelled 3 (3 + 4) ->
                    x = (Delimiter, delimiter_token)).
Proof.
  apply (C6_window_within_one_score (H := Sample.collaborators)
           {[ "d/0" := "60 _ r"; "d/1" := "62 _ _ _" ]} "d" "out" 4 3); lia.
Defined.

(** C7, as the code has it: for a score whose durations are whole
    positive multiples of the time step and are divided by it without
    rounding, the encoded song is read back into the runs (symbol, step
    count) of its events in order, and the events read back have the
    symbols of the original events and durations equal to theirs. *)
Theorem C7_encode_decode_round_trip (song : score) (time_step : Q) :
  Forall (whole_multiple time_step) song ->
  Forall (fun e => exact_quotient (quarterLength e) time_step) song ->
  exists (encoded_song : string) (decoded : list event),
    encode_song song time_step = Py.Ok encoded_song
    /\ Forall2 (fun e run => fst run = symbol_of_event e
                             /\ step_count e time_step = Py.Ok (snd run)
                             /\ (quarterLength e == inject_Z (snd run) * time_step)%Q)
               song (map (fun e => (symbol_of_event e, steps e time_step)) song)
    /\ decode_runs (Py.split encoded_song)
       = Some (map (fun e => (symbol_of_event e, steps e time_step)) song)
    /\ decode_song encoded_song time_step = Some decoded
    /\ Forall2 same_event decoded song.
Proof.
  intros Hsong Hexact.
  assert (Forall (fun e => exists k, 1 <= k
                           /\ (quarterLength e == inject_Z k * time_step)%Q
                           /\ step_count e time_step = Py.Ok k) song) as Hk.
  { rewrite Forall_forall in Hsong, Hexact. apply Forall_forall. intros e He.
    destruct (Hsong e He) as (k & Hk & Hd). exists k.
    split; [done|]. split; [done|].
    by apply step_count_multiple; [apply Hexact|]. }
  assert (Forall (counted time_step) song) as Hc.
  { eapply Forall_impl; [exact Hk|]. intros e (k & _ & _ & Hs). by exists k. }
  assert (Forall (fun e => 1 <= steps e time_step) song) as Hsteps.
  { eapply Forall_impl; [exact Hk|]. intros e (k & H1 & _ & Hs).
    by rewrite (step_count_steps e time_step k Hs). }
  assert (decode_runs (Py.split (Py.join " "
            (map py_str (concat (map (event_tokens time_step) song)))))
          = Some (map (fun e => (symbol_of_event e, steps e time_step)) song))
    as Hruns.
  { unfold decode_runs. by rewrite split_encoded, decode_go_song. }
  eexists. eexists.
  split; [by apply encode_song_ok|].
  split.
  { apply Forall2_fmap_r, Forall_Forall2_diag.
    eapply Forall_impl; [exact Hk|]. intros e (k & _ & Hd & Hs).
    pose proof (step_count_steps e time_step k Hs) as Ek.
    unfold compose. cbn [fst snd]. by rewrite Ek. }
  split; [exact Hruns|].
  split; [unfold decode_song; rewrite Hruns; reflexivity|].
  rewrite map_map. clear Hruns Hsteps Hc Hsong Hexact.
  induction Hk as [|e song (k & Hk1 & He & Hs) Hk IH]; [constructor|].
  cbn [map]. constructor; [|exact IH].
  rewrite (step_count_steps e time_step k Hs).
  unfold same_event, event_of_run. cbn [fst snd].
  destruct e as [midi d|d]; simpl in *; by rewrite He.
Qed.

Lemma C7_encode_decode_round_trip_witness :
  let song := [Note 60 1; Rest (1 # 2); Note 62 (3 # 4)] in
  exists (encoded_song : string) (decoded : list event),
    encode_song song default_time_step = Py.Ok encoded_song
    /\ Forall2 (fun e run => fst run = symbol_of_event e
                             /\ step_count e default_time_step = Py.Ok (snd run)
                             /\ (quarterLength e
                                 == inject_Z (snd run) * default_time_step)%Q)
               song (map (fun e => (symbol_of_event e, steps e default_time_step)) song)
    /\ decode_runs (Py.split encoded_song)
       = Some (map (fun e => (symbol_of_event e, steps e default_time_step)) song)
    /\ decode_song encoded_song default_time_step = Some decoded
    /\ Forall2 same_event decoded song.
Proof.
  apply (C7_encode_decode_round_trip
           [Note 60 1; Rest (1 # 2); Note 62 (3 # 4)] default_time_step).
  - repeat constructor.
    + exists 4. split; [lia|reflexivity].
    + exists 2. split; [lia|reflexivity].
    + exists 3. split; [lia|reflexivity].
  - repeat constructor.
    + exists 4%Q. split; [vm_compute; reflexivity|reflexivity].
    + exists 2%Q. split; [vm_compute; reflexivity|reflexivity].
    + exists 3%Q. split; [vm_compute; reflexivity|reflexivity].
Defined.

(** The claim of C7 fails where the division rounds: a note of one
    quarter length is 93 time steps of 1/93, the float 1.0 divided by the
    Fraction 1/93 is 92.99999999999999, the note is encoded on 92 tokens,
    and it is read back with the duration 92/93. *)
Lemma C7_rounded_quotient_breaks_round_trip :
  let song := [Note 60 1] in
  let time_step := (1 # 93)%Q in
  Forall (whole_multiple time_step) song
  /\ Py.truediv 1 time_step
     = Py.Ok (Py.Finite (6544293208522751 # 70368744177664))
  /\ step_count (Note 60 1) time_step = Py.Ok 92
  /\ exists encoded_song : string,
       encode_song song time_step = Py.Ok encoded_song
       /\ Py.len (Py.split encoded_song) = 92
       /\ decode_song encoded_song time_step = Some [Note 60 (92 # 93)]
       /\ ~ Forall2 same_event [Note 60 (92 # 93)] song.
Proof.
  split.
  { repeat constructor. exists 93. split; [lia|reflexivity]. }
  split; [vm_compute; reflexivity|].
  split; [vm_compute; reflexivity|].
  eexists. split; [vm_compute; reflexivity|].
  split; [vm_compute; reflexivity|].
  split; [vm_compute; reflexivity|].
  intros Hsame. inversion Hsame as [|? ? ? ? [_ Hd] _]. discriminate Hd.
Qed.

(** C8: with a mappings file that holds the table [vocabulary_mapping],
    [convert_songs_to_int] returns a list exactly when every token of its
    input has an entry; the list then has one id per token, in order, the
    id of that token in the table; and a token without an entry makes the
    call raise the [KeyError] of the first such token. *)
Theorem C8_convert_songs_to_int `{Collaborators} (fs : filesystem) (songs fp : string)
    (vocabulary_mapping : gmap string Z) :
  fs !! MAPPINGS_PATH = Some fp ->
  json_load fp = Py.Ok vocabulary_mapping ->
  ((exists ids, convert_songs_to_int fs songs = Py.Ok ids)
   <-> (forall t, t ∈ Py.split songs -> is_Some (vocabulary_mapping !! t)))
  /\ (forall ids, convert_songs_to_int fs songs = Py.Ok ids ->
        length ids = length (Py.split songs)
        /\ Forall2 (fun t id => vocabulary_mapping !! t = Some id) (Py.split songs) ids)
  /\ (forall pre t post, Py.split songs = pre ++ t :: post ->
        (forall x, x ∈ pre -> is_Some (vocabulary_mapping !! x)) ->
        vocabulary_mapping !! t = None ->
        convert_songs_to_int fs songs = Py.Raise (Py.KeyError t)).
Proof.
  intros Hfile Hjson.
  assert (convert_songs_to_int fs songs = map_to_int vocabulary_mapping (Py.split songs))
    as ->.
  { unfold convert_songs_to_int, load. rewrite Hfile. simpl. by rewrite Hjson. }
  split; [apply map_to_int_succeeds|].
  split.
  - intros ids Hids. apply map_to_int_ok in Hids.
    split; [|done]. symmetry. by eapply Forall2_length.
  - intros pre t post -> Hpre Ht. by apply map_to_int_missing.
Qed.

Lemma C8_convert_songs_to_int_witness :
  let fs : filesystem := {[ MAPPINGS_PATH := "60 _ r 62" ]} in
  let songs := "60 _ r 62 _" in
  let vocabulary_mapping := dict_of_enumeration ["60"; "_"; "r"; "62"] in
  ((exists ids, convert_songs_to_int (H := Sample.collaborators) fs songs = Py.Ok ids)
   <-> (forall t, t ∈ Py.split songs -> is_Some (vocabulary_mapping !! t)))
  /\ (forall ids, convert_songs_to_int (H := Sample.collaborators) fs songs = Py.Ok ids ->
        length ids = length (Py.split songs)
        /\ Forall2 (fun t id => vocabulary_mapping !! t = Some id) (Py.split songs) ids)
  /\ (forall pre t post, Py.split songs = pre ++ t :: post ->
        (forall x, x ∈ pre -> is_Some (vocabulary_mapping !! x)) ->
        vocabulary_mapping !! t = None ->
        convert_songs_to_int (H := Sample.collaborators) fs songs = Py.Raise (Py.KeyError t)).
Proof.
  apply (C8_convert_songs_to_int (H := Sample.collaborators)
           {[ MAPPINGS_PATH := "60 _ r 62" ]} "60 _ r 62 _" "60 _ r 62"
           (dict_of_enumeration ["60"; "_"; "r"; "62"])).
  - reflexivity.
  - reflexivity.
Defined.




(** The worked example of the specification, run through the whole
    pipeline with the sample collaborators: the corpus [60 _ r 62] gets
    the vocabulary 60:0, _:1, r:2, 62:3, the integer corpus [0;1;2;3], and
    with a window of width 2 the contexts [[0;1];[1;2]] (one-hot encoded
    below) and the targets [2;3]. *)
Example end_to_end :
  let songs := "60 _ r 62" in
  let fs := write (create_mapping (H := Sample.collaborators) ∅ songs MAPPINGS_PATH)
                  UNIVERSAL_DATASET songs in
  convert_songs_to_int (H := Sample.collaborators) fs songs = Py.Ok [0; 1; 2; 3]
  /\ training_windows [0; 1; 2; 3] 2 = Py.Ok ([[0; 1]; [1; 2]], [2; 3])
  /\ generate_training_sequences (H := Sample.collaborators) fs 2
     = Py.Ok ({| shape := [2; 2; 4];
                 data := [1; 0; 0; 0; 0; 1; 0; 0; 0; 1; 0; 0; 0; 0; 1; 0] |}, [2; 3]).
Proof. repeat split; vm_compute; reflexivity. Qed.

(* ===================================================================== *)
(** * Further properties of the encoder and of the duration filter        *)
(* ===================================================================== *)

Lemma encode_song_nil (time_step : Q) : encode_song [] time_step = Py.Ok "".
Proof. reflexivity. Qed.

Lemma step_count_zero (e : event) (time_step : Q) :
  (time_step == 0)%Q ->
  step_count e time_step
  = (let* _ := Py.float (quarterLength e) in Py.Raise Py.ZeroDivisionError).
Proof.
  intros Hz. unfold step_count. rewrite (truediv_zero _ _ Hz).
  by destruct (Py.float (quarterLength e)).
Qed.

Lemma step_count_floats (e : event) (time_step : Q) :
  Py.is_float (quarterLength e) = true -> Py.is_float time_step = true ->
  ~ (time_step == 0)%Q ->
  step_count e time_step
  = match Binary64.round (quarterLength e / time_step) with
    | Some f => Py.Ok (Py.trunc f)
    | None => Py.Raise Py.OverflowError
    end.
Proof.
  intros Hd Hts Hne. unfold step_count, Py.truediv. rewrite Hd. simpl.
  destruct (float_of_float _ Hd) as (x & -> & Ex).
  destruct (float_of_float _ Hts) as (y & -> & Ey). simpl.
  assert (Qeq_bool y 0 = false) as ->.
  { apply not_true_is_false. intros E. apply Qeq_bool_iff in E.
    apply Hne. by rewrite <- Ey. }
  assert (x / y == quarterLength e / time_step)%Q as Exy by (by rewrite Ex, Ey).
  rewrite (Binary64Facts.round_proper _ _ Exy).
  by destruct (Binary64.round (quarterLength e / time_step)).
Qed.

(** The errors of [encode_song], for a score of notes and rests and a
    finite time step. An empty score is encoded as the empty string
    whatever the time step. Otherwise the call returns when every step
    count is computed, and raises the error of the first event whose step
    count raises. With a zero time step every step count raises:
    [ZeroDivisionError], after the conversion of the duration to float,
    which raises [OverflowError] for a [Fraction] that is too large.
    Between two floats, with a time step that is not zero, the step count
    is the truncation of the rounded quotient, and it raises, with
    [OverflowError], exactly when the quotient is too large for a float. *)
Theorem encode_song_raises_the_first_step_error (song : score) (time_step : Q) :
  encode_song [] time_step = Py.Ok ""
  /\ ((exists encoded_song, encode_song song time_step = Py.Ok encoded_song)
      <-> Forall (counted time_step) song)
  /\ (forall err : Py.error,
        encode_song song time_step = Py.Raise err
        <-> exists pre e post,
              song = pre ++ e :: post /\ Forall (counted time_step) pre
              /\ step_count e time_step = Py.Raise err)
  /\ (forall e : event, (time_step == 0)%Q ->
        step_count e time_step
        = (let* _ := Py.float (quarterLength e) in Py.Raise Py.ZeroDivisionError))
  /\ (forall e : event,
        Py.is_float (quarterLength e) = true -> Py.is_float time_step = true ->
        ~ (time_step == 0)%Q ->
        step_count e time_step
        = match Binary64.round (quarterLength e / time_step) with
          | Some f => Py.Ok (Py.trunc f)
          | None => Py.Raise Py.OverflowError
          end).
Proof.
  split; [reflexivity|]. split; [|split; [|split]].
  - split.
    + intros [encoded_song Henc]. by eapply encode_song_counted.
    + intros Hc. eexists. by apply encode_song_ok.
  - intros err. split.
    + intros Herr.
      destruct (counted_or_raise song time_step)
        as [Hc|(pre & e & post & err' & -> & Hpre & He)].
      { by rewrite (encode_song_ok song time_step Hc) in Herr. }
      rewrite (encode_song_raise pre post e time_step err' Hpre He) in Herr.
      injection Herr as <-. by exists pre, e, post.
    + intros (pre & e & post & -> & Hpre & He). by apply encode_song_raise.
  - intros e Hz. by apply step_count_zero.
  - intros e. apply step_count_floats.
Qed.

(** The smallest positive float as time step: the quotient of a quarter
    note overflows and [int] raises. *)
Example encode_song_overflow :
  encode_song [Note 60 1] (Binary64.pow2 (-1074)) = Py.Raise Py.OverflowError.
Proof. vm_compute. reflexivity. Qed.

Lemma event_tokens_printed (time_step : Q) (e : event) (t : string) :
  t ∈ map py_str (event_tokens time_step e) ->
  t = "_" \/ t = py_str (encoding_symbol e).
Proof.
  unfold event_tokens, emit_steps. rewrite map_map.
  intros Ht. apply list_elem_of_fmap in Ht as (step & -> & _).
  destruct (step =? 0); [by right|by left].
Qed.

(** Every token of an encoded song is the hold token, the rest token of a
    rest of the score, or the decimal numeral of the MIDI number of one of
    its notes; the delimiter token of the corpus never occurs in it. *)
Theorem encode_song_alphabet (song : score) (time_step : Q) (encoded_song : string) :
  encode_song song time_step = Py.Ok encoded_song ->
  forall t, t ∈ Py.split encoded_song ->
    t <> delimiter_token
    /\ (t = "_"
        \/ (t = "r" /\ exists d, Rest d ∈ song)
        \/ (exists midi d, Note midi d ∈ song /\ t = Py.str_int midi)).
Proof.
  intros Henc t Ht.
  assert (Forall printed_token (Py.split encoded_song)) as Hprinted.
  { apply token_file_tokens. by exists song, time_step. }
  split.
  { apply printed_token_not_delimiter.
    by apply (proj1 (Forall_forall _ _) Hprinted). }
  rewrite (encode_song_ok song time_step (encode_song_counted _ _ _ Henc)) in Henc.
  injection Henc as <-.
  rewrite split_encoded in Ht. clear Hprinted.
  induction song as [|e song IH]; [by apply elem_of_nil in Ht|].
  cbn [map concat] in Ht. rewrite map_app in Ht.
  apply elem_of_app in Ht as [Ht|Ht].
  - apply event_tokens_printed in Ht as [-> | ->]; [by left|].
    destruct e as [midi d|d]; simpl.
    + right; right. exists midi, d. split; [by left|done].
    + right; left. split; [done|]. exists d. by left.
  - destruct (IH Ht) as [?|[[? [d Hd]]|[midi [d [Hn ?]]]]].
    + by left.
    + right; left. split; [done|]. exists d. by right.
    + right; right. exists midi, d. split; [by right|done].
Qed.

Lemma encode_song_alphabet_witness :
  "60" <> delimiter_token
  /\ ("60" = "_"
      \/ ("60" = "r" /\ exists d, Rest d ∈ [Note 60 (1 # 2); Rest (1 # 4)])
      \/ (exists midi d,
            Note midi d ∈ [Note 60 (1 # 2); Rest (1 # 4)] /\ "60" = Py.str_int midi)).
Proof.
  apply (encode_song_alphabet [Note 60 (1 # 2); Rest (1 # 4)] default_time_step
           "60 _ r").
  - vm_compute. reflexivity.
  - vm_compute. left.
Defined.

(** Where the quotient is computed without rounding, an event is encoded
    on [k = int(duration / time_step)] tokens, and [k] steps are the
    largest whole number of steps that fit in its duration:
    [k * time_step <= duration < (k + 1) * time_step]. *)
Theorem step_count_truncates (e : event) (time_step : Q) :
  (0 < time_step)%Q -> (0 <= quarterLength e)%Q ->
  exact_quotient (quarterLength e) time_step ->
  exists k : Z,
    step_count e time_step = Py.Ok k
    /\ Py.len (event_tokens time_step e) = k
    /\ (inject_Z k * time_step <= quarterLength e)%Q
    /\ (quarterLength e < (inject_Z k + 1) * time_step)%Q.
Proof.
  intros Hts Hd Hex.
  pose proof (step_count_exact e time_step Hex) as Hk.
  exists (Py.trunc (quarterLength e / time_step)). split; [done|].
  assert (~ (time_step == 0)%Q) as Hne.
  { intros E. rewrite E in Hts. by apply Qlt_irrefl in Hts. }
  assert (0 <= quarterLength e / time_step)%Q as Hq.
  { apply Qle_shift_div_l; [done|]. by rewrite Qmult_0_l. }
  destruct (trunc_floor _ Hq) as [Hlo Hhi].
  assert (quarterLength e == (quarterLength e / time_step) * time_step)%Q as Hd'.
  { rewrite Qmult_comm. symmetry. by apply Qmult_div_r. }
  pose proof (trunc_nonneg _ Hq) as Hk0.
  set (k := Py.trunc (quarterLength e / time_step)) in *.
  split; [|split].
  - unfold Py.len, event_tokens. rewrite length_emit_steps.
    rewrite (step_count_steps e time_step _ Hk). lia.
  - rewrite Hd' at 1. apply Qmult_le_compat_r; [done|]. by apply Qlt_le_weak.
  - rewrite Hd' at 1. by apply Qmult_lt_compat_r.
Qed.

Lemma step_count_truncates_witness :
  let e := Note 60 (5 # 8) in
  exists k : Z,
    step_count e default_time_step = Py.Ok k
    /\ Py.len (event_tokens default_time_step e) = k
    /\ (inject_Z k * default_time_step <= quarterLength e)%Q
    /\ (quarterLength e < (inject_Z k + 1) * default_time_step)%Q.
Proof.
  apply (step_count_truncates (Note 60 (5 # 8)) default_time_step).
  - reflexivity.
  - discriminate.
  - exists (5 # 2)%Q. split; [vm_compute; reflexivity|reflexivity].
Defined.

(** The events that last at least one step. *)
Lemma decode_go_any_song (song : score) (time_step : Q) :
  decode_go (map py_str (concat (map (event_tokens time_step) song)))
  = Some (0, map (fun e => (symbol_of_event e, steps e time_step))
                 (List.filter (fun e => 1 <=? steps e time_step) song)).
Proof.
  induction song as [|e song IH]; [reflexivity|].
  cbn [map concat List.filter].
  destruct (Z.leb_spec 1 (steps e time_step)) as [Hk|Hk].
  - unfold event_tokens at 1. rewrite emit_steps_pos by done.
    rewrite map_app. cbn [map app].
    rewrite List.map_repeat. cbn [py_str decode_go].
    rewrite (decode_go_holds _ _ _ _ IH).
    rewrite symbol_not_hold, parse_symbol_printed.
    do 4 f_equal. lia.
  - unfold event_tokens at 1. rewrite emit_steps_nonpos by lia.
    exact IH.
Qed.

(** What the encoding keeps of a score: read back, an encoded song gives
    the events whose step count, as Python computes it, is at least one,
    in order, each with its symbol and that step count; the events with
    no step are absent and the durations are known only through the step
    counts. *)
Theorem decode_encode_keeps_whole_steps (song : score) (time_step : Q)
    (encoded_song : string) :
  encode_song song time_step = Py.Ok encoded_song ->
  Forall (fun e => step_count e time_step = Py.Ok (steps e time_step)) song
  /\ decode_runs (Py.split encoded_song)
     = Some (map (fun e => (symbol_of_event e, steps e time_step))
                 (List.filter (fun e => 1 <=? steps e time_step) song))
  /\ decode_song encoded_song time_step
     = Some (map (fun e => event_of_run time_step
                             (symbol_of_event e, steps e time_step))
                 (List.filter (fun e => 1 <=? steps e time_step) song)).
Proof.
  intros Henc.
  pose proof (encode_song_counted _ _ _ Henc) as Hc.
  rewrite (encode_song_ok song time_step Hc) in Henc. injection Henc as <-.
  split.
  { eapply Forall_impl; [exact Hc|]. intros e He. by apply counted_steps. }
  assert (decode_runs (Py.split (Py.join " "
            (map py_str (concat (map (event_tokens time_step) song)))))
          = Some (map (fun e => (symbol_of_event e, steps e time_step))
                      (List.filter (fun e => 1 <=? steps e time_step) song)))
    as Hruns.
  { unfold decode_runs. by rewrite split_encoded, decode_go_any_song. }
  split; [exact Hruns|].
  unfold decode_song. rewrite Hruns. simpl. by rewrite map_map.
Qed.

Lemma decode_encode_keeps_whole_steps_witness :
  let song := [Note 60 (3 # 5); Rest (1 # 8); Note 62 (1 # 4)] in
  let encoded_song := "60 _ 62" in
  Forall (fun e => step_count e default_time_step
                   = Py.Ok (steps e default_time_step)) song
  /\ decode_runs (Py.split encoded_song)
     = Some (map (fun e => (symbol_of_event e, steps e default_time_step))
                 (List.filter (fun e => 1 <=? steps e default_time_step) song))
  /\ decode_song encoded_song default_time_step
     = Some (map (fun e => event_of_run default_time_step
                             (symbol_of_event e, steps e default_time_step))
                 (List.filter (fun e => 1 <=? steps e default_time_step) song)).
Proof.
  apply (decode_encode_keeps_whole_steps
           [Note 60 (3 # 5); Rest (1 # 8); Note 62 (1 # 4)] default_time_step
           "60 _ 62").
  vm_compute. reflexivity.
Defined.

(** The events are encoded one by one: the tokens of two scores put end
    to end are the tokens of the first followed by those of the second,
    and the call raises as soon as one of the two does. *)
Theorem encoded_tokens_app (song1 song2 : score) (time_step : Q) :
  encoded_tokens (song1 ++ song2) time_step
  = (let* tokens1 := encoded_tokens song1 time_step in
     let* tokens2 := encoded_tokens song2 time_step in
     Py.Ok (tokens1 ++ tokens2)).
Proof.
  destruct (counted_or_raise song1 time_step)
    as [Hc1|(pre & e & post & err & -> & Hpre & He)].
  - rewrite (encoded_tokens_ok song1 time_step Hc1). simpl.
    destruct (counted_or_raise song2 time_step)
      as [Hc2|(pre & e & post & err & -> & Hpre & He)].
    + rewrite (encoded_tokens_ok song2 time_step Hc2). simpl.
      rewrite encoded_tokens_ok by (by apply Forall_app).
      by rewrite map_app, concat_app.
    + unfold encoded_tokens, notesAndRests.
      rewrite (encode_events_raise pre post e time_step [] err Hpre He). simpl.
      rewrite List.app_assoc.
      apply encode_events_raise; [by apply Forall_app|done].
  - unfold encoded_tokens, notesAndRests.
    rewrite (encode_events_raise pre post e time_step [] err Hpre He). simpl.
    rewrite <- List.app_assoc. cbn [app].
    by apply encode_events_raise.
Qed.

(** With a negative time step no token is ever emitted: every step count
    of a score with non-negative durations that is computed is at most 0;
    the encoded song is the empty string when every step count is
    computed, and the call raises otherwise (a quotient too large for a
    float), so that it never returns anything but the empty string. *)
Theorem encode_song_negative_step (song : score) (time_step : Q) :
  (time_step < 0)%Q ->
  Forall (fun e => (0 <= quarterLength e)%Q) song ->
  (forall (e : event) (k : Z), e ∈ song -> step_count e time_step = Py.Ok k -> k <= 0)
  /\ (Forall (counted time_step) song -> encode_song song time_step = Py.Ok "")
  /\ (forall encoded_song : string,
        encode_song song time_step = Py.Ok encoded_song -> encoded_song = "").
Proof.
  intros Hts Hsong.
  assert (Forall (counted time_step) song -> encode_song song time_step = Py.Ok "")
    as Hok.
  { intros Hc. rewrite encode_song_ok by done.
    assert (concat (map (event_tokens time_step) song) = []) as ->; [|reflexivity].
    clear Hc. induction Hsong as [|e song He Hsong IH]; [reflexivity|].
    cbn [map concat]. rewrite IH, app_nil_r.
    unfold event_tokens. by apply emit_steps_nonpos, step_count_nonpos. }
  split; [|split; [exact Hok|]].
  - intros e k He Hk. rewrite Forall_forall in Hsong.
    rewrite <- (step_count_steps e time_step k Hk).
    apply step_count_nonpos; [done|by apply Hsong].
  - intros encoded_song Henc.
    rewrite (Hok (encode_song_counted _ _ _ Henc)) in Henc. by injection Henc as <-.
Qed.

Lemma encode_song_negative_step_witness :
  let song := [Note 60 1; Rest (1 # 2)] in
  let time_step := (- (1 # 4))%Q in
  (forall (e : event) (k : Z), e ∈ song -> step_count e time_step = Py.Ok k -> k <= 0)
  /\ (Forall (counted time_step) song -> encode_song song time_step = Py.Ok "")
  /\ (forall encoded_song : string,
        encode_song song time_step = Py.Ok encoded_song -> encoded_song = "").
Proof.
  apply (encode_song_negative_step [Note 60 1; Rest (1 # 2)] (- (1 # 4))).
  - reflexivity.
  - repeat constructor; discriminate.
Defined.

Lemma has_acceptable_note_durations_true (song : score) (D : list Q) :
  has_acceptable_note_durations song D = true
  <-> forall e, e ∈ song -> is_note e = true ->
                exists d, d ∈ D /\ (quarterLength e == d)%Q.
Proof.
  split.
  - intros Hacc e He Hnote.
    destruct (Py.contains (quarterLength e) D) eqn:Hin.
    + unfold Py.contains in Hin. apply existsb_exists in Hin as (d & Hd & Hq).
      exists d. split; [by apply list_elem_of_In|by apply Qeq_bool_iff].
    + assert (has_acceptable_note_durations song D = false) as Hrej.
      { apply has_acceptable_note_durations_false. by exists e. }
      congruence.
  - intros Hall.
    destruct (has_acceptable_note_durations song D) eqn:Hacc; [done|].
    apply has_acceptable_note_durations_false in Hacc as (e & He & Hnote & Hin).
    destruct (Hall e He Hnote) as (d & Hd & Hq).
    assert (Py.contains (quarterLength e) D = true) as Hin'.
    { unfold Py.contains. apply existsb_exists. exists d.
      split; [by apply list_elem_of_In|by apply Qeq_bool_iff]. }
    congruence.
Qed.

(** What the duration filter looks at: it accepts a score exactly when
    every pitched event has a duration that equals a member of the list;
    the rests play no part, so a score and its pitched events alone get
    the same answer, and two scores put end to end are accepted exactly
    when both are. *)
Theorem filter_reads_pitched_events_only (song song' : score) (D : list Q) :
  (has_acceptable_note_durations song D = true
   <-> forall e, e ∈ song -> is_note e = true ->
                 exists d, d ∈ D /\ (quarterLength e == d)%Q)
  /\ has_acceptable_note_durations (notes song) D
     = has_acceptable_note_durations song D
  /\ has_acceptable_note_durations (song ++ song') D
     = has_acceptable_note_durations song D
       && has_acceptable_note_durations song' D.
Proof.
  split; [apply has_acceptable_note_durations_true|split].
  - unfold has_acceptable_note_durations, notes. f_equal.
    induction song as [|e song IH]; [reflexivity|]. simpl.
    destruct (is_note e) eqn:Hn; simpl; [by rewrite Hn, IH|done].
  - unfold has_acceptable_note_durations, notes. rewrite List.filter_app.
    induction (List.filter is_note song) as [|e l IH]; [reflexivity|].
    simpl. by destruct (negb (Py.contains (quarterLength e) D)).
Qed.

(** The filter and the encoder together: in a score accepted with the
    list of the pipeline, every pitched event lasts a whole number of
    default time steps (1, 2, 3, 4, 6, 8, 12 or 16), so its run of tokens
    carries its exact duration. *)
Theorem accepted_notes_are_whole_steps (song : score) (e : event) :
  has_acceptable_note_durations song ACCEPTABLE_DURATIONS = true ->
  e ∈ song -> is_note e = true ->
  exists k : Z,
    step_count e default_time_step = Py.Ok k
    /\ In k [1; 2; 3; 4; 6; 8; 12; 16]
    /\ (quarterLength e == inject_Z k * default_time_step)%Q.
Proof.
  intros Hacc He Hnote.
  destruct (proj1 (has_acceptable_note_durations_true song _) Hacc e He Hnote)
    as (d & Hd & Hq).
  assert (step_count e default_time_step = step_count (Rest d) default_time_step)
    as Hsame by (by apply step_count_proper).
  rewrite Hsame.
  unfold ACCEPTABLE_DURATIONS in Hd.
  repeat (apply elem_of_cons in Hd as [->|Hd]); [..|by apply elem_of_nil in Hd].
  - exists 1. split; [vm_compute; reflexivity|]. split; [simpl; tauto|by rewrite Hq].
  - exists 2. split; [vm_compute; reflexivity|]. split; [simpl; tauto|by rewrite Hq].
  - exists 3. split; [vm_compute; reflexivity|]. split; [simpl; tauto|by rewrite Hq].
  - exists 4. split; [vm_compute; reflexivity|]. split; [simpl; tauto|by rewrite Hq].
  - exists 6. split; [vm_compute; reflexivity|]. split; [simpl; tauto|by rewrite Hq].
  - exists 8. split; [vm_compute; reflexivity|]. split; [simpl; tauto|by rewrite Hq].
  - exists 12. split; [vm_compute; reflexivity|]. split; [simpl; tauto|by rewrite Hq].
  - exists 16. split; [vm_compute; reflexivity|]. split; [simpl; tauto|by rewrite Hq].
Qed.

Lemma accepted_notes_are_whole_steps_witness :
  let e := Note 62 (3 # 2) in
  exists k : Z,
    step_count e default_time_step = Py.Ok k
    /\ In k [1; 2; 3; 4; 6; 8; 12; 16]
    /\ (quarterLength e == inject_Z k * default_time_step)%Q.
Proof.
  apply (accepted_notes_are_whole_steps [Rest (1 # 8); Note 62 (3 # 2)] (Note 62 (3 # 2))).
  - reflexivity.
  - right. left.
  - reflexivity.
Defined.
(* ===================================================================== *)
(** * Further properties of the corpus and of the vocabulary              *)
(* ===================================================================== *)

Lemma labelled_from_tokens (n : Z) (k : nat) (songs : list string) :
  map snd (labelled_from n k songs)
  = concat (map (fun song => Py.split song
                             ++ replicate (Z.to_nat n) delimiter_token) songs).
Proof.
  revert k. induction songs as [|song songs IH]; intros k; [reflexivity|].
  cbn [labelled_from map concat]. rewrite map_app, (IH (S k)).
  unfold labelled_block. rewrite map_app, map_map, map_replicate.
  cbn [snd]. by rewrite map_id.
Qed.

Lemma length_concat_blocks (n : nat) (songs : list string) :
  Z.of_nat (length (concat (map (fun song => Py.split song
                                  ++ replicate n delimiter_token) songs)))
  = fold_right (fun song acc => Py.len (Py.split song) + acc) 0 songs
    + Z.of_nat n * Py.len songs.
Proof.
  unfold Py.len. induction songs as [|song songs IH]; [simpl; lia|].
  cbn [map concat fold_right length].
  rewrite !length_app, length_replicate, !Nat2Z.inj_add, IH. lia.
Qed.

(** The corpus, token by token: for any files and any sequence length,
    [create_universal_dataset] succeeds; the tokens of its corpus are, file
    after file in the order of the walk, the tokens of the file followed
    by [sequence_length] delimiter tokens (none when the length is not
    positive, so that the scores then follow one another unseparated); the
    corpus is what the dataset file holds afterwards, and no other file
    changes. *)
Theorem corpus_tokens_and_file `{Collaborators} (fs : filesystem)
    (songs_dir dataset_path : string) (sequence_length : Z) :
  let songs := walked_contents fs songs_dir in
  exists (corpus : string) (fs' : filesystem),
    create_universal_dataset fs songs_dir dataset_path sequence_length
    = Py.Ok (corpus, fs')
    /\ Py.split corpus
       = concat (map (fun song => Py.split song
                       ++ replicate (Z.to_nat sequence_length) delimiter_token)
                     songs)
    /\ Py.len (Py.split corpus)
       = fold_right (fun song acc => Py.len (Py.split song) + acc) 0 songs
         + Z.max 0 sequence_length * Py.len songs
    /\ load fs' dataset_path = Py.Ok corpus
    /\ (forall p, p <> dataset_path -> fs' !! p = fs !! p).
Proof.
  intros songs.
  exists (Py.drop_last (assembled sequence_length songs)).
  eexists. split; [apply create_universal_dataset_ok|].
  assert (Py.split (Py.drop_last (assembled sequence_length songs))
          = concat (map (fun song => Py.split song
                          ++ replicate (Z.to_nat sequence_length) delimiter_token)
                        songs)) as Htokens.
  { rewrite split_drop_last by apply assembled_cases.
    rewrite split_assembled. apply labelled_from_tokens. }
  split; [exact Htokens|].
  split.
  { rewrite Htokens. unfold Py.len at 1. rewrite length_concat_blocks.
    f_equal. f_equal. lia. }
  split.
  - unfold load, write. by rewrite lookup_insert_eq.
  - intros p Hp. unfold write. by rewrite lookup_insert_ne.
Qed.

(** A training pair never mixes two scores: in the assembled corpus, when
    the target of the pair taken at position [i] is a token of a score,
    every token of a score in its context of [sequence_length] tokens is a
    token of that same score. *)
Theorem training_pair_within_one_score `{Collaborators} (fs : filesystem)
    (songs_dir dataset_path : string) (sequence_length i : Z) :
  0 <= sequence_length -> 0 <= i ->
  let labelled := labelled_corpus sequence_length (walked_contents fs songs_dir) in
  exists corpus : string,
    create_universal_dataset fs songs_dir dataset_path sequence_length
    = Py.Ok (corpus, write fs dataset_path corpus)
    /\ Py.split corpus = map snd labelled
    /\ (forall a b ta tb,
          (FromScore a, ta) ∈ Py.slice labelled i (i + sequence_length) ->
          Py.getitem labelled (i + sequence_length) = Py.Ok (FromScore b, tb) ->
          a = b).
Proof.
  intros Hn Hi labelled.
  exists (Py.drop_last (assembled sequence_length (walked_contents fs songs_dir))).
  split; [apply create_universal_dataset_ok|].
  split.
  { rewrite split_drop_last by apply assembled_cases. apply split_assembled. }
  intros a b ta tb Ha Hb.
  apply elem_of_window in Ha as (j & Hj & Ha); [|done..].
  apply getitem_Ok_lookup in Hb; [|lia].
  destruct (decide (a = b)) as [|Hab]; [done|exfalso].
  pose proof (separation _ _ 0 _ _ _ _ _ _ Ha Hb) as Hsep. lia.
Qed.

Lemma training_pair_within_one_score_witness :
  let fs : filesystem := {[ "d/0" := "60 _ r"; "d/1" := "62 _ _ _" ]} in
  let labelled :=
    labelled_corpus 4 (walked_contents (H := Sample.collaborators) fs "d") in
  exists corpus : string,
    create_universal_dataset (H := Sample.collaborators) fs "d" "out" 4
    = Py.Ok (corpus, write fs "out" corpus)
    /\ Py.split corpus = map snd labelled
    /\ (forall a b ta tb,
          (FromScore a, ta) ∈ Py.slice labelled 4 (4 + 4) ->
          Py.getitem labelled (4 + 4) = Py.Ok (FromScore b, tb) ->
          a = b).
Proof.
  apply (training_pair_within_one_score (H := Sample.collaborators)
           {[ "d/0" := "60 _ r"; "d/1" := "62 _ _ _" ]} "d" "out" 4 4); lia.
Defined.

(** The dictionary of [create_mapping], by position in the enumeration of
    the set. *)
Lemma build_mappings_lookup `{Collaborators} (songs t : string) (i : Z) :
  build_mappings songs !! t = Some i
  <-> 0 <= i /\ set_list (Py.split songs) !! Z.to_nat i = Some t.
Proof.
  unfold build_mappings. rewrite (right_id_L ∅ (∪)).
  apply dict_of_enumeration_lookup, set_list_NoDup.
Qed.

Lemma length_set_list `{Collaborators} (l : list string) :
  length (set_list l) = size (list_to_set l : gset string).
Proof.
  rewrite <- (size_list_to_set (C:=gset string) (set_list l))
    by apply set_list_NoDup.
  f_equal. apply set_eq. intros x.
  by rewrite !elem_of_list_to_set, set_list_elem.
Qed.

Lemma build_mappings_total `{Collaborators} (songs t : string) :
  t ∈ Py.split songs -> exists i, build_mappings songs !! t = Some i.
Proof.
  intros Ht. apply set_list_elem in Ht.
  apply list_elem_of_lookup in Ht as [j Hj].
  exists (Z.of_nat j). apply build_mappings_lookup.
  rewrite Nat2Z.id. split; [lia|done].
Qed.

Lemma convert_after_create_mapping_eq `{Collaborators} (fs : filesystem)
    (songs corpus : string) :
  json_load (json_dump (build_mappings songs)) = Py.Ok (build_mappings songs) ->
  convert_songs_to_int (create_mapping fs songs MAPPINGS_PATH) corpus
  = map_to_int (build_mappings songs) (Py.split corpus).
Proof.
  intros Hjson. unfold convert_songs_to_int, load, create_mapping, write.
  rewrite lookup_insert_eq. simpl. by rewrite Hjson.
Qed.

(** Building the vocabulary from a corpus and then converting that same
    corpus never meets an unknown token: when the JSON codec reads back
    the table it wrote, [convert_songs_to_int] returns one id per token,
    every id lies in [[0, N)], [N] the number of distinct tokens, and two
    positions carry the same id exactly when they carry the same token. *)
Theorem convert_after_create_mapping `{Collaborators} (fs : filesystem) (songs : string) :
  json_load (json_dump (build_mappings songs)) = Py.Ok (build_mappings songs) ->
  let N := Z.of_nat (size (list_to_set (Py.split songs) : gset string)) in
  exists ids : list Z,
    convert_songs_to_int (create_mapping fs songs MAPPINGS_PATH) songs = Py.Ok ids
    /\ Py.len ids = Py.len (Py.split songs)
    /\ Forall (fun id => 0 <= id < N) ids
    /\ (forall i j ti tj idi idj,
          Py.split songs !! i = Some ti -> Py.split songs !! j = Some tj ->
          ids !! i = Some idi -> ids !! j = Some idj ->
          (idi = idj <-> ti = tj)).
Proof.
  intros Hjson N.
  rewrite convert_after_create_mapping_eq by done.
  destruct (proj2 (map_to_int_succeeds (build_mappings songs) (Py.split songs)))
    as [ids Hids].
  { intros t Ht. destruct (build_mappings_total songs t Ht) as [i Hi]. by exists i. }
  exists ids. split; [done|].
  apply map_to_int_ok in Hids.
  split; [unfold Py.len; f_equal; symmetry; by eapply Forall2_length|].
  split.
  - apply Forall_forall. intros id Hid.
    apply list_elem_of_lookup in Hid as [j Hj].
    destruct (Forall2_lookup_r _ _ _ _ _ Hids Hj) as (t & Ht & Hlook).
    apply build_mappings_lookup in Hlook as [H0 Hlook].
    apply lookup_lt_Some in Hlook. rewrite length_set_list in Hlook.
    unfold N. lia.
  - intros i j ti tj idi idj Hti Htj Hidi Hidj.
    destruct (Forall2_lookup_l _ _ _ _ _ Hids Hti) as (idi' & Hidi' & Hli).
    destruct (Forall2_lookup_l _ _ _ _ _ Hids Htj) as (idj' & Hidj' & Hlj).
    assert (idi' = idi) as -> by congruence.
    assert (idj' = idj) as -> by congruence.
    split.
    + intros ->. apply build_mappings_lookup in Hli as [_ Hli].
      apply build_mappings_lookup in Hlj as [_ Hlj]. congruence.
    + intros ->. congruence.
Qed.

Lemma convert_after_create_mapping_witness :
  let songs := "60 _ r 62 _" in
  let N := Z.of_nat (size (list_to_set (Py.split songs) : gset string)) in
  exists ids : list Z,
    convert_songs_to_int (H := Sample.collaborators)
      (create_mapping (H := Sample.collaborators) ∅ songs MAPPINGS_PATH) songs
    = Py.Ok ids
    /\ Py.len ids = Py.len (Py.split songs)
    /\ Forall (fun id => 0 <= id < N) ids
    /\ (forall i j ti tj idi idj,
          Py.split songs !! i = Some ti -> Py.split songs !! j = Some tj ->
          ids !! i = Some idi -> ids !! j = Some idj ->
          (idi = idj <-> ti = tj)).
Proof.
  apply (convert_after_create_mapping (H := Sample.collaborators) ∅ "60 _ r 62 _").
  vm_compute. reflexivity.
Defined.

(** The ids of a corpus converted with its own vocabulary are exactly the
    integers below the number of distinct tokens. *)
Lemma converted_ids_cover `{Collaborators} (songs : string) (ids : list Z) :
  Forall2 (fun t id => build_mappings songs !! t = Some id) (Py.split songs) ids ->
  forall id, id ∈ ids
             <-> id ∈ map Z.of_nat (seq 0 (length (set_list (Py.split songs)))).
Proof.
  intros Hids id. split.
  - intros Hid. apply list_elem_of_lookup in Hid as [j Hj].
    destruct (Forall2_lookup_r _ _ _ _ _ Hids Hj) as (t & Ht & Hlook).
    apply build_mappings_lookup in Hlook as [H0 Hlook].
    apply lookup_lt_Some in Hlook.
    apply list_elem_of_fmap. exists (Z.to_nat id).
    split; [lia|]. apply elem_of_seq. lia.
  - intros Hid. apply list_elem_of_fmap in Hid as (j & -> & Hj).
    apply elem_of_seq in Hj.
    destruct (lookup_lt_is_Some_2 (set_list (Py.split songs)) j) as [t Ht]; [lia|].
    assert (t ∈ Py.split songs) as Hin.
    { apply set_list_elem, list_elem_of_lookup. eauto. }
    apply list_elem_of_lookup in Hin as [p Hp].
    destruct (Forall2_lookup_l _ _ _ _ _ Hids Hp) as (id & Hid & Hlook).
    apply build_mappings_lookup in Hlook as [H0 Hlook].
    assert (Z.to_nat id = j) as Hidj.
    { eapply NoDup_lookup; [apply set_list_NoDup|exact Hlook|exact Ht]. }
    apply list_elem_of_lookup. exists p. rewrite Hid. f_equal. lia.
Qed.

(** The width of the one-hot encoding fits the vocabulary: for a corpus
    converted with the vocabulary built from it, [len(set(int_songs))] is
    the number of distinct tokens of the corpus, and every id is below
    it. *)
Theorem one_hot_width_is_vocabulary_size `{Collaborators} (fs : filesystem)
    (songs : string) :
  json_load (json_dump (build_mappings songs)) = Py.Ok (build_mappings songs) ->
  exists int_songs : list Z,
    convert_songs_to_int (create_mapping fs songs MAPPINGS_PATH) songs
    = Py.Ok int_songs
    /\ vocabulary_size int_songs
       = Z.of_nat (size (list_to_set (Py.split songs) : gset string))
    /\ vocabulary_size int_songs = Z.of_nat (size (build_mappings songs))
    /\ Forall (fun id => 0 <= id < vocabulary_size int_songs) int_songs.
Proof.
  intros Hjson.
  rewrite convert_after_create_mapping_eq by done.
  destruct (proj2 (map_to_int_succeeds (build_mappings songs) (Py.split songs)))
    as [ids Hids].
  { intros t Ht. destruct (build_mappings_total songs t Ht) as [i Hi]. by exists i. }
  exists ids. split; [done|].
  apply map_to_int_ok in Hids.
  assert (vocabulary_size ids = Z.of_nat (length (set_list (Py.split songs)))) as Hsize.
  { unfold vocabulary_size, Py.len. f_equal.
    trans (length (map Z.of_nat (seq 0 (length (set_list (Py.split songs))))));
      [|by rewrite length_map, length_seq].
    apply Permutation_length, NoDup_Permutation.
    - apply NoDup_remove_dups.
    - apply (NoDup_fmap_2 Z.of_nat), NoDup_seq.
    - intros id. rewrite elem_of_remove_dups. by apply converted_ids_cover. }
  split; [by rewrite Hsize, length_set_list|].
  split.
  { rewrite Hsize, length_set_list. f_equal. rewrite <- size_dom.
    f_equal. apply set_eq. intros t.
    rewrite elem_of_dom, elem_of_list_to_set. split.
    - intros Ht. destruct (build_mappings_total songs t Ht) as [i Hi]. by exists i.
    - intros [i Hi]. apply build_mappings_lookup in Hi as [_ Hi].
      apply set_list_elem, list_elem_of_lookup. eauto. }
  apply Forall_forall. intros id Hid.
  apply (converted_ids_cover songs ids Hids) in Hid.
  apply list_elem_of_fmap in Hid as (j & -> & Hj). apply elem_of_seq in Hj.
  rewrite Hsize. lia.
Qed.

Lemma one_hot_width_is_vocabulary_size_witness :
  let songs := "60 _ r 62 _" in
  exists int_songs : list Z,
    convert_songs_to_int (H := Sample.collaborators)
      (create_mapping (H := Sample.collaborators) ∅ songs MAPPINGS_PATH) songs
    = Py.Ok int_songs
    /\ vocabulary_size int_songs
       = Z.of_nat (size (list_to_set (Py.split songs) : gset string))
    /\ vocabulary_size int_songs
       = Z.of_nat (size (build_mappings (H := Sample.collaborators) songs))
    /\ Forall (fun id => 0 <= id < vocabulary_size int_songs) int_songs.
Proof.
  apply (one_hot_width_is_vocabulary_size (H := Sample.collaborators) ∅ "60 _ r 62 _").
  vm_compute. reflexivity.
Defined.

(* ===================================================================== *)
(** * Further properties of the sequence generator                        *)
(* ===================================================================== *)

(** The windowing loop in closed form, for a width that is not negative:
    the contexts are the slices of width [W] at the positions
    [0 .. L-W-1], and the targets are the corpus without its first [W]
    elements. *)
Lemma training_windows_closed (int_songs : list Z) (W : Z) :
  0 <= W ->
  training_windows int_songs W
  = Py.Ok (map (fun i : nat => take (Z.to_nat W) (drop i int_songs))
               (seq 0 (length int_songs - Z.to_nat W)),
           drop (Z.to_nat W) int_songs).
Proof.
  intros HW.
  destruct (windows_loop_ok int_songs W (Z.to_nat (Py.len int_songs - W)) 0 [] [] HW)
    as (targets & Hloop & Htargets); [unfold Py.len; lia|].
  simpl in Hloop. unfold training_windows, Py.range. rewrite Hloop.
  replace (Z.to_nat (Py.len int_songs - W))
    with (length int_songs - Z.to_nat W)%nat in * by (unfold Py.len; lia).
  f_equal. f_equal.
  - rewrite map_map. apply map_ext_in. intros i Hi.
    rewrite slice_window by lia. by rewrite Nat2Z.id.
  - apply list_eq. intros j. rewrite lookup_drop.
    destruct (decide (j < length int_songs - Z.to_nat W)%nat) as [Hj|Hj].
    + assert (map Z.of_nat (seq 0 (length int_songs - Z.to_nat W)) !! j
              = Some (Z.of_nat j)) as Hidx.
      { rewrite list_lookup_fmap.
        by rewrite (proj2 (lookup_seq 0 _ j j)) by lia. }
      destruct (Forall2_lookup_l _ _ _ _ _ Htargets Hidx) as (t & Ht & Hjt).
      rewrite Ht, <- Hjt. f_equal. lia.
    + rewrite (lookup_ge_None_2 targets).
      * symmetry. apply lookup_ge_None_2. lia.
      * apply Forall2_length in Htargets.
        rewrite length_map, length_seq in Htargets. lia.
Qed.

(** The window slides by one: for a width of at least 1, each context is
    the previous one without its first element, followed by the previous
    target ([inputs[i+1] == inputs[i][1:] + [targets[i]]]). *)
Theorem consecutive_contexts_slide (int_songs : list Z) (W : Z)
    (inputs : list (list Z)) (targets : list Z) :
  1 <= W ->
  training_windows int_songs W = Py.Ok (inputs, targets) ->
  forall (i : nat) (context next_context : list Z) (target : Z),
    inputs !! i = Some context ->
    inputs !! S i = Some next_context ->
    targets !! i = Some target ->
    next_context = drop 1 context ++ [target].
Proof.
  intros HW Htw i context next_context target Hc Hn Ht.
  rewrite training_windows_closed in Htw by lia.
  injection Htw as <- <-.
  destruct (Z.to_nat W) as [|w] eqn:Ew; [lia|].
  apply list_lookup_fmap_Some in Hc as (i1 & -> & Hi1).
  apply list_lookup_fmap_Some in Hn as (i2 & -> & Hi2).
  apply lookup_seq in Hi1 as [-> Hlt1]. apply lookup_seq in Hi2 as [-> Hlt2].
  rewrite lookup_drop in Ht. simpl.
  destruct (drop i int_songs) as [|x rest] eqn:Hdrop.
  { apply (f_equal length) in Hdrop. rewrite length_drop in Hdrop. simpl in Hdrop. lia. }
  assert (drop (S i) int_songs = rest) as ->.
  { replace (S i) with (i + 1)%nat by lia.
    rewrite <- drop_drop, Hdrop. reflexivity. }
  simpl. rewrite drop_0.
  apply take_S_r.
  assert (rest !! w = (drop i int_songs) !! S w) as -> by (by rewrite Hdrop).
  rewrite lookup_drop, <- Ht. f_equal. lia.
Qed.

Lemma consecutive_contexts_slide_witness :
  [1; 2] = drop 1 [0; 1] ++ [2].
Proof.
  apply (consecutive_contexts_slide [0; 1; 2; 3] 2 [[0; 1]; [1; 2]] [2; 3]
           ltac:(lia) eq_refl 0%nat [0; 1] [1; 2] 2); reflexivity.
Defined.

(** The training pairs hold the whole corpus: when the corpus is longer
    than the width, the first context followed by all the targets is the
    corpus itself, and the targets are the corpus from position [W] on. *)
Theorem first_context_and_targets_rebuild_corpus (int_songs : list Z) (W : Z)
    (inputs : list (list Z)) (targets : list Z) :
  0 <= W -> W < Py.len int_songs ->
  training_windows int_songs W = Py.Ok (inputs, targets) ->
  targets = Py.slice int_songs W (Py.len int_songs)
  /\ exists first_context,
       inputs !! 0%nat = Some first_context
       /\ first_context ++ targets = int_songs.
Proof.
  unfold Py.len. intros HW HL Htw.
  rewrite training_windows_closed in Htw by lia.
  injection Htw as <- <-. split.
  - replace (Z.of_nat (length int_songs))
      with (W + (Z.of_nat (length int_songs) - W)) by lia.
    rewrite slice_window by lia.
    rewrite take_ge; [done|]. rewrite length_drop. lia.
  - exists (take (Z.to_nat W) int_songs). split.
    + destruct (length int_songs - Z.to_nat W)%nat as [|n] eqn:En; [lia|].
      reflexivity.
    + apply take_drop.
Qed.

Lemma first_context_and_targets_rebuild_corpus_witness :
  [2; 3] = Py.slice [0; 1; 2; 3] 2 (Py.len [0; 1; 2; 3])
  /\ exists first_context,
       [[0; 1]; [1; 2]] !! 0%nat = Some first_context
       /\ first_context ++ [2; 3] = [0; 1; 2; 3].
Proof.
  apply (first_context_and_targets_rebuild_corpus [0; 1; 2; 3] 2 [[0; 1]; [1; 2]] [2; 3]).
  - lia.
  - reflexivity.
  - reflexivity.
Defined.

Lemma getitem_in_range {A : Type} (l : list A) (k : Z) :
  - Py.len l <= k < Py.len l -> exists x, Py.getitem l k = Py.Ok x.
Proof.
  unfold Py.getitem, Py.len. cbv zeta. intros Hk.
  destruct (Z.ltb_spec k 0) as [Hneg|Hpos].
  - assert ((k + Z.of_nat (length l) <? 0) = false) as -> by lia.
    destruct (lookup_lt_is_Some_2 l (Z.to_nat (k + Z.of_nat (length l))))
      as [x ->]; [lia|]. eauto.
  - assert ((k <? 0) = false) as -> by lia.
    destruct (lookup_lt_is_Some_2 l (Z.to_nat k)) as [x ->]; [lia|]. eauto.
Qed.

Lemma getitem_below_range {A : Type} (l : list A) (k : Z) :
  k < - Py.len l -> Py.getitem l k = Py.Raise Py.IndexError.
Proof.
  unfold Py.getitem, Py.len. cbv zeta. intros Hk.
  assert ((k <? 0) = true) as -> by lia.
  by assert ((k + Z.of_nat (length l) <? 0) = true) as -> by lia.
Qed.

(** The windowing loop over indices whose targets can all be read. *)
Lemma windows_loop_total (int_songs : list Z) (W : Z) (indices : list Z)
    (inputs : list (list Z)) (targets : list Z) :
  Forall (fun i => exists t, Py.getitem int_songs (i + W) = Py.Ok t) indices ->
  exists new_inputs new_targets,
    windows_loop int_songs W indices inputs targets
    = Py.Ok (inputs ++ new_inputs, targets ++ new_targets)
    /\ length new_inputs = length indices
    /\ Forall2 (fun i t => Py.getitem int_songs (i + W) = Py.Ok t)
               indices new_targets.
Proof.
  intros Hall. revert inputs targets.
  induction Hall as [|i indices [t Ht] Hall IH]; intros inputs targets.
  - exists [], []. simpl. rewrite !app_nil_r. split; [done|]. split; [done|constructor].
  - cbn [windows_loop]. rewrite Ht. simpl.
    destruct (IH (inputs ++ [Py.slice int_songs i (i + W)]) (targets ++ [t]))
      as (ins & ts & -> & Hlen & Hts).
    exists (Py.slice int_songs i (i + W) :: ins), (t :: ts).
    rewrite <- !List.app_assoc. simpl.
    split; [done|]. split; [by rewrite Hlen|by constructor].
Qed.

(** A negative width is not rejected. When [-L <= W < 0] the loop runs
    [L - W] times, more often than the corpus has elements, and raises
    nothing: each target is read with a negative index that counts from
    the end of the corpus. When [W < -L] the first target is out of range
    and the call raises [IndexError]. *)
Theorem negative_width_is_not_rejected (int_songs : list Z) (W : Z) :
  W < 0 ->
  let L := Py.len int_songs in
  (- L <= W ->
   exists (inputs : list (list Z)) (targets : list Z),
     training_windows int_songs W = Py.Ok (inputs, targets)
     /\ Py.len inputs = L - W
     /\ Py.len targets = L - W
     /\ Forall2 (fun i t => Py.getitem int_songs (i + W) = Py.Ok t)
                (Py.range (L - W)) targets)
  /\ (W < - L -> training_windows int_songs W = Py.Raise Py.IndexError).
Proof.
  intros HW L. split.
  - intros HL.
    destruct (windows_loop_total int_songs W (Py.range (L - W)) [] [])
      as (ins & ts & Hloop & Hlen & Hts).
    { apply Forall_forall. intros i Hi. unfold Py.range in Hi.
      apply list_elem_of_fmap in Hi as (j & -> & Hj). apply elem_of_seq in Hj.
      apply getitem_in_range. fold L. lia. }
    exists ins, ts. split; [exact Hloop|].
    assert (length (Py.range (L - W)) = Z.to_nat (L - W)) as Hrange.
    { by rewrite length_range. }
    split; [unfold Py.len in *; lia|].
    split; [|done].
    apply Forall2_length in Hts. unfold Py.len in *. lia.
  - intros HL. unfold training_windows, Py.range. fold L.
    replace (Z.to_nat (L - W)) with (S (Z.to_nat (L - W - 1))).
    + cbn [seq map windows_loop].
      rewrite getitem_below_range; [done|]. fold L. lia.
    + unfold L, Py.len in *. lia.
Qed.

Lemma negative_width_is_not_rejected_witness :
  let int_songs := [0; 1; 2] in
  let W := -1 in
  let L := Py.len int_songs in
  (- L <= W ->
   exists (inputs : list (list Z)) (targets : list Z),
     training_windows int_songs W = Py.Ok (inputs, targets)
     /\ Py.len inputs = L - W
     /\ Py.len targets = L - W
     /\ Forall2 (fun i t => Py.getitem int_songs (i + W) = Py.Ok t)
                (Py.range (L - W)) targets)
  /\ (W < - L -> training_windows int_songs W = Py.Raise Py.IndexError).
Proof.
  apply (negative_width_is_not_rejected [0; 1; 2] (-1)). lia.
Defined.

(* ===================================================================== *)
(** * Properties of the loading and of the preprocessing                  *)
(* ===================================================================== *)

Lemma list_ascii_of_string_app (s t : string) :
  list_ascii_of_string (s +:+ t) = list_ascii_of_string s ++ list_ascii_of_string t.
Proof.
  induction s as [|c s IH]; [reflexivity|].
  rewrite str_app_cons. simpl. by rewrite IH.
Qed.

Lemma string_of_list_ascii_app (l k : list ascii) :
  string_of_list_ascii (l ++ k) = string_of_list_ascii l +:+ string_of_list_ascii k.
Proof.
  induction l as [|c l IH]; [reflexivity|].
  simpl. by rewrite IH, str_app_cons.
Qed.

Lemma last_three_drop (file : string) :
  last_three file
  = string_of_list_ascii
      (drop (length (list_ascii_of_string file) - 3) (list_ascii_of_string file)).
Proof.
  unfold last_three, Py.slice, Py.clamp, Py.len.
  set (chars := list_ascii_of_string file).
  assert ((-3 <? 0) = true) as -> by done.
  assert ((Z.of_nat (length chars) <? 0) = false) as -> by (apply Z.ltb_ge; lia).
  replace (Z.to_nat ((-3 + Z.of_nat (length chars)) `max` 0))
    with (length chars - 3)%nat by lia.
  replace (Z.to_nat (Z.of_nat (length chars) `min` Z.of_nat (length chars)))
    with (length chars) by lia.
  f_equal. apply take_ge. rewrite length_drop. lia.
Qed.

(** A file is selected when its name ends with the three characters
    [krn]; no dot is asked for. *)
Lemma is_krn_suffix (file : string) :
  is_krn file = true <-> exists stem, file = stem +:+ "krn".
Proof.
  unfold is_krn. rewrite last_three_drop.
  set (chars := list_ascii_of_string file). split.
  - intros E. apply String.eqb_eq in E.
    exists (string_of_list_ascii (take (length chars - 3) chars)).
    rewrite <- E, <- string_of_list_ascii_app, take_drop.
    unfold chars. by rewrite string_of_list_ascii_of_string.
  - intros [stem ->]. apply String.eqb_eq.
    unfold chars. rewrite list_ascii_of_string_app, length_app. simpl.
    replace (length (list_ascii_of_string stem) + 3 - 3)%nat
      with (length (list_ascii_of_string stem)) by lia.
    by rewrite drop_app_length.
Qed.

Lemma parse_loop_app `{Music21} (songs : list m21score) (l1 l2 : list string) :
  parse_loop songs (l1 ++ l2)
  = (let* songs' := parse_loop songs l1 in parse_loop songs' l2).
Proof.
  revert songs. induction l1 as [|p l1 IH]; intros songs; [reflexivity|].
  simpl. destruct (parse p) as [song|e]; [|reflexivity]. simpl. apply IH.
Qed.

Lemma load_files_parse_loop `{Music21} (path : string) (files : list string)
    (songs : list m21score) :
  load_files path files songs
  = parse_loop songs (map (os_path_join path) (List.filter is_krn files)).
Proof.
  revert songs. induction files as [|file files IH]; intros songs; [reflexivity|].
  cbn [load_files List.filter]. unfold is_krn at 1.
  destruct (String.eqb (last_three file) "krn"); [|apply IH].
  cbn [map parse_loop].
  destruct (parse (os_path_join path file)) as [song|e]; [|reflexivity].
  simpl. apply IH.
Qed.

Lemma load_dirs_parse_loop `{Music21} (walk : list (string * list string))
    (songs : list m21score) :
  load_dirs walk songs = parse_loop songs (krn_paths walk).
Proof.
  revert songs. induction walk as [|[path files] walk IH]; intros songs; [reflexivity|].
  cbn [load_dirs]. unfold krn_paths. cbn [map concat fst snd].
  rewrite parse_loop_app, load_files_parse_loop.
  destruct (parse_loop songs _) as [songs'|e]; [|reflexivity].
  simpl. apply IH.
Qed.

Lemma parse_loop_ok `{Music21} (songs result : list m21score) (paths : list string) :
  parse_loop songs paths = Py.Ok result
  <-> exists new, result = songs ++ new
                  /\ Forall2 (fun p s => parse p = Py.Ok s) paths new.
Proof.
  revert songs. induction paths as [|p paths IH]; intros songs; simpl.
  - split.
    + intros [= <-]. exists []. by rewrite app_nil_r.
    + intros (new & -> & Hnew). apply Forall2_nil_inv_l in Hnew as ->.
      by rewrite app_nil_r.
  - destruct (parse p) as [song|e] eqn:Hp; simpl.
    + rewrite IH. split.
      * intros (new & -> & Hnew). exists (song :: new).
        rewrite <- List.app_assoc. split; [done|by constructor].
      * intros (new & -> & Hnew).
        apply Forall2_cons_inv_l in Hnew as (s & new' & Hs & Hnew & ->).
        exists new'. rewrite <- List.app_assoc.
        split; [|done]. simpl. congruence.
    + split; [done|]. intros (new & _ & Hnew).
      apply Forall2_cons_inv_l in Hnew as (s & new' & Hs & _ & _). congruence.
Qed.

Lemma parse_loop_fail `{Music21} (songs : list m21score) (pre : list string)
    (p : string) (post : list string) (e : Py.error) :
  (forall q, q ∈ pre -> exists s, parse q = Py.Ok s) ->
  parse p = Py.Raise e ->
  parse_loop songs (pre ++ p :: post) = Py.Raise e.
Proof.
  intros Hpre Hp. revert songs.
  induction pre as [|q pre IH]; intros songs; simpl.
  - by rewrite Hp.
  - destruct (Hpre q) as [s ->]; [by left|]. simpl.
    apply IH. intros r Hr. apply Hpre. by right.
Qed.

(** [load_dataset] hands to the parser, in the order of the walk, exactly
    the files whose name ends with [krn] (a dot is not required), and
    returns the parsed scores in that order; the first file that the
    parser refuses aborts the loading with the parser's error. *)
Theorem load_dataset_parses_krn_files `{Music21} (dataset_path : string) :
  let paths := krn_paths (walk_dirs dataset_path) in
  (forall songs,
     load_dataset dataset_path = Py.Ok songs
     <-> Forall2 (fun p s => parse p = Py.Ok s) paths songs)
  /\ (forall pre p post e,
        paths = pre ++ p :: post ->
        (forall q, q ∈ pre -> exists s, parse q = Py.Ok s) ->
        parse p = Py.Raise e ->
        load_dataset dataset_path = Py.Raise e)
  /\ (forall path file,
        os_path_join path file ∈ krn_paths [(path, [file])]
        <-> exists stem, file = stem +:+ "krn").
Proof.
  intros paths. unfold load_dataset. rewrite load_dirs_parse_loop. fold paths.
  split; [|split].
  - intros songs. rewrite parse_loop_ok. split.
    + by intros (new & -> & Hnew).
    + intros Hsongs. by exists songs.
  - intros pre p post e -> Hpre Hp. by apply parse_loop_fail.
  - intros path file. rewrite <- is_krn_suffix.
    unfold krn_paths. cbn [map concat fst snd List.filter].
    destruct (is_krn file); simpl.
    + split; [done|]. intros _. by left.
    + split; [|done]. intros Hin. by apply elem_of_nil in Hin.
Qed.

Lemma accepted_negb `{Music21} (song : m21score) :
  negb (has_acceptable_note_durations (flatten song) ACCEPTABLE_DURATIONS) = false
  <-> accepted song.
Proof. unfold accepted. by destruct (has_acceptable_note_durations _ _). Qed.

Lemma not_accepted_negb `{Music21} (song : m21score) :
  negb (has_acceptable_note_durations (flatten song) ACCEPTABLE_DURATIONS) = true
  <-> ~ accepted song.
Proof. unfold accepted. by destruct (has_acceptable_note_durations _ _). Qed.

(** One turn of the loop on a song that passes the filter. *)
Lemma preprocess_loop_accepted `{Music21} (fs : filesystem) (i : Z) (song : m21score)
    (rest : list (Z * m21score)) :
  accepted song ->
  preprocess_loop fs ((i, song) :: rest)
  = (let* transposed_song := transpose song in
     let* encoded_song := encode_song (flatten transposed_song) default_time_step in
     if isdir SONGS_DIR
     then preprocess_loop (write fs (save_path i) encoded_song) rest
     else Py.Raise (Py.FileNotFoundError (save_path i))).
Proof.
  intros Hacc. cbn [preprocess_loop]. apply accepted_negb in Hacc. by rewrite Hacc.
Qed.

Lemma preprocess_loop_rejected `{Music21} (fs : filesystem) (i : Z) (song : m21score)
    (rest : list (Z * m21score)) :
  ~ accepted song ->
  preprocess_loop fs ((i, song) :: rest) = preprocess_loop fs rest.
Proof.
  intros Hacc. cbn [preprocess_loop]. apply not_accepted_negb in Hacc. by rewrite Hacc.
Qed.

Lemma accepted_dec `{Music21} (song : m21score) : accepted song \/ ~ accepted song.
Proof. unfold accepted. destruct (has_acceptable_note_durations _ _); auto. Qed.

Lemma preprocess_loop_succeeds `{Music21} (fs : filesystem) (songs : list (Z * m21score)) :
  (exists fs', preprocess_loop fs songs = Py.Ok fs')
  <-> (forall i song, (i, song) ∈ songs -> accepted song ->
                      processed song /\ isdir SONGS_DIR = true).
Proof.
  revert fs. induction songs as [|[i song] songs IH]; intros fs.
  - split; [|by eauto]. intros _ i song Hin. by apply elem_of_nil in Hin.
  - destruct (accepted_dec song) as [Hacc|Hacc].
    + rewrite (preprocess_loop_accepted fs i song songs Hacc).
      destruct (transpose song) as [t|e] eqn:Ht; simpl.
      2:{ split; [by intros [fs' ?]|]. intros Hall.
          destruct (Hall i song) as [(t & enc & Ht' & _) _]; [by left|done|].
          congruence. }
      destruct (encode_song (flatten t) default_time_step) as [enc|e] eqn:Henc; simpl.
      2:{ split; [by intros [fs' ?]|]. intros Hall.
          destruct (Hall i song) as [(t' & enc & Ht' & Henc') _]; [by left|done|].
          congruence. }
      destruct (isdir SONGS_DIR) eqn:Hdir.
      2:{ split; [by intros [fs' ?]|]. intros Hall.
          destruct (Hall i song) as [_ Hd]; [by left|done|]. congruence. }
      rewrite IH. split.
      * intros Hall j s Hin Hs. apply elem_of_cons in Hin as [[= -> ->]|Hin].
        -- split; [by exists t, enc|done].
        -- by apply (Hall j).
      * intros Hall j s Hin. apply (Hall j). by right.
    + rewrite (preprocess_loop_rejected fs i song songs Hacc), IH. split.
      * intros Hall j s Hin Hs. apply elem_of_cons in Hin as [[= -> ->]|Hin].
        -- done.
        -- by apply (Hall j).
      * intros Hall j s Hin. apply (Hall j). by right.
Qed.

(** The loop goes through the songs that it can process. *)
Lemma preprocess_loop_reaches `{Music21} (fs : filesystem) (pre : list (Z * m21score))
    (rest : list (Z * m21score)) :
  (forall j s, (j, s) ∈ pre -> accepted s -> processed s /\ isdir SONGS_DIR = true) ->
  exists fs', preprocess_loop fs (pre ++ rest) = preprocess_loop fs' rest.
Proof.
  intros Hpre. revert fs.
  induction pre as [|[j s] pre IH]; intros fs; [by exists fs|].
  cbn [app].
  destruct (accepted_dec s) as [Hacc|Hacc].
  - rewrite (preprocess_loop_accepted fs j s _ Hacc).
    destruct (Hpre j s) as [(t & enc & -> & Henc) ->]; [by left|done|].
    simpl. rewrite Henc. simpl.
    apply IH. intros j' s' Hin. apply (Hpre j'). by right.
  - rewrite (preprocess_loop_rejected fs j s _ Hacc).
    apply IH. intros j' s' Hin. apply (Hpre j'). by right.
Qed.

Lemma preprocess_loop_none_accepted `{Music21} (fs : filesystem)
    (songs : list (Z * m21score)) :
  (forall i song, (i, song) ∈ songs -> ~ accepted song) ->
  preprocess_loop fs songs = Py.Ok fs.
Proof.
  induction songs as [|[i song] songs IH]; intros Hnone; [done|].
  rewrite preprocess_loop_rejected by (apply (Hnone i); by left).
  apply IH. intros j s Hin. apply (Hnone j). by right.
Qed.

(** One song can stop the whole batch. The loop of [preprocess] runs to
    the end exactly when every song that passes the filter is transposed
    and encoded without error and, if there is such a song, the directory
    of the encoded songs exists. The songs that the filter rejects are
    neither transposed nor encoded. The first accepted song that fails
    ends the run: with the error of its transposition, or else with the
    error of its encoding, or else with [FileNotFoundError] for its file
    when the directory is missing. With no accepted song the run
    succeeds and leaves the files as they are. *)
Theorem preprocess_stops_at_first_failure `{Music21}
    (fs : filesystem) (songs : list (Z * m21score)) :
  ((exists fs', preprocess_loop fs songs = Py.Ok fs')
   <-> (forall i song, (i, song) ∈ songs -> accepted song ->
                       processed song /\ isdir SONGS_DIR = true))
  /\ (forall pre i song post,
        songs = pre ++ (i, song) :: post ->
        (forall j s, (j, s) ∈ pre -> accepted s ->
                     processed s /\ isdir SONGS_DIR = true) ->
        accepted song ->
        (forall err, transpose song = Py.Raise err ->
                     preprocess_loop fs songs = Py.Raise err)
        /\ (forall transposed_song err,
              transpose song = Py.Ok transposed_song ->
              encode_song (flatten transposed_song) default_time_step = Py.Raise err ->
              preprocess_loop fs songs = Py.Raise err)
        /\ (forall transposed_song encoded_song,
              transpose song = Py.Ok transposed_song ->
              encode_song (flatten transposed_song) default_time_step
              = Py.Ok encoded_song ->
              isdir SONGS_DIR = false ->
              preprocess_loop fs songs
              = Py.Raise (Py.FileNotFoundError (save_path i))))
  /\ ((forall i song, (i, song) ∈ songs -> ~ accepted song) ->
      preprocess_loop fs songs = Py.Ok fs).
Proof.
  split; [apply preprocess_loop_succeeds|]. split; [|apply preprocess_loop_none_accepted].
  intros pre i song post -> Hpre Hacc.
  destruct (preprocess_loop_reaches fs pre ((i, song) :: post) Hpre) as [fs' ->].
  rewrite (preprocess_loop_accepted fs' i song post Hacc).
  split; [|split].
  - by intros err ->.
  - intros t err -> Henc. simpl. by rewrite Henc.
  - intros t enc -> Henc Hdir. simpl. by rewrite Henc, Hdir.
Qed.

Lemma starts_with_slash_str_int (i : Z) : starts_with_slash (Py.str_int i) = false.
Proof.
  pose proof (str_int_starts_numeric i) as Hnum.
  destruct (Py.str_int i) as [|c s]; [done|].
  unfold starts_numeric in Hnum. unfold starts_with_slash.
  destruct (Ascii.eqb_spec c "/") as [->|_]; [|done]. done.
Qed.

Lemma save_path_eq (i : Z) : save_path i = (SONGS_DIR +:+ "/") +:+ Py.str_int i.
Proof.
  unfold save_path, os_path_join. rewrite starts_with_slash_str_int.
  cbn. by rewrite <- str_app_assoc.
Qed.

Lemma save_path_inj (i j : Z) : save_path i = save_path j -> i = j.
Proof.
  rewrite !save_path_eq. intros E.
  apply (inj (String.app _)) in E.
  apply (f_equal Py.int_of_str) in E.
  rewrite !int_of_str_str_int in E. congruence.
Qed.

(** What [preprocess_loop] leaves in the files, for songs with distinct
    indices. *)
Lemma preprocess_loop_files `{Music21} (fs fs' : filesystem)
    (songs : list (Z * m21score)) :
  NoDup (map fst songs) ->
  preprocess_loop fs songs = Py.Ok fs' ->
  (forall i song, (i, song) ∈ songs -> accepted song ->
     exists transposed_song encoded_song,
       transpose song = Py.Ok transposed_song
       /\ encode_song (flatten transposed_song) default_time_step = Py.Ok encoded_song
       /\ fs' !! save_path i = Some encoded_song)
  /\ (forall p, (forall i song, (i, song) ∈ songs -> accepted song -> p <> save_path i) ->
                fs' !! p = fs !! p).
Proof.
  intros Hnd. revert fs. induction songs as [|[i song] songs IH]; intros fs Hloop.
  - injection Hloop as <-. split; [|done].
    intros i song Hin. by apply elem_of_nil in Hin.
  - cbn [map fst] in Hnd. apply NoDup_cons in Hnd as [Hi Hnd].
    cbn [preprocess_loop] in Hloop.
    destruct (negb (has_acceptable_note_durations (flatten song) ACCEPTABLE_DURATIONS))
      eqn:Hacc.
    + destruct (IH Hnd fs Hloop) as [Hw Hu]. split.
      * intros j s Hin Hs. apply elem_of_cons in Hin as [[= -> ->]|Hin].
        -- apply accepted_negb in Hs. congruence.
        -- by apply (Hw j).
      * intros p Hp. apply Hu. intros j s Hin. apply (Hp j). by right.
    + destruct (transpose song) as [t|e] eqn:Ht; [|done]. simpl in Hloop.
      destruct (encode_song (flatten t) default_time_step) as [enc|e] eqn:Henc;
        [|done].
      simpl in Hloop. destruct (isdir SONGS_DIR); [|done].
      destruct (IH Hnd _ Hloop) as [Hw Hu]. split.
      * intros j s Hin Hs. apply elem_of_cons in Hin as [[= -> ->]|Hin].
        -- exists t, enc. split; [done|].
           split; [done|].
           rewrite Hu.
           ++ unfold write. by rewrite lookup_insert_eq.
           ++ intros j s Hin _ E. apply save_path_inj in E as ->.
              apply Hi. apply list_elem_of_fmap. by exists (j, s).
        -- by apply (Hw j).
      * intros p Hp. rewrite Hu.
        -- unfold write. rewrite lookup_insert_ne; [done|].
           intros E. apply (Hp i song); [by left|by apply accepted_negb|done].
        -- intros j s Hin. apply (Hp j). by right.
Qed.

Lemma combine_from_lookup {A : Type} (s : nat) (l : list A) (k : nat) :
  combine (map Z.of_nat (seq s (length l))) l !! k
  = (fun x => (Z.of_nat (s + k), x)) <$> l !! k.
Proof.
  revert s k. induction l as [|y l IH]; intros s k; [by destruct k|].
  cbn [length seq map combine]. destruct k as [|k].
  - simpl. by rewrite Nat.add_0_r.
  - simpl. rewrite IH. by replace (S s + k)%nat with (s + S k)%nat by lia.
Qed.

Lemma lookup_enumerate {A : Type} (l : list A) (k : nat) :
  enumerate l !! k = (fun x => (Z.of_nat k, x)) <$> l !! k.
Proof.
  unfold enumerate, Py.range, Py.len. rewrite Nat2Z.id.
  by rewrite combine_from_lookup.
Qed.

Lemma fst_enumerate {A : Type} (l : list A) :
  map fst (enumerate l) = map Z.of_nat (seq 0 (length l)).
Proof.
  apply list_eq. intros k.
  rewrite !list_lookup_fmap, lookup_enumerate.
  destruct (l !! k) as [x|] eqn:Hk; simpl.
  - apply lookup_lt_Some in Hk.
    by rewrite (proj2 (lookup_seq 0 (length l) k k)) by lia.
  - apply lookup_ge_None in Hk.
    by rewrite (lookup_ge_None_2 (seq 0 (length l)) k) by (rewrite length_seq; lia).
Qed.

(** The files of [preprocess]: when the run succeeds, every song that
    passes the filter has its own file, named after its position in the
    loaded dataset (rejected songs count, so the names can have gaps),
    which holds the encoding of the transposed song; every other file is
    as it was before, including a file left by an earlier run at the name
    of a song that is now rejected. *)
Theorem preprocess_writes_one_file_per_accepted_song `{Music21}
    (fs fs' : filesystem) (dataset_path : string) (songs : list m21score) :
  load_dataset dataset_path = Py.Ok songs ->
  preprocess fs dataset_path = Py.Ok fs' ->
  (forall (k : nat) song, songs !! k = Some song -> accepted song ->
     exists transposed_song encoded_song,
       transpose song = Py.Ok transposed_song
       /\ encode_song (flatten transposed_song) default_time_step = Py.Ok encoded_song
       /\ save_path (Z.of_nat k) = (SONGS_DIR +:+ "/") +:+ Py.str_int (Z.of_nat k)
       /\ fs' !! save_path (Z.of_nat k) = Some encoded_song
       /\ token_file encoded_song)
  /\ (forall p,
        (forall (k : nat) song, songs !! k = Some song -> accepted song ->
                                p <> save_path (Z.of_nat k)) ->
        fs' !! p = fs !! p).
Proof.
  intros Hload Hpre. unfold preprocess in Hpre. rewrite Hload in Hpre.
  simpl in Hpre.
  destruct (preprocess_loop_files fs fs' (enumerate songs)) as [Hw Hu]; [|done|].
  { rewrite fst_enumerate. apply (NoDup_fmap_2 Z.of_nat), NoDup_seq. }
  split.
  - intros k song Hk Hacc.
    destruct (Hw (Z.of_nat k) song) as (t & content & Ht & Henc & Hfile); [|done|].
    { apply list_elem_of_lookup. exists k. by rewrite lookup_enumerate, Hk. }
    exists t, content. split; [done|]. split; [done|].
    split; [apply save_path_eq|]. split; [done|].
    by exists (flatten t), default_time_step.
  - intros p Hp. apply Hu. intros i song Hin Hacc.
    apply list_elem_of_lookup in Hin as [k Hk].
    rewrite lookup_enumerate in Hk.
    destruct (songs !! k) as [song'|] eqn:Hsk; [|done].
    injection Hk as <- <-. by apply (Hp k song').
Qed.

Lemma preprocess_writes_one_file_per_accepted_song_witness :
  let songs := [[Note 60 1; Rest (1 # 2); Note 62 (1 # 4)];
                [Note 60 1; Rest (1 # 2); Note 62 (1 # 4)]] in
  let fs' : filesystem :=
    write (write ∅ (save_path 0) "62 _ _ _ r _ 64") (save_path 1) "62 _ _ _ r _ 64" in
  (forall (k : nat) song, songs !! k = Some song ->
     accepted (H := SampleM21.music21) song ->
     exists transposed_song encoded_song,
       transpose (Music21 := SampleM21.music21) song = Py.Ok transposed_song
       /\ encode_song (flatten (Music21 := SampleM21.music21) transposed_song)
                      default_time_step = Py.Ok encoded_song
       /\ save_path (Z.of_nat k) = (SONGS_DIR +:+ "/") +:+ Py.str_int (Z.of_nat k)
       /\ fs' !! save_path (Z.of_nat k) = Some encoded_song
       /\ token_file encoded_song)
  /\ (forall p,
        (forall (k : nat) song, songs !! k = Some song ->
                                accepted (H := SampleM21.music21) song ->
                                p <> save_path (Z.of_nat k)) ->
        fs' !! p = (∅ : filesystem) !! p).
Proof.
  apply (preprocess_writes_one_file_per_accepted_song (H := SampleM21.music21)
           ∅ _ DATASET_PATH).
  - vm_compute. reflexivity.
  - vm_compute. reflexivity.
Defined.

(* ===================================================================== *)
(** * The whole run                                                       *)
(* ===================================================================== *)

Lemma mappings_path_is_not_the_dataset : MAPPINGS_PATH <> UNIVERSAL_DATASET.
Proof. discriminate. Qed.

(** After the preprocessing, the run cannot fail before the one-hot
    expansion. The corpus is assembled from the files of [SONGS_DIR] and
    written to the dataset file; the vocabulary built from it gives an id
    to every token, so the conversion raises no [KeyError]; the sequence
    generator reads back that same corpus (the mappings file is another
    file) and builds [max(0, L - 64)] training pairs; and the run ends
    with what [to_categorical] returns on them. The JSON codec is assumed
    to read back the table it wrote. *)
Theorem run_after_preprocessing `{Music21} `{Collaborators} (fs fs1 : filesystem) :
  preprocess fs DATASET_PATH = Py.Ok fs1 ->
  let corpus :=
    Py.drop_last (assembled SEQUENCE_LENGTH (walked_contents fs1 SONGS_DIR)) in
  json_load (json_dump (build_mappings corpus)) = Py.Ok (build_mappings corpus) ->
  let fs3 := create_mapping (write fs1 UNIVERSAL_DATASET corpus) corpus MAPPINGS_PATH in
  exists (int_songs : list Z) (inputs : list (list Z)) (targets : list Z),
    create_universal_dataset fs1 SONGS_DIR UNIVERSAL_DATASET SEQUENCE_LENGTH
    = Py.Ok (corpus, write fs1 UNIVERSAL_DATASET corpus)
    /\ convert_songs_to_int fs3 corpus = Py.Ok int_songs
    /\ Py.len int_songs = Py.len (Py.split corpus)
    /\ training_windows int_songs SEQUENCE_LENGTH = Py.Ok (inputs, targets)
    /\ Py.len inputs = Z.max 0 (Py.len (Py.split corpus) - SEQUENCE_LENGTH)
    /\ Py.len targets = Z.max 0 (Py.len (Py.split corpus) - SEQUENCE_LENGTH)
    /\ generate_training_sequences fs3 SEQUENCE_LENGTH
       = (let* one_hot := to_categorical inputs (vocabulary_size int_songs) in
          Py.Ok (one_hot, targets))
    /\ generate_model_ready_dataset fs
       = (let* _ := to_categorical inputs (vocabulary_size int_songs) in
          Py.Ok fs3).
Proof.
  intros Hpre corpus Hjson fs3.
  pose proof (create_universal_dataset_ok fs1 SONGS_DIR UNIVERSAL_DATASET
                SEQUENCE_LENGTH) as Hcud.
  cbv zeta in Hcud. fold corpus in Hcud.
  assert (convert_songs_to_int fs3 corpus
          = map_to_int (build_mappings corpus) (Py.split corpus)) as Hconv.
  { unfold fs3. by apply convert_after_create_mapping_eq. }
  destruct (proj2 (map_to_int_succeeds (build_mappings corpus) (Py.split corpus)))
    as [ids Hids].
  { intros t Ht. destruct (build_mappings_total corpus t Ht) as [i Hi]. by exists i. }
  rewrite Hids in Hconv.
  assert (Py.len ids = Py.len (Py.split corpus)) as Hlen.
  { apply map_to_int_ok in Hids. unfold Py.len. f_equal. symmetry.
    by eapply Forall2_length. }
  pose proof (training_windows_closed ids SEQUENCE_LENGTH) as Htw.
  specialize (Htw ltac:(unfold SEQUENCE_LENGTH; lia)).
  assert (load fs3 UNIVERSAL_DATASET = Py.Ok corpus) as Hload.
  { unfold load, fs3, create_mapping, write.
    rewrite lookup_insert_ne by apply mappings_path_is_not_the_dataset.
    by rewrite lookup_insert_eq. }
  assert (generate_training_sequences fs3 SEQUENCE_LENGTH
          = (let* one_hot := to_categorical
                               (map (fun i : nat => take (Z.to_nat SEQUENCE_LENGTH)
                                                         (drop i ids))
                                    (seq 0 (length ids - Z.to_nat SEQUENCE_LENGTH)))
                               (vocabulary_size ids) in
             Py.Ok (one_hot, drop (Z.to_nat SEQUENCE_LENGTH) ids))) as Hgen.
  { unfold generate_training_sequences. rewrite Hload. simpl.
    rewrite Hconv. simpl. by rewrite Htw. }
  eexists ids, _, _.
  split; [exact Hcud|]. split; [exact Hconv|]. split; [exact Hlen|].
  split; [exact Htw|].
  split.
  { rewrite <- Hlen. unfold Py.len. rewrite length_map, length_seq.
    unfold SEQUENCE_LENGTH. lia. }
  split.
  { rewrite <- Hlen. unfold Py.len. rewrite length_drop.
    unfold SEQUENCE_LENGTH. lia. }
  split; [exact Hgen|].
  unfold generate_model_ready_dataset. rewrite Hpre. simpl.
  rewrite Hcud. simpl. fold fs3. rewrite Hconv. simpl.
  rewrite Hgen.
  by destruct (to_categorical _ _).
Qed.

Lemma run_after_preprocessing_witness :
  let fs1 : filesystem :=
    write (write ∅ (save_path 0) "62 _ _ _ r _ 64") (save_path 1) "62 _ _ _ r _ 64" in
  let corpus :=
    Py.drop_last (assembled SEQUENCE_LENGTH
                    (walked_contents (H := Sample.collaborators) fs1 SONGS_DIR)) in
  let fs3 :=
    create_mapping (H := Sample.collaborators)
      (write fs1 UNIVERSAL_DATASET corpus) corpus MAPPINGS_PATH in
  exists (int_songs : list Z) (inputs : list (list Z)) (targets : list Z),
    create_universal_dataset (H := Sample.collaborators) fs1 SONGS_DIR
      UNIVERSAL_DATASET SEQUENCE_LENGTH
    = Py.Ok (corpus, write fs1 UNIVERSAL_DATASET corpus)
    /\ convert_songs_to_int (H := Sample.collaborators) fs3 corpus = Py.Ok int_songs
    /\ Py.len int_songs = Py.len (Py.split corpus)
    /\ training_windows int_songs SEQUENCE_LENGTH = Py.Ok (inputs, targets)
    /\ Py.len inputs = Z.max 0 (Py.len (Py.split corpus) - SEQUENCE_LENGTH)
    /\ Py.len targets = Z.max 0 (Py.len (Py.split corpus) - SEQUENCE_LENGTH)
    /\ generate_training_sequences (H := Sample.collaborators) fs3 SEQUENCE_LENGTH
       = (let* one_hot := to_categorical inputs (vocabulary_size int_songs) in
          Py.Ok (one_hot, targets))
    /\ generate_model_ready_dataset (H := SampleM21.music21)
         (H0 := Sample.collaborators) ∅
       = (let* _ := to_categorical inputs (vocabulary_size int_songs) in
          Py.Ok fs3).
Proof.
  apply (run_after_preprocessing (H := SampleM21.music21) (H0 := Sample.collaborators)
           ∅ _).
  - vm_compute. reflexivity.
  - vm_compute. reflexivity.
Defined.

